(** * Evaluation driver of DeepForest (eval.py): a shallow embedding

    The script parses its command line with [argparse], builds an
    evaluation generator, loads a RetinaNet model, delegates the evaluation
    pass and then aggregates, prints and logs a handful of metrics.

    Layout of this development:
    - [Py]        the fragment of Python the script uses: dynamic values,
                  exceptions, binary64 floats and their [{:.nf}] formatting,
                  [strftime], and the monad of the script's effects;
    - [Argparse]  the argument-parsing engine of CPython's [argparse]
                  (the functions the script reaches through [parse_args]);
    - [Eval]      the functions of eval.py: [parse_args],
                  [create_generator], [main];
    - [OnTheFlyGeneratorModel]  the batch order of the external generator;
    - the properties proved about them. *)

From Stdlib Require Import ZArith List String Ascii Bool Lia Floats DecimalString.
From stdpp Require Import gmap strings list.
Import ListNotations.

#[local] Set Warnings "-inexact-float".

Local Open Scope Z_scope.

(* ===================================================================== *)
(** ** Python values, exceptions and effects *)
(* ===================================================================== *)

Module Py.

(** Dynamic values held by an [argparse.Namespace] and handed around by the
    script. *)
#[local] Unset Elimination Schemes.
Inductive pyval : Type :=
| VNone
| VBool (b : bool)
| VInt (z : Z)
| VFloat (f : float)
| VStr (s : string)
| VList (l : list pyval).
#[local] Set Elimination Schemes.

(** The exceptions the script can end with.  [External] stands for whatever
    a delegated library call raises. *)
Inductive exn : Type :=
| SystemExit (code : Z)
| TypeError
| ValueError
| ZeroDivisionError
| KeyError (key : string)
| FileExistsError
| RecursionError
| External (origin : string).

Inductive result (A : Type) : Type :=
| Ok (a : A)
| Raise (e : exn).
Arguments Ok {A} a.
Arguments Raise {A} e.

Definition rbind {A B} (r : result A) (k : A -> result B) : result B :=
  match r with
  | Ok a => k a
  | Raise e => Raise e
  end.

(** Python truthiness ([if x:]). *)
Definition truthy (v : pyval) : bool :=
  match v with
  | VNone => false
  | VBool b => b
  | VInt z => negb (z =? 0)
  | VFloat f => negb (PrimFloat.eqb f 0%float)
  | VStr s => negb (String.eqb s "")
  | VList l => match l with [] => false | _ => true end
  end.

Definition is_none (v : pyval) : bool :=
  match v with VNone => true | _ => false end.

(** [float(z)] for an [int]: exact below 2^53 and rounded to nearest up to
    2^63, which covers every count the script converts. *)
Definition float_of_Z (z : Z) : float :=
  let m := PrimFloat.of_uint63 (Uint63.of_Z (Z.abs z)) in
  if z <? 0 then PrimFloat.opp m else m.

Definition as_number (v : pyval) : option (Z + float) :=
  match v with
  | VBool b => Some (inl (if b then 1 else 0))
  | VInt z => Some (inl z)
  | VFloat f => Some (inr f)
  | _ => None
  end.

Definition to_float (n : Z + float) : float :=
  match n with inl z => float_of_Z z | inr f => f end.

(** [a + b]. *)
Definition py_add (a b : pyval) : result pyval :=
  match a, b with
  | VStr s, VStr t => Ok (VStr (s ++ t))
  | VList l, VList m => Ok (VList (l ++ m))
  | _, _ =>
      match as_number a, as_number b with
      | Some (inl x), Some (inl y) => Ok (VInt (x + y))
      | Some x, Some y => Ok (VFloat (to_float x + to_float y))
      | _, _ => Raise TypeError
      end
  end.

(** [a / b] (true division). *)
Definition py_truediv (a b : pyval) : result pyval :=
  match as_number a, as_number b with
  | Some x, Some (inl y) =>
      if y =? 0 then Raise ZeroDivisionError
      else Ok (VFloat (to_float x / float_of_Z y))
  | Some x, Some (inr y) =>
      if PrimFloat.eqb y 0%float then Raise ZeroDivisionError
      else Ok (VFloat (to_float x / y))
  | _, _ => Raise TypeError
  end.

(** *** Text *)

Definition decimal (n : Z) : string :=
  NilZero.string_of_uint (N.to_uint (Z.to_N n)).

Fixpoint zeros (n : nat) : string :=
  match n with
  | O => ""
  | S k => String "0" (zeros k)
  end.

(** The last [n] characters of [s] and what precedes them. *)
Definition split_tail (n : nat) (s : string) : string * string :=
  let k := (String.length s - n)%nat in
  (substring 0 k s, substring k n s).

(** Nearest integer of [num / den], ties to even ([den > 0]). *)
Definition round_half_even (num den : Z) : Z :=
  let q := num / den in
  let r := num mod den in
  if 2 * r <? den then q
  else if den <? 2 * r then q + 1
  else if Z.even q then q else q + 1.

(** Digits of a natural number scaled by 10^p, with the point put back. *)
Definition fixed_point (p : nat) (scaled : Z) : string :=
  let d := decimal scaled in
  let d := (zeros (S p - String.length d) ++ d)%string in
  let '(ip, fp) := split_tail p d in
  match p with
  | O => ip
  | S _ => (ip ++ "." ++ fp)%string
  end.

(** ['{:.pf}'.format(x)]: the exact binary value of [x], correctly rounded
    to [p] decimals. *)
Definition format_f (p : nat) (x : float) : string :=
  match Prim2SF x with
  | S754_nan => "nan"
  | S754_infinity s => if s then "-inf" else "inf"
  | S754_zero s => ((if s then "-" else "") ++ fixed_point p 0)%string
  | S754_finite s m e =>
      let scaled :=
        if 0 <=? e
        then Z.pos m * 2 ^ e * 10 ^ Z.of_nat p
        else round_half_even (Z.pos m * 10 ^ Z.of_nat p) (2 ^ (- e)) in
      ((if s then "-" else "") ++ fixed_point p scaled)%string
  end.

(** [print(a, b, ...)] joins its arguments with one space. *)
Definition print_line (parts : list string) : string :=
  String.concat " " parts.

Record datetime : Type := {
  year : Z; month : Z; day : Z; hour : Z; minute : Z; second : Z
}.

Definition pad2 (n : Z) : string :=
  if n <? 10 then ("0" ++ decimal n)%string else decimal n.

(** [dt.strftime("%Y%m%d_%H%M%S")]. *)
Definition strftime_Ymd_HMS (dt : datetime) : string :=
  (decimal (year dt) ++ pad2 (month dt) ++ pad2 (day dt) ++ "_"
   ++ pad2 (hour dt) ++ pad2 (minute dt) ++ pad2 (second dt))%string.

End Py.

(* ===================================================================== *)
(** ** The argument-parsing engine of [argparse] *)
(* ===================================================================== *)

(** A transcription of the part of CPython's [argparse] that
    [ArgumentParser.parse_args] runs for parsers made of [store],
    [store_true], [help] and sub-parser actions: classification of the
    argument strings, the pattern matching that distributes them over the
    actions, and the actions themselves.  Messages written to [stderr] are
    not modelled; [parser.error] is [SystemExit 2] and the help action is
    [SystemExit 0]. *)

Module Argparse.
Import Py.

Definition SUPPRESS : string := "==SUPPRESS==".
Definition UNRECOGNIZED_ARGS_ATTR : string := "_unrecognized_args".

Inductive nargs : Type :=
| N_one      (* nargs=None: exactly one argument string *)
| N_zero     (* nargs=0: store_true, help *)
| N_parser.  (* nargs=PARSER: a sub-command and everything after it *)

Inductive pytype : Type := T_none | T_int | T_float.

Inductive action_kind : Type := K_store | K_store_true | K_help | K_parsers.

Record Action : Type := {
  option_strings : list string;
  dest : string;
  a_nargs : nargs;
  kind : action_kind;
  default : option pyval;            (* [None] is the SUPPRESS sentinel *)
  a_type : pytype;
  choices : option (list string);
  required : bool
}.

Abbreviation Parser := (list Action).
Abbreviation Namespace := (gmap string pyval).

Definition usage_error {A} : result A := Raise (SystemExit 2).

(** *** Small string helpers *)

Definition first_char (s : string) : option ascii := String.get 0 s.
Definition second_char (s : string) : option ascii := String.get 1 s.

Definition is_dash (c : option ascii) : bool :=
  match c with Some c => Ascii.eqb c "-" | None => false end.

Fixpoint contains_char (c : ascii) (s : string) : bool :=
  match s with
  | EmptyString => false
  | String d s' => Ascii.eqb c d || contains_char c s'
  end.

(** [s.split(c, 1)] when [c] occurs in [s]. *)
Fixpoint split_once (c : ascii) (s : string) : option (string * string) :=
  match s with
  | EmptyString => None
  | String d s' =>
      if Ascii.eqb c d then Some (EmptyString, s')
      else match split_once c s' with
           | Some (a, b) => Some (String d a, b)
           | None => None
           end
  end.

Fixpoint assoc {A} (k : string) (l : list (string * A)) : option A :=
  match l with
  | [] => None
  | (k', v) :: l' => if String.eqb k k' then Some v else assoc k l'
  end.

Definition is_digit (c : ascii) : bool :=
  let n := nat_of_ascii c in (48 <=? n)%nat && (n <=? 57)%nat.

Fixpoint all_digits (s : string) : bool :=
  match s with
  | EmptyString => true
  | String c s' => is_digit c && all_digits s'
  end.

Definition digits1 (s : string) : bool :=
  negb (String.eqb s "") && all_digits s.

Fixpoint drop_final_newline (s : string) : string :=
  match s with
  | EmptyString => EmptyString
  | String c EmptyString => if Ascii.eqb c "010" then EmptyString else s
  | String c s' => String c (drop_final_newline s')
  end.

(** [_negative_number_matcher]: the regular expression
    [^-\d+$|^-\d*\.\d+$] (ASCII digits). *)
Definition negative_number_like (s : string) : bool :=
  match drop_final_newline s with
  | String "-" body =>
      digits1 body
      || match split_once "." body with
         | Some (a, b) => all_digits a && digits1 b
         | None => false
         end
  | _ => false
  end.

(** *** The pattern language of [_get_nargs_pattern] *)

(** Characters of [arg_strings_pattern]. *)
Inductive pchar : Type := PA | PO | PD.   (* 'A', 'O', '-' *)

Definition pchar_eqb (a b : pchar) : bool :=
  match a, b with
  | PA, PA | PO, PO | PD, PD => true
  | _, _ => false
  end.

Inductive ritem : Type :=
| RChar (c : pchar)            (* a literal character *)
| RStar (cls : list pchar).    (* [cls]*, greedy *)

Definition in_class (cls : list pchar) (c : pchar) : bool :=
  existsb (pchar_eqb c) cls.

(** Greedy star with backtracking: consume while possible, give back one
    character at a time until the rest of the pattern matches. *)
Fixpoint m_star {R} (cls : list pchar) (k : list pchar -> option R)
    (s : list pchar) : option R :=
  match s with
  | c :: s' =>
      if in_class cls c then
        match m_star cls k s' with
        | Some r => Some r
        | None => k s
        end
      else k s
  | [] => k s
  end.

Fixpoint m_items {R} (items : list ritem) (k : list pchar -> option R)
    (s : list pchar) : option R :=
  match items with
  | [] => k s
  | RChar c :: items' =>
      match s with
      | x :: s' => if pchar_eqb x c then m_items items' k s' else None
      | [] => None
      end
  | RStar cls :: items' => m_star cls (m_items items' k) s
  end.

(** [re.match] of a sequence of groups; the result is the length of what
    each group matched. *)
Fixpoint m_groups (groups : list (list ritem)) (s : list pchar)
    : option (list nat) :=
  match groups with
  | [] => Some []
  | g :: groups' =>
      m_items g
        (fun s1 =>
           match m_groups groups' s1 with
           | Some ls => Some ((length s - length s1)%nat :: ls)
           | None => None
           end) s
  end.

(** The pattern text with ['-*'] and ['-'] removed, as done for optional
    actions. *)
Definition strip_dashes (g : list ritem) : list ritem :=
  flat_map
    (fun it =>
       match it with
       | RStar [PD] => []
       | RStar cls => [RStar (List.filter (fun c => negb (pchar_eqb c PD)) cls)]
       | RChar PD => []
       | RChar c => [RChar c]
       end) g.

Definition is_optional (a : Action) : bool :=
  match option_strings a with [] => false | _ => true end.

Definition get_nargs_pattern (a : Action) : list ritem :=
  let p :=
    match a_nargs a with
    | N_one => [RStar [PD]; RChar PA; RStar [PD]]            (* -*A-*     *)
    | N_zero => [RStar [PD]; RStar [PD]]                      (* -*-*      *)
    | N_parser => [RStar [PD]; RChar PA; RStar [PD; PA; PO]]  (* -*A[-AO]* *)
    end in
  if is_optional a then strip_dashes p else p.

Definition match_argument (a : Action) (pattern : list pchar) : result nat :=
  match m_groups [get_nargs_pattern a] pattern with
  | Some (n :: _) => Ok n
  | _ => usage_error
  end.

(** Try all the actions, then all but the last, and so on. *)
Fixpoint match_partial_from (i : nat) (actions : Parser) (pattern : list pchar)
    : list nat :=
  match i with
  | O => []
  | S j =>
      match m_groups (map get_nargs_pattern (firstn i actions)) pattern with
      | Some counts => counts
      | None => match_partial_from j actions pattern
      end
  end.

Definition match_arguments_partial (actions : Parser) (pattern : list pchar)
    : list nat :=
  match_partial_from (length actions) actions pattern.

(** *** Classification of the argument strings *)

Inductive optuple : Type :=
| OptTuple (action : option Action) (option_string : string)
           (explicit_arg : option string).

Inductive tokclass : Type :=
| C_A                  (* an argument *)
| C_O (t : optuple)    (* an option string *)
| C_dash.              (* the first ['--'] *)

Definition pchar_of (c : tokclass) : pchar :=
  match c with C_A => PA | C_O _ => PO | C_dash => PD end.

Definition is_option (c : tokclass) : bool :=
  match c with C_O _ => true | _ => false end.

Definition option_string_actions (P : Parser) : list (string * Action) :=
  flat_map (fun a => map (fun s => (s, a)) (option_strings a)) P.

Definition has_negative_number_optionals (P : Parser) : bool :=
  existsb (fun '(s, _) => negative_number_like s) (option_string_actions P).

Definition get_option_tuples (P : Parser) (option_string : string)
    : list optuple :=
  if is_dash (second_char option_string) then
    (* long form: abbreviations are allowed, split at '=' *)
    let '(option_prefix, explicit_arg) :=
      match split_once "=" option_string with
      | Some (p, e) => (p, Some e)
      | None => (option_string, None)
      end in
    flat_map
      (fun '(s, a) =>
         if String.prefix option_prefix s
         then [OptTuple (Some a) s explicit_arg] else [])
      (option_string_actions P)
  else
    (* single dash: a short option glued to its argument *)
    let short_option_prefix := substring 0 2 option_string in
    let short_explicit_arg :=
      substring 2 (String.length option_string - 2) option_string in
    flat_map
      (fun '(s, a) =>
         if String.eqb s short_option_prefix
         then [OptTuple (Some a) s (Some short_explicit_arg)]
         else if String.prefix option_string s
         then [OptTuple (Some a) s None] else [])
      (option_string_actions P).

Definition parse_optional (P : Parser) (arg_string : string)
    : result (option optuple) :=
  if String.eqb arg_string "" then Ok None
  else if negb (is_dash (first_char arg_string)) then Ok None
  else
    match assoc arg_string (option_string_actions P) with
    | Some a => Ok (Some (OptTuple (Some a) arg_string None))
    | None =>
        if (String.length arg_string =? 1)%nat then Ok None
        else
          let with_eq :=
            match split_once "=" arg_string with
            | Some (o, e) =>
                match assoc o (option_string_actions P) with
                | Some a => Some (OptTuple (Some a) o (Some e))
                | None => None
                end
            | None => None
            end in
          match with_eq with
          | Some t => Ok (Some t)
          | None =>
              match get_option_tuples P arg_string with
              | _ :: _ :: _ => usage_error          (* ambiguous option *)
              | [t] => Ok (Some t)
              | [] =>
                  if negative_number_like arg_string
                     && negb (has_negative_number_optionals P)
                  then Ok None
                  else if contains_char " " arg_string then Ok None
                  else Ok (Some (OptTuple None arg_string None))
              end
          end
    end.

Fixpoint classify (P : Parser) (arg_strings : list string)
    : result (list tokclass) :=
  match arg_strings with
  | [] => Ok []
  | a :: rest =>
      if String.eqb a "--" then Ok (C_dash :: map (fun _ => C_A) rest)
      else
        rbind (parse_optional P a) (fun t =>
        rbind (classify P rest) (fun cs =>
        Ok (match t with None => C_A | Some t => C_O t end :: cs)))
  end.

(** *** Taking actions *)

Record pstate : Type := {
  ns : Namespace;
  extras : list string;
  seen_actions : list string;      (* the actions seen, by [dest] *)
  positionals : Parser             (* the positionals still to be parsed *)
}.

Definition with_ns (st : pstate) (n : Namespace) (d : string) : pstate :=
  {| ns := n; extras := extras st;
     seen_actions := d :: seen_actions st; positionals := positionals st |}.

Definition add_extras (st : pstate) (l : list string) : pstate :=
  {| ns := ns st; extras := extras st ++ l;
     seen_actions := seen_actions st; positionals := positionals st |}.

Definition set_positionals (st : pstate) (ps : Parser) : pstate :=
  {| ns := ns st; extras := extras st;
     seen_actions := seen_actions st; positionals := ps |}.

(** [l.remove(x)] without the exception: drop the first occurrence. *)
Fixpoint remove_first (x : string) (l : list string) : list string :=
  match l with
  | [] => []
  | y :: l' => if String.eqb x y then l' else y :: remove_first x l'
  end.

Fixpoint rmap {A B} (f : A -> result B) (l : list A) : result (list B) :=
  match l with
  | [] => Ok []
  | x :: l' => rbind (f x) (fun y => rbind (rmap f l') (fun ys => Ok (y :: ys)))
  end.

Definition pystrings (vs : list pyval) : list string :=
  flat_map (fun v => match v with VStr s => [s] | _ => [] end) vs.

Section Engine.

(** The builtins [int] and [float] applied to a string; [None] when they
    raise [ValueError]. *)
Variable py_int : string -> option Z.
Variable py_float : string -> option float.

(** What the sub-parsers action does when called (a parser without
    sub-parsers never calls it). *)
Variable subparsers_call : Action -> list string -> Namespace -> result Namespace.

Definition get_value (a : Action) (arg_string : string) : result pyval :=
  match a_type a with
  | T_none => Ok (VStr arg_string)
  | T_int =>
      match py_int arg_string with
      | Some z => Ok (VInt z)
      | None => usage_error
      end
  | T_float =>
      match py_float arg_string with
      | Some f => Ok (VFloat f)
      | None => usage_error
      end
  end.

Definition check_value (a : Action) (v : pyval) : result unit :=
  match choices a with
  | None => Ok tt
  | Some cs =>
      match v with
      | VStr s => if existsb (String.eqb s) cs then Ok tt else usage_error
      | _ => usage_error
      end
  end.

Definition get_values (a : Action) (arg_strings : list string) : result pyval :=
  let arg_strings :=
    match a_nargs a with
    | N_parser => arg_strings
    | _ => remove_first "--" arg_strings
    end in
  match a_nargs a, arg_strings with
  | N_one, [arg_string] =>
      rbind (get_value a arg_string) (fun value =>
      rbind (check_value a value) (fun _ => Ok value))
  | N_parser, _ =>
      rbind (rmap (get_value a) arg_strings) (fun value =>
      match value with
      | v0 :: _ => rbind (check_value a v0) (fun _ => Ok (VList value))
      | [] => Raise (External "IndexError")
      end)
  | _, _ =>
      rbind (rmap (get_value a) arg_strings) (fun value =>
      rbind (rmap (check_value a) value) (fun _ => Ok (VList value)))
  end.

(** [action(self, namespace, values, option_string)]. *)
Definition call_action (a : Action) (values : pyval) (n : Namespace)
    : result Namespace :=
  match kind a with
  | K_store => Ok (<[dest a := values]> n)
  | K_store_true => Ok (<[dest a := VBool true]> n)
  | K_help => Raise (SystemExit 0)
  | K_parsers =>
      match values with
      | VList vs => subparsers_call a (pystrings vs) n
      | _ => Raise TypeError
      end
  end.

Definition take_action (a : Action) (argument_strings : list string)
    (st : pstate) : result pstate :=
  rbind (get_values a argument_strings) (fun argument_values =>
  rbind (call_action a argument_values (ns st)) (fun n =>
  Ok (with_ns st n (dest a)))).

Fixpoint take_actions (l : list (Action * list string)) (st : pstate)
    : result pstate :=
  match l with
  | [] => Ok st
  | (a, args) :: l' => rbind (take_action a args st) (take_actions l')
  end.

(** *** Consuming one optional *)

Abbreviation tokens := (list (string * tokclass)).

Definition pattern_of (rest : tokens) : list pchar :=
  map (fun t => pchar_of (snd t)) rest.

(** The option at the head of [rest] without an explicit argument: its
    arguments are the strings that follow.  The result is the action tuple and
    the number of argument strings taken. *)
Definition option_args (a : Action) (after : tokens)
    : result (list (Action * list string) * nat) :=
  rbind (match_argument a (pattern_of after)) (fun arg_count =>
  Ok ([(a, map fst (firstn arg_count after))], arg_count)).

(** The inner loop of [consume_optional] for an explicit argument
    ([--opt=value], or single-dash flags glued together). *)
Fixpoint explicit_args (P : Parser) (a : Action) (option_string : string)
    (explicit_arg : string) (after : tokens)
    : result (list (Action * list string) * nat) :=
  rbind (match_argument a [PA]) (fun arg_count =>
  if (arg_count =? 0)%nat
     && negb (is_dash (second_char option_string))
     && negb (String.eqb explicit_arg "")
  then
    match explicit_arg with
    | EmptyString => usage_error
    | String c new_explicit_arg =>
        let option_string := String "-" (String c EmptyString) in
        match assoc option_string (option_string_actions P) with
        | Some a' =>
            rbind
              (match new_explicit_arg with
               | EmptyString => option_args a' after
               | _ => explicit_args P a' option_string new_explicit_arg after
               end)
              (fun '(l, n) => Ok ((a, []) :: l, n))
        | None => usage_error       (* ignored explicit argument *)
        end
    end
  else if (arg_count =? 1)%nat then Ok ([(a, [explicit_arg])], O)
  else usage_error).                (* ignored explicit argument *)

(** [consume_optional]: [rest] starts at the option string.  Returns what is
    left after the option and its arguments. *)
Definition consume_optional (P : Parser) (rest : tokens) (st : pstate)
    : result (tokens * pstate) :=
  match rest with
  | (arg_string, C_O (OptTuple action option_string explicit_arg)) :: after =>
      match action with
      | None => Ok (after, add_extras st [arg_string])
      | Some a =>
          rbind
            (match explicit_arg with
             | Some e => explicit_args P a option_string e after
             | None => option_args a after
             end)
            (fun '(action_tuples, n) =>
             rbind (take_actions action_tuples st) (fun st' =>
             Ok (skipn n after, st')))
      end
  | _ => Ok (rest, st)
  end.

(** *** Consuming positionals *)

Fixpoint take_positionals (acts : Parser) (counts : list nat) (rest : tokens)
    (st : pstate) : result (tokens * pstate) :=
  match acts, counts with
  | a :: acts', n :: counts' =>
      rbind (take_action a (map fst (firstn n rest)) st) (fun st' =>
      take_positionals acts' counts' (skipn n rest) st')
  | _, _ => Ok (rest, st)
  end.

Definition consume_positionals (rest : tokens) (st : pstate)
    : result (tokens * pstate) :=
  let arg_counts := match_arguments_partial (positionals st) (pattern_of rest) in
  rbind (take_positionals (positionals st) arg_counts rest st) (fun '(rest', st') =>
  Ok (rest', set_positionals st' (skipn (length arg_counts) (positionals st')))).

(** *** The main loop of [_parse_known_args] *)

Definition has_option (rest : tokens) : bool :=
  existsb (fun t => is_option (snd t)) rest.

Definition not_option (t : string * tokclass) : bool := negb (is_option (snd t)).

Fixpoint take_while {A} (f : A -> bool) (l : list A) : list A :=
  match l with
  | x :: l' => if f x then x :: take_while f l' else []
  | [] => []
  end.

Fixpoint drop_while {A} (f : A -> bool) (l : list A) : list A :=
  match l with
  | x :: l' => if f x then drop_while f l' else l
  | [] => []
  end.

(** Positionals and optionals are consumed alternately while an option
    string lies ahead ([start_index <= max_option_string_index]).  Every
    iteration consumes at least one argument string, so [fuel] above the
    number of strings is never exhausted. *)
Fixpoint consume_loop (P : Parser) (fuel : nat) (rest : tokens) (st : pstate)
    : result (tokens * pstate) :=
  match fuel with
  | O => Ok (rest, st)
  | S fuel' =>
      if negb (has_option rest) then Ok (rest, st)
      else
        match rest with
        | (_, C_O _) :: _ =>
            (* start_index == next_option_string_index *)
            rbind (consume_optional P rest st) (fun '(rest', st') =>
            consume_loop P fuel' rest' st')
        | _ =>
            rbind (consume_positionals rest st) (fun '(rest1, st1) =>
            if (length rest1 <? length rest)%nat
            then consume_loop P fuel' rest1 st1
            else
              (* nothing could be parsed: the strings before the next
                 option are extra arguments *)
              let st2 := add_extras st1 (map fst (take_while not_option rest1)) in
              rbind (consume_optional P (drop_while not_option rest1) st2)
                (fun '(rest3, st3) => consume_loop P fuel' rest3 st3))
        end
  end.

(** The checks after the loop: required actions must have been seen; a
    string default that is still in place is converted with the action's
    type. *)
Fixpoint finish_actions (acts : Parser) (seen : list string) (n : Namespace)
    (missing : list string) : result (Namespace * list string) :=
  match acts with
  | [] => Ok (n, missing)
  | a :: acts' =>
      if existsb (String.eqb (dest a)) seen then finish_actions acts' seen n missing
      else if required a then finish_actions acts' seen n (missing ++ [dest a])
      else
        match default a, n !! dest a with
        | Some (VStr d), Some (VStr cur) =>
            if String.eqb d cur then
              rbind (get_value a d) (fun v =>
              finish_actions acts' seen (<[dest a := v]> n) missing)
            else finish_actions acts' seen n missing
        | _, _ => finish_actions acts' seen n missing
        end
  end.

Definition parse_known_args_inner (P : Parser) (arg_strings : list string)
    (n : Namespace) : result (Namespace * list string) :=
  rbind (classify P arg_strings) (fun cs =>
  let toks := combine arg_strings cs in
  let st0 := {| ns := n; extras := []; seen_actions := [];
                positionals := List.filter (fun a => negb (is_optional a)) P |} in
  rbind (consume_loop P (S (length toks)) toks st0) (fun '(rest, st) =>
  rbind (consume_positionals rest st) (fun '(rest', st') =>
  let extras' := extras st' ++ map fst rest' in
  rbind (finish_actions P (seen_actions st') (ns st') []) (fun '(n', missing) =>
  match missing with
  | [] => Ok (n', extras')
  | _ => usage_error        (* the following arguments are required *)
  end)))).

(** The namespace a parser starts from: every action's default. *)
Definition add_defaults (P : Parser) (n : Namespace) : Namespace :=
  fold_left
    (fun n a =>
       if String.eqb (dest a) SUPPRESS then n
       else match n !! dest a, default a with
            | None, Some d => <[dest a := d]> n
            | _, _ => n
            end)
    P n.

Definition parse_known_args (P : Parser) (args : list string)
    : result (Namespace * list string) :=
  rbind (parse_known_args_inner P args (add_defaults P ∅)) (fun '(n, extras) =>
  match n !! UNRECOGNIZED_ARGS_ATTR with
  | Some (VList l) => Ok (delete UNRECOGNIZED_ARGS_ATTR n, extras ++ pystrings l)
  | Some _ => Ok (delete UNRECOGNIZED_ARGS_ATTR n, extras)
  | None => Ok (n, extras)
  end).

Definition parse_args (P : Parser) (args : list string) : result Namespace :=
  rbind (parse_known_args P args) (fun '(n, argv) =>
  match argv with
  | [] => Ok n
  | _ => usage_error        (* unrecognized arguments *)
  end).

End Engine.

(** [_SubParsersAction.__call__]: record the sub-command, let its parser
    parse the remaining strings into a fresh namespace, copy that namespace
    over. *)
Definition subparsers_call (py_int : string -> option Z)
    (py_float : string -> option float)
    (name_parser_map : list (string * Parser))
    (self : Action) (values : list string) (n : Namespace) : result Namespace :=
  match values with
  | [] => Raise (External "IndexError")
  | parser_name :: arg_strings =>
      let n := if String.eqb (dest self) SUPPRESS then n
               else <[dest self := VStr parser_name]> n in
      match assoc parser_name name_parser_map with
      | None => usage_error
      | Some parser =>
          rbind (parse_known_args py_int py_float
                   (fun _ _ _ => usage_error) parser arg_strings)
            (fun '(subnamespace, arg_strings) =>
             let n := subnamespace ∪ n in
             match arg_strings with
             | [] => Ok n
             | _ =>
                 let old := match n !! UNRECOGNIZED_ARGS_ATTR with
                            | Some (VList l) => l
                            | _ => []
                            end in
                 Ok (<[UNRECOGNIZED_ARGS_ATTR := VList (old ++ map VStr arg_strings)]> n)
             end)
      end
  end.

End Argparse.

(* ===================================================================== *)
(** ** [posixpath.split] *)
(* ===================================================================== *)

Module Posixpath.

Fixpoint all_slashes (s : string) : bool :=
  match s with
  | EmptyString => true
  | String c s' => Ascii.eqb c "/" && all_slashes s'
  end.

(** [s.rstrip('/')]. *)
Fixpoint rstrip_slashes (s : string) : string :=
  match s with
  | EmptyString => EmptyString
  | String c s' =>
      match rstrip_slashes s' with
      | EmptyString => if Ascii.eqb c "/" then EmptyString else String c EmptyString
      | r => String c r
      end
  end.

(** [p.rfind('/') + 1]. *)
Fixpoint after_last_slash (p : string) : nat :=
  match p with
  | EmptyString => 0
  | String c p' =>
      match after_last_slash p' with
      | O => if Ascii.eqb c "/" then 1 else 0
      | S i => S (S i)
      end
  end.

(** [posixpath.split(p)]. *)
Definition split (p : string) : string * string :=
  let i := after_last_slash p in
  let head := substring 0 i p in
  let tail := substring i (String.length p - i) p in
  let head :=
    if negb (String.eqb head "") && negb (all_slashes head)
    then rstrip_slashes head else head in
  (head, tail).

End Posixpath.

(* ===================================================================== *)
(** ** The script: eval.py *)
(* ===================================================================== *)

Module Eval.
Import Py Argparse.

(** *** [parse_args] *)

(** [parser.add_argument('--flag', default=d, type=t)]. *)
Definition store_option (flag dest_ : string) (d : pyval) (t : pytype) : Action :=
  {| option_strings := [flag]; dest := dest_; a_nargs := N_one; kind := K_store;
     default := Some d; a_type := t; choices := None; required := false |}.

(** [parser.add_argument('--flag', action='store_true')]. *)
Definition store_true_option (flag dest_ : string) : Action :=
  {| option_strings := [flag]; dest := dest_; a_nargs := N_zero;
     kind := K_store_true; default := Some (VBool false); a_type := T_none;
     choices := None; required := false |}.

(** [parser.add_argument('name')]: a required positional. *)
Definition positional (name : string) : Action :=
  {| option_strings := []; dest := name; a_nargs := N_one; kind := K_store;
     default := Some VNone; a_type := T_none; choices := None; required := true |}.

(** The [-h/--help] action every [ArgumentParser] is created with. *)
Definition help_action : Action :=
  {| option_strings := ["-h"; "--help"]; dest := SUPPRESS; a_nargs := N_zero;
     kind := K_help; default := None; a_type := T_none; choices := None;
     required := false |}.

(** [subparsers.add_parser('onthefly')] with its [annotations] positional. *)
Definition otf_parser : Parser :=
  [ help_action; positional "annotations" ].

(** [parser.add_subparsers(dest='dataset_type')], [required = True]. *)
Definition subparsers : Action :=
  {| option_strings := []; dest := "dataset_type"; a_nargs := N_parser;
     kind := K_parsers; default := Some VNone; a_type := T_none;
     choices := Some ["onthefly"]; required := true |}.

Definition name_parser_map : list (string * Parser) :=
  [ ("onthefly", otf_parser) ].

(** The actions of [parser], in the order eval.py adds them. *)
Definition parser : Parser :=
  [ help_action;
    store_option "--batch-size" "batch_size" (VInt 1) T_int;
    subparsers;
    positional "model";
    store_true_option "--convert-model" "convert_model";
    store_option "--backbone" "backbone" (VStr "resnet50") T_none;
    store_option "--gpu" "gpu" VNone T_none;
    store_option "--score-threshold" "score_threshold" (VFloat 0.05) T_float;
    store_option "--iou-threshold" "iou_threshold" (VFloat 0.5) T_float;
    store_option "--max-detections" "max_detections" (VInt 100) T_int;
    store_option "--suppression-threshold" "suppression_threshold" (VFloat 0.2) T_float;
    store_option "--save-path" "save_path" VNone T_none;
    store_option "--image-min-side" "image_min_side" (VInt 800) T_int;
    store_option "--image-max-side" "image_max_side" (VInt 1333) T_int ].

Section ParseArgs.

Variable py_int : string -> option Z.
Variable py_float : string -> option float.

(** [parse_args(args)]: [parser.parse_args(args)]. *)
Definition parse_args (args : list string) : result Namespace :=
  Argparse.parse_args py_int py_float
    (subparsers_call py_int py_float name_parser_map) parser args.

End ParseArgs.

(** *** Effects of the script *)

(** The delegated calls, with the arguments the script passes. *)
Record session : Type := { allow_growth : bool }.

Inductive call : Type :=
| C_check_keras_version
| C_set_session (s : session)
| C_split_training (annotations single_tile : pyval)
| C_load_model (path backbone_name convert : pyval)
| C_summary
| C_evaluate (iou_threshold score_threshold max_detections save_path : pyval)
| C_Jaccard (score_threshold save_path : pyval)
| C_neonRecall (site : string) (score_threshold save_path : pyval).

(** What the script does to the outside, in order. *)
Inductive event : Type :=
| E_print (line : string)
| E_log_parameter (name : string) (value : pyval)     (* experiment.log_parameter *)
| E_log_metric (name : string) (value : pyval)        (* experiment.log_metric *)
| E_setenv (name value : string)                      (* os.environ[name] = value *)
| E_makedirs (path : string)                          (* a directory made by os.makedirs *)
| E_call (c : call).

Record state : Type := {
  environ : gmap string string;     (* os.environ *)
  fs : gset string;                 (* the paths that exist *)
  trace : list event
}.

Definition M (A : Type) : Type := state -> result A * state.

Definition ret {A} (a : A) : M A := fun st => (Ok a, st).

Definition bind {A B} (m : M A) (k : A -> M B) : M B :=
  fun st =>
    match m st with
    | (Ok a, st') => k a st'
    | (Raise e, st') => (Raise e, st')
    end.

Notation "x <- m ;; k" := (bind m (fun x => k))
  (at level 100, m at next level, right associativity).
Notation "m ;; k" := (bind m (fun _ => k))
  (at level 100, right associativity).

Definition lift {A} (r : result A) : M A := fun st => (r, st).

Definition emit (e : event) : M unit :=
  fun st => (Ok tt, {| environ := environ st; fs := fs st; trace := trace st ++ [e] |}).

Definition print (line : string) : M unit := emit (E_print line).
Definition log_parameter (name : string) (v : pyval) : M unit := emit (E_log_parameter name v).
Definition log_metric (name : string) (v : pyval) : M unit := emit (E_log_metric name v).

(** A delegated call: recorded, then its outcome. *)
Definition delegate {A} (c : call) (r : result A) : M A := emit (E_call c) ;; lift r.

Fixpoint has_char (c : ascii) (s : string) : bool :=
  match s with
  | EmptyString => false
  | String c' s' => Ascii.eqb c' c || has_char c s'
  end.

(** The character NUL. *)
Definition NUL : ascii := Ascii.zero.

(** [os.environ[name] = value]: strings without NUL, the name not empty
    and without ['=']; anything else is refused and nothing assigned. *)
Definition setenv (name : string) (value : pyval) : M unit :=
  match value with
  | VStr v =>
      if has_char NUL name || has_char NUL v || has_char "=" name
      then lift (Raise ValueError)
      else if String.eqb name "" then lift (Raise (External "OSError"))
      else
        fun st => (Ok tt, {| environ := <[name := v]> (environ st); fs := fs st;
                             trace := trace st ++ [E_setenv name v] |})
  | _ => lift (Raise TypeError)
  end.

(** [os.path.exists(path)]. *)
Definition path_exists (path : string) : M bool :=
  fun st => (Ok (bool_decide (path ∈ fs st)), st).

(** [os.mkdir(path)]: the operating system makes the directory or refuses;
    [os_mkdir files path] is its answer when the paths [files] exist. *)
Definition mkdir (os_mkdir : gset string -> string -> result unit) (path : string)
    : M unit :=
  fun st =>
    match os_mkdir (fs st) path with
    | Ok _ => (Ok tt, {| environ := environ st; fs := {[ path ]} ∪ fs st;
                         trace := trace st ++ [E_makedirs path] |})
    | Raise e => (Raise e, st)
    end.

(** [try: m] [except FileExistsError: pass]. *)
Definition pass_FileExistsError (m : M unit) : M unit :=
  fun st =>
    match m st with
    | (Raise FileExistsError, st') => (Ok tt, st')
    | r => r
    end.

(** [os.makedirs(name)], of which the interpreter allows [depth] nested
    calls: the missing directories above [name] are made first. *)
Fixpoint makedirs (os_mkdir : gset string -> string -> result unit) (depth : nat)
    (name : string) : M unit :=
  match depth with
  | O => lift (Raise RecursionError)
  | S depth' =>
      let '(head, tail) := Posixpath.split name in
      let '(head, tail) :=
        if String.eqb tail "" then Posixpath.split head else (head, tail) in
      done <- (if negb (String.eqb head "") && negb (String.eqb tail "") then
                 e <- path_exists head ;;
                 if negb e then
                   pass_FileExistsError (makedirs os_mkdir depth' head) ;;
                   ret (String.eqb tail ".")
                 else ret false
               else ret false) ;;
      if (done : bool) then ret tt else mkdir os_mkdir name
  end.

(** *** Data of the external components *)

Abbreviation Config := (gmap string pyval).

(** [config[key]]. *)
Definition getitem (config : Config) (key : string) : result pyval :=
  match config !! key with
  | Some v => Ok v
  | None => Raise (KeyError key)
  end.

(** [args.name] on a parsed namespace. *)
Definition getattr (args : Namespace) (name : string) : pyval :=
  match args !! name with
  | Some v => v
  | None => VNone
  end.

(** One row of the annotation table: an image, a class label, a box. *)
Record annotation : Type := {
  image_path : string;
  label_name : string;
  box : Z * Z * Z * Z
}.

Abbreviation DataFrame := (list annotation).

(** The generator object: what [OnTheFlyGenerator(...)] was constructed
    with. *)
Record OnTheFlyGenerator : Type := {
  csv_data_file : pyval;
  data : DataFrame;
  batch_size : pyval;
  base_dir : pyval;
  gen_config : Config;
  group_method : string;
  shuffle_groups : bool
}.

(** The module [preprocess], of which the script uses [split_training]. *)
Record preprocess_module : Type := {
  split_training : pyval -> Config -> pyval -> result (DataFrame * DataFrame)
}.

(** The module-level names set by the [__main__] block that the functions
    read as globals. *)
Record Globals : Type := {
  DeepForest_config : Config;
  site : string;
  preprocess : preprocess_module
}.

Section Script.

(** The loaded model is opaque. *)
Variable Model : Type.

(** The libraries the script delegates to, as functions of the arguments it
    passes, and the process inputs.  A delegated call either returns or
    raises; [label_to_name] is only asked for the labels the evaluator took
    from the generator itself and always answers.  Printing and the
    experiment logger are taken to succeed.  [os_mkdir] is the operating
    system's answer to [os.mkdir], and [recursion_limit] the number of
    nested calls the interpreter allows [os.makedirs]. *)
Record Externals : Type := {
  sys_argv : list string;
  py_int : string -> option Z;
  py_float : string -> option float;
  datetime_now : datetime;
  os_mkdir : gset string -> string -> result unit;
  recursion_limit : nat;
  check_keras_version : result unit;
  load_model : pyval -> pyval -> pyval -> result Model;
  summary : Model -> result pyval;
  str : pyval -> string;
  evaluate : OnTheFlyGenerator -> Model -> pyval -> pyval -> pyval -> pyval
             -> result (list (Z * (float * Z)));
  label_to_name : OnTheFlyGenerator -> Z -> string;
  annotation_dict : OnTheFlyGenerator -> list (string * list annotation);
  Jaccard : OnTheFlyGenerator -> Model -> pyval -> pyval -> Config -> result float;
  neonRecall : string -> OnTheFlyGenerator -> Model -> pyval -> pyval -> Config
               -> result float
}.

Variable G : Globals.
Variable X : Externals.

(** [get_session()]. *)
Definition get_session : session := {| allow_growth := true |}.

(** [create_generator(args, config)].  The body reads the globals
    [DeepForest_config] and [preprocess]; [config] is not used. *)
Definition create_generator (args : Namespace) (config : Config)
    : M OnTheFlyGenerator :=
  single_tile <- lift (getitem (DeepForest_config G) "single_tile") ;;
  split <- delegate (C_split_training (getattr args "annotations") single_tile)
             (split_training (preprocess G) (getattr args "annotations")
                (DeepForest_config G) single_tile) ;;
  let test := snd split in
  rgb_tile_dir <- lift (getitem (DeepForest_config G) "rgb_tile_dir") ;;
  let generator :=
    {| csv_data_file := getattr args "annotations";
       data := test;
       batch_size := getattr args "batch_size";
       base_dir := rgb_tile_dir;
       gen_config := DeepForest_config G;
       group_method := "none";
       shuffle_groups := false |} in
  ret generator.

(** What the later lines of [main] use. *)
Record context : Type := {
  c_args : Namespace;
  c_dirname : string;
  c_generator : OnTheFlyGenerator;
  c_model : Model
}.

(** [main], lines 100-129: arguments, device, output directory, generator,
    model. *)
Definition main_setup (DeepForest_config : Config) (args : option (list string))
    : M context :=
  let args := match args with
              | None => tl (sys_argv X)
              | Some a => a
              end in
  args <- lift (parse_args (py_int X) (py_float X) args) ;;
  delegate C_check_keras_version (check_keras_version X) ;;
  (if truthy (getattr args "gpu")
   then setenv "CUDA_VISIBLE_DEVICES" (getattr args "gpu")
   else ret tt) ;;
  delegate (C_set_session get_session) (Ok tt) ;;
  let dirname := strftime_Ymd_HMS (datetime_now X) in
  log_parameter "Start Time" (VStr dirname) ;;
  (if negb (is_none (getattr args "save_path")) then
     path <- lift (py_add (getattr args "save_path") (VStr dirname)) ;;
     match path with
     | VStr p =>
         e <- path_exists p ;;
         if negb e then makedirs (os_mkdir X) (recursion_limit X) p else ret tt
     | _ => lift (Raise TypeError)
     end
   else ret tt) ;;
  generator <- create_generator args DeepForest_config ;;
  print "Loading model, this may take a second..." ;;
  model <- delegate (C_load_model (getattr args "model") (getattr args "backbone")
                       (getattr args "convert_model"))
             (load_model X (getattr args "model") (getattr args "backbone")
                (getattr args "convert_model")) ;;
  s <- delegate C_summary (summary X model) ;;
  print (str X s) ;;
  ret {| c_args := args; c_dirname := dirname; c_generator := generator;
         c_model := model |}.

(** [main], lines 131-138: the evaluation pass. *)
Definition main_evaluate (c : context) : M (list (Z * (float * Z))) :=
  let args := c_args c in
  save_path <- lift (py_add (getattr args "save_path") (VStr (c_dirname c))) ;;
  delegate (C_evaluate (getattr args "iou_threshold") (getattr args "score_threshold")
              (getattr args "max_detections") save_path)
    (evaluate X (c_generator c) (c_model c) (getattr args "iou_threshold")
       (getattr args "score_threshold") (getattr args "max_detections") save_path).

(** The loop of lines 143-148 over [average_precisions.items()], threading
    [present_classes] and [precision]. *)
Fixpoint average_loop (generator : OnTheFlyGenerator)
    (items : list (Z * (float * Z))) (present_classes : Z) (precision : pyval)
    : M (Z * pyval) :=
  match items with
  | [] => ret (present_classes, precision)
  | (label, (average_precision, num_annotations)) :: items' =>
      print (print_line
               [ (format_f 0 (float_of_Z num_annotations) ++ " instances of class")%string;
                 label_to_name X generator label;
                 ("with average precision: " ++ format_f 4 average_precision)%string ]) ;;
      if 0 <? num_annotations then
        precision' <- lift (py_add precision (VFloat average_precision)) ;;
        average_loop generator items' (present_classes + 1) precision'
      else average_loop generator items' present_classes precision
  end.

(** ['{:.nf}'.format(v)] on the outcome of a division. *)
Definition format_value (n : nat) (v : pyval) : result string :=
  match as_number v with
  | Some x => Ok (format_f n (to_float x))
  | None => Raise TypeError
  end.

(** [main], lines 141-150: mean average precision. *)
Definition main_mAP (c : context) (average_precisions : list (Z * (float * Z)))
    : M unit :=
  r <- average_loop (c_generator c) average_precisions 0 (VInt 0) ;;
  let '(present_classes, precision) := r in
  q <- lift (py_truediv precision (VInt present_classes)) ;;
  t <- lift (format_value 4 q) ;;
  print ("mAP: " ++ t)%string ;;
  q <- lift (py_truediv precision (VInt present_classes)) ;;
  log_metric "mAP" q.

(** [main], lines 152-166: ground truth comparison, for one site only. *)
Definition main_iou (DeepForest_config : Config) (c : context) : M unit :=
  if String.eqb (site G) "OSBS" then
    let args := c_args c in
    jaccard <- delegate (C_Jaccard (getattr args "score_threshold") (getattr args "save_path"))
                 (Jaccard X (c_generator c) (c_model c) (getattr args "score_threshold")
                    (getattr args "save_path") DeepForest_config) ;;
    print (" Mean IoU: " ++ format_f 2 jaccard)%string ;;
    log_metric "Mean IoU" (VFloat jaccard)
  else ret tt.

(** [main], lines 168-181: plot recall. *)
Definition main_recall (DeepForest_config : Config) (c : context) : M unit :=
  let args := c_args c in
  recall <- delegate (C_neonRecall (site G) (getattr args "score_threshold")
                        (getattr args "save_path"))
              (neonRecall X (site G) (c_generator c) (c_model c)
                 (getattr args "score_threshold") (getattr args "save_path")
                 DeepForest_config) ;;
  log_metric "Recall" (VFloat recall) ;;
  print (" Recall: " ++ format_f 2 recall)%string.

(** [main], lines 183-185: the number of annotated trees per image. *)
Definition main_ntrees (c : context) : M unit :=
  let ntrees :=
    map (fun x => VInt (Z.of_nat (length (snd x)))) (annotation_dict X (c_generator c)) in
  log_parameter "Number of Trees" (VList ntrees).

(** [main(DeepForest_config, experiment, args=None)]. *)
Definition main (DeepForest_config : Config) (args : option (list string)) : M unit :=
  c <- main_setup DeepForest_config args ;;
  average_precisions <- main_evaluate c ;;
  main_mAP c average_precisions ;;
  main_iou DeepForest_config c ;;
  main_recall DeepForest_config c ;;
  main_ntrees c.

End Script.

Arguments c_args {Model} _.
Arguments c_dirname {Model} _.
Arguments c_generator {Model} _.
Arguments c_model {Model} _.

(** The process as it starts. *)
Definition initial_state (env : gmap string string) (files : gset string) : state :=
  {| environ := env; fs := files; trace := [] |}.

(** The exit status of the interpreter for the outcome of [main]. *)
Definition exit_status (r : result unit) : Z :=
  match r with
  | Ok _ => 0
  | Raise (SystemExit code) => code
  | Raise _ => 1
  end.

End Eval.

(* ===================================================================== *)
(** ** The batch order of the generator *)
(* ===================================================================== *)

Module OnTheFlyGeneratorModel.
Import Py Eval.

Section Batches.

(** [random.shuffle] under a given state of the random number generator. *)
Variable shuffle : forall A : Type, Z -> list A -> list A.

Fixpoint image_names (seen : list string) (d : DataFrame) : list string :=
  match d with
  | [] => []
  | a :: d' =>
      if existsb (String.eqb (image_path a)) seen then image_names seen d'
      else image_path a :: image_names (image_path a :: seen) d'
  end.

Fixpoint chunks {A} (fuel n : nat) (l : list A) : list (list A) :=
  match fuel, l with
  | S fuel', _ :: _ => firstn n l :: chunks fuel' n (skipn n l)
  | _, _ => []
  end.

Definition batch_size_nat (g : OnTheFlyGenerator) : nat :=
  match batch_size g with
  | VInt z => Z.to_nat z
  | _ => O
  end.

(** Modelled from the spec: the class [OnTheFlyGenerator]
    (DeepForest/onthefly_generator.py) is not among the sources.  The spec
    describes the generator as "an iterable, restartable, finite sequence of
    (image batch, annotation batch) pairs drawn from the test partition",
    which with "grouping disabled and shuffling disabled" runs in
    "deterministic, sequential order".  Here: the images of the test
    partition in order of first appearance, cut into groups of [batch_size];
    a grouping method other than ["none"] reorders the images and
    [shuffle_groups] reorders the groups, both by the random state. *)
Definition batches (random_state : Z) (g : OnTheFlyGenerator)
    : list (list (string * list annotation)) :=
  let images := image_names [] (data g) in
  let order :=
    if String.eqb (group_method g) "none" then images
    else shuffle _ random_state images in
  let groups := chunks (length order) (batch_size_nat g) order in
  let groups := if shuffle_groups g then shuffle _ (random_state + 1) groups else groups in
  map (map (fun i =>
         (i, List.filter (fun a => String.eqb (image_path a) i) (data g)))) groups.

End Batches.

End OnTheFlyGeneratorModel.

(* ===================================================================== *)
(** ** Paths *)
(* ===================================================================== *)

Module Paths.

(** The components of a path between ['/'] separators. *)
Fixpoint split_path (p : string) : list string :=
  match p with
  | EmptyString => [EmptyString]
  | String c p' =>
      if Ascii.eqb c "/" then EmptyString :: split_path p'
      else match split_path p' with
           | h :: t => String c h :: t
           | [] => [String c EmptyString]
           end
  end.

Definition path_parts (p : string) : list string :=
  List.filter (fun s => negb (String.eqb s "")) (split_path p).

Fixpoint no_slash (p : string) : bool :=
  match p with
  | EmptyString => true
  | String c p' => negb (Ascii.eqb c "/") && no_slash p'
  end.

(** [child] names an entry directly inside the directory [parent]. *)
Definition is_subdirectory (child parent : string) : bool :=
  match rev (path_parts child) with
  | _ :: r => bool_decide (rev r = path_parts parent)
  | [] => false
  end.

End Paths.

(* ===================================================================== *)
(** ** Concrete runs *)
(* ===================================================================== *)

Module Examples.
Import Py Argparse Eval.

(** Decimal integers, enough of [int] for the examples. *)
Fixpoint digits_value (s : string) (acc : Z) : option Z :=
  match s with
  | EmptyString => Some acc
  | String c s' =>
      if is_digit c
      then digits_value s' (10 * acc + Z.of_nat (nat_of_ascii c) - 48)
      else None
  end.

Definition int_of_string (s : string) : option Z :=
  match s with
  | EmptyString => None
  | _ => digits_value s 0
  end.

(** A few literals, enough of [float] for the examples. *)
Definition float_of_string (s : string) : option float :=
  if String.eqb s "0.5" then Some 0.5%float
  else if String.eqb s "0.25" then Some 0.25%float
  else None.

Definition the_config : Config :=
  {[ "single_tile" := VBool false; "rgb_tile_dir" := VStr "data/OSBS/" ]}.

Definition other_config : Config :=
  {[ "single_tile" := VBool true; "rgb_tile_dir" := VStr "elsewhere/" ]}.

Definition rows : DataFrame :=
  [ {| image_path := "a.tif"; label_name := "Tree"; box := (0, 0, 10, 10) |};
    {| image_path := "a.tif"; label_name := "Tree"; box := (5, 5, 20, 20) |};
    {| image_path := "b.tif"; label_name := "Tree"; box := (1, 1, 4, 4) |} ].

Definition the_preprocess : preprocess_module :=
  {| split_training := fun _ _ _ => Ok ([], rows) |}.

Definition globals_at (s : string) : Globals :=
  {| DeepForest_config := the_config; site := s; preprocess := the_preprocess |}.

(** The result mapping [{A: (0.8, 10), B: (0.0, 0), C: (0.4, 5)}]. *)
Definition three_classes : list (Z * (float * Z)) :=
  [ (0, (0.8%float, 10)); (1, (0%float, 0)); (2, (0.4%float, 5)) ].

Definition no_instances : list (Z * (float * Z)) :=
  [ (0, (0%float, 0)); (1, (0%float, 0)) ].

Definition class_name (l : Z) : string :=
  if l =? 0 then "A" else if l =? 1 then "B" else "C".

(** A file system of writable directories: a new directory is made where
    the directory above it exists. *)
Definition plain_mkdir (files : gset string) (path : string) : result unit :=
  if bool_decide (path ∈ files) then Raise FileExistsError
  else
    let head := fst (Posixpath.split path) in
    if String.eqb head "" || bool_decide (head ∈ files) then Ok tt
    else Raise (External "FileNotFoundError").

(** A world in which every delegated call returns. *)
Definition world (argv : list string) (aps : list (Z * (float * Z)))
    : Externals unit :=
  {| sys_argv := "eval.py" :: argv;
     py_int := int_of_string;
     py_float := float_of_string;
     datetime_now := {| year := 2019; month := 3; day := 7;
                        hour := 14; minute := 5; second := 9 |};
     os_mkdir := plain_mkdir;
     recursion_limit := 1000;
     check_keras_version := Ok tt;
     load_model := fun _ _ _ => Ok tt;
     summary := fun _ => Ok VNone;
     str := fun _ => "None";
     evaluate := fun _ _ _ _ _ _ => Ok aps;
     label_to_name := fun _ l => class_name l;
     annotation_dict := fun g =>
       [ ("a.tif", firstn 2 (data g)); ("b.tif", skipn 2 (data g)) ];
     Jaccard := fun _ _ _ _ _ => Ok 0.25%float;
     neonRecall := fun _ _ _ _ _ _ => Ok 0.5%float |}.

Definition argv_plain : list string :=
  [ "onthefly"; "ann.csv"; "model.h5" ].

Definition argv_save : list string :=
  [ "--save-path"; "out/"; "onthefly"; "ann.csv"; "model.h5" ].

Definition argv_save_noslash : list string :=
  [ "--save-path"; "out"; "onthefly"; "ann.csv"; "model.h5" ].

Definition argv_gpu : list string :=
  [ "--gpu"; "1"; "--save-path"; "out/"; "onthefly"; "ann.csv"; "model.h5" ].

Definition argv_gpu_empty : list string :=
  [ "--gpu"; ""; "--save-path"; "out/"; "onthefly"; "ann.csv"; "model.h5" ].

Definition start : state := initial_state ∅ ∅.

Definition the_generator : OnTheFlyGenerator :=
  {| csv_data_file := VStr "ann.csv"; data := rows; batch_size := VInt 1;
     base_dir := VStr "data/OSBS/"; gen_config := the_config;
     group_method := "none"; shuffle_groups := false |}.

Definition the_context : context unit :=
  {| c_args := ∅; c_dirname := "20190307_140509";
     c_generator := the_generator; c_model := tt |}.

(** A complete run at a given site. *)
Definition run (argv : list string) (aps : list (Z * (float * Z))) (s : string)
    : result unit * state :=
  main unit (globals_at s) (world argv aps) other_config None start.

End Examples.

(* ===================================================================== *)
(** ** Vocabulary of the properties *)
(* ===================================================================== *)

Module Spec.
Import Py Argparse Eval.

(** The environment and the file system after a sequence of events. *)
Definition apply_env (env : gmap string string) (e : event) : gmap string string :=
  match e with
  | E_setenv k v => <[k := v]> env
  | _ => env
  end.

Definition replay_env (env : gmap string string) (l : list event) : gmap string string :=
  fold_left apply_env l env.

Definition apply_fs (f : gset string) (e : event) : gset string :=
  match e with
  | E_makedirs p => {[ p ]} ∪ f
  | _ => f
  end.

Definition replay_fs (f : gset string) (l : list event) : gset string :=
  fold_left apply_fs l f.

(** [m] only appends events, all of which satisfy [P], and changes the
    environment and the file system only as these events say. *)
Definition emits {A} (P : event -> Prop) (m : M A) : Prop :=
  forall st, exists l,
    trace (snd (m st)) = trace st ++ l
    /\ Forall P l
    /\ environ (snd (m st)) = replay_env (environ st) l
    /\ fs (snd (m st)) = replay_fs (fs st) l.

(** The state [st] with the events [l] appended. *)
Definition logged (st : state) (l : list event) : state :=
  {| environ := environ st; fs := fs st; trace := trace st ++ l |}.

Definition is_metric (name : string) (e : event) : Prop :=
  exists v, e = E_log_metric name v.

Definition is_Jaccard_call (e : event) : Prop :=
  exists a b, e = E_call (C_Jaccard a b).

Definition is_setenv (e : event) : Prop :=
  exists k v, e = E_setenv k v.

Definition is_evaluate_call (e : event) : Prop :=
  exists a b c d, e = E_call (C_evaluate a b c d).

Definition is_makedirs (e : event) : Prop :=
  exists p, e = E_makedirs p.

(** The backend session is configured, or the model is loaded. *)
Definition uses_device (e : event) : Prop :=
  (exists s, e = E_call (C_set_session s))
  \/ (exists a b c, e = E_call (C_load_model a b c)).

(** The classes with at least one annotated instance, in the order of the
    mapping. *)
Definition present (aps : list (Z * (float * Z))) : list (Z * (float * Z)) :=
  List.filter (fun x => 0 <? snd (snd x)) aps.

(** The binary64 sum of the average precisions of [l], added one by one from
    the left to [acc]. *)
Definition sum_from (acc : float) (l : list (Z * (float * Z))) : float :=
  fold_left (fun s x => (s + fst (snd x))%float) l acc.

(** The unweighted mean of the average precisions of the present classes. *)
Definition mean_average_precision (aps : list (Z * (float * Z))) : float :=
  (sum_from (float_of_Z 0) (present aps)
   / float_of_Z (Z.of_nat (length (present aps))))%float.

(** The line printed for one class. *)
Definition class_line {Model} (X : Externals Model) (g : OnTheFlyGenerator)
    (x : Z * (float * Z)) : string :=
  print_line
    [ (format_f 0 (float_of_Z (snd (snd x))) ++ " instances of class")%string;
      label_to_name Model X g (fst x);
      ("with average precision: " ++ format_f 4 (fst (snd x)))%string ].

Definition ends_with_slash (p : string) : Prop :=
  exists q, p = (q ++ "/")%string.


End Spec.

(* ===================================================================== *)
(** ** Vocabulary of whole runs *)

Module Run.
Import Py Argparse Eval Spec.

(** The argument strings [main] parses. *)
Definition argv_of {Model} (X : Externals Model) (args : option (list string))
    : list string :=
  match args with
  | None => tl (sys_argv Model X)
  | Some a => a
  end.

(** The state [st] after the events [l]. *)
Definition applied (st : state) (l : list event) : state :=
  {| environ := replay_env (environ st) l;
     fs := replay_fs (fs st) l;
     trace := trace st ++ l |}.

(** A computation that reads and changes the file system alone: from any
    state it does what it does from the same files with nothing else. *)
Definition fs_only {A} (m : M A) : Prop :=
  forall st,
    m st = (fst (m (initial_state ∅ (fs st))),
            applied st (trace (snd (m (initial_state ∅ (fs st)))))).

(** The names of the metrics logged, in order. *)
Definition metric_names (l : list event) : list string :=
  flat_map (fun e => match e with E_log_metric name _ => [name] | _ => [] end) l.

(** The metrics of a complete run. *)
Definition expected_metrics (site : string) : list string :=
  "mAP" :: (if String.eqb site "OSBS" then ["Mean IoU"] else []) ++ ["Recall"].

(** The directories made, in order. *)
Definition made (l : list event) : list string :=
  flat_map (fun e => match e with E_makedirs p => [p] | _ => [] end) l.

(** The assignment made for a non-empty GPU id. *)
Definition gpu_events (n : Namespace) : list event :=
  match getattr n "gpu" with
  | VStr id => if String.eqb id "" then [] else [E_setenv "CUDA_VISIBLE_DEVICES" id]
  | _ => []
  end.

(** The GPU id can be assigned to an environment variable. *)
Definition gpu_ok (n : Namespace) : bool :=
  match getattr n "gpu" with
  | VStr id => negb (has_char NUL id)
  | _ => true
  end.

(** [os.makedirs(dir)] where the paths [files] exist. *)
Definition makedirs_on {Model} (X : Externals Model) (files : gset string)
    (dir : string) : result unit * state :=
  makedirs (os_mkdir Model X) (recursion_limit Model X) dir (initial_state ∅ files).

(** How lines 119-120 end for the run directory [dir]. *)
Definition directory_made {Model} (X : Externals Model) (files : gset string)
    (dir : string) : result unit :=
  if bool_decide (dir ∈ files) then Ok tt else fst (makedirs_on X files dir).

(** The directory is made unless it exists, after the missing directories
    above it. *)
Definition directory_events {Model} (X : Externals Model) (files : gset string)
    (dir : string) : list event :=
  if bool_decide (dir ∈ files) then [] else trace (snd (makedirs_on X files dir)).

Section Events.

Context {Model : Type} (G : Globals) (X : Externals Model).
Variables (n : Namespace) (sp : string) (single_tile : pyval)
          (g : OnTheFlyGenerator).

(** [args.save_path + dirname]. *)
Definition run_directory : string :=
  (sp ++ strftime_Ymd_HMS (datetime_now Model X))%string.

(** The events before the output directory. *)
Definition start_events : list event :=
  [E_call C_check_keras_version]
  ++ gpu_events n
  ++ [E_call (C_set_session get_session);
      E_log_parameter "Start Time" (VStr (strftime_Ymd_HMS (datetime_now Model X)))].

(** The events up to the call of the model loader. *)
Definition load_events (files : gset string) : list event :=
  start_events
  ++ directory_events X files run_directory
  ++ [E_call (C_split_training (getattr n "annotations") single_tile);
      E_print "Loading model, this may take a second...";
      E_call (C_load_model (getattr n "model") (getattr n "backbone")
                (getattr n "convert_model"))].

Definition summary_events (s : pyval) : list event :=
  [E_call C_summary; E_print (str Model X s)].

Definition evaluate_events : list event :=
  [E_call (C_evaluate (getattr n "iou_threshold") (getattr n "score_threshold")
             (getattr n "max_detections") (VStr run_directory))].

Definition mAP_events (aps : list (Z * (float * Z))) : list event :=
  map (fun x => E_print (class_line X g x)) aps
  ++ [E_print ("mAP: " ++ format_f 4 (mean_average_precision aps));
      E_log_metric "mAP" (VFloat (mean_average_precision aps))].

Definition iou_events (j : float) : list event :=
  if String.eqb (site G) "OSBS" then
    [E_call (C_Jaccard (getattr n "score_threshold") (getattr n "save_path"));
     E_print (" Mean IoU: " ++ format_f 2 j);
     E_log_metric "Mean IoU" (VFloat j)]
  else [].

Definition recall_events (recall : float) : list event :=
  [E_call (C_neonRecall (site G) (getattr n "score_threshold") (getattr n "save_path"));
   E_log_metric "Recall" (VFloat recall);
   E_print (" Recall: " ++ format_f 2 recall);
   E_log_parameter "Number of Trees"
     (VList (map (fun x => VInt (Z.of_nat (length (snd x))))
               (annotation_dict Model X g)))].

End Events.

(** *** Concrete runs *)

(** The namespace of a command line that parses. *)
Definition parsed (argv : list string) : Namespace :=
  match parse_args Examples.int_of_string Examples.float_of_string argv with
  | Ok n => n
  | Raise _ => ∅
  end.

(** A world in which the model cannot be loaded. *)
Definition no_model (argv : list string) : Externals unit :=
  let w := Examples.world argv Examples.three_classes in
  {| sys_argv := sys_argv unit w;
     py_int := py_int unit w;
     py_float := py_float unit w;
     datetime_now := datetime_now unit w;
     os_mkdir := os_mkdir unit w;
     recursion_limit := recursion_limit unit w;
     check_keras_version := check_keras_version unit w;
     load_model := fun _ _ _ => Raise (External "OSError");
     summary := summary unit w;
     str := str unit w;
     evaluate := evaluate unit w;
     label_to_name := label_to_name unit w;
     annotation_dict := annotation_dict unit w;
     Jaccard := Jaccard unit w;
     neonRecall := neonRecall unit w |}.

(** A world in which no directory can be made. *)
Definition read_only (argv : list string) : Externals unit :=
  let w := Examples.world argv Examples.three_classes in
  {| sys_argv := sys_argv unit w;
     py_int := py_int unit w;
     py_float := py_float unit w;
     datetime_now := datetime_now unit w;
     os_mkdir := fun _ _ => Raise (External "PermissionError");
     recursion_limit := recursion_limit unit w;
     check_keras_version := check_keras_version unit w;
     load_model := load_model unit w;
     summary := summary unit w;
     str := str unit w;
     evaluate := evaluate unit w;
     label_to_name := label_to_name unit w;
     annotation_dict := annotation_dict unit w;
     Jaccard := Jaccard unit w;
     neonRecall := neonRecall unit w |}.

End Run.
(** ** Vocabulary of the command line *)

Module CommandLine.
Import Py Argparse Eval.

(** The parser exits with status 2 (usage) or 0 (help); it never fails in
    another way. *)
Definition exits (e : exn) : Prop := e = SystemExit 2 \/ e = SystemExit 0.


(** A result that satisfies [Q], or an exception that satisfies [ex]. *)
Definition outcome_in {A} (ex : exn -> Prop) (Q : A -> Prop) (r : result A)
    : Prop :=
  match r with
  | Ok x => Q x
  | Raise e => ex e
  end.

(** A result that satisfies [Q], or an exit of the parser. *)
Definition outcome {A} (Q : A -> Prop) (r : result A) : Prop :=
  outcome_in exits Q r.

(** The strings a pattern matches. *)
Fixpoint denote (items : list ritem) (s : list pchar) : Prop :=
  match items with
  | [] => s = []
  | RChar c :: items' => exists s', s = c :: s' /\ denote items' s'
  | RStar cls :: items' =>
      exists s1 s2, s = s1 ++ s2
                    /\ Forall (fun c => in_class cls c = true) s1
                    /\ denote items' s2
  end.

(** A classified argument string of a command line for the parser [P]: an
    option string is one of an action of [P], and the class ['-'] is only
    given to the string ['--']. *)
Definition token_ok (P : Parser) (t : string * tokclass) : Prop :=
  match snd t with
  | C_O (OptTuple (Some a) o _) => In (o, a) (option_string_actions P)
  | C_O (OptTuple None _ _) => True
  | C_dash => fst t = "--"
  | C_A => True
  end.

Definition is_dash_token (t : string * tokclass) : bool :=
  match snd t with C_dash => true | _ => false end.

(** Only the first ['--'] of a command line has the class ['-']. *)
Definition tokens_ok (P : Parser) (toks : list (string * tokclass)) : Prop :=
  Forall (token_ok P) toks
  /\ (length (List.filter is_dash_token toks) <= 1)%nat.

(** The argument strings an action can be called with: at most one besides
    a ['--'] for a single argument, none for a flag, the sub-command and
    what follows it for the sub-parsers. *)
Definition args_ok (a : Action) (args : list string) : Prop :=
  match a_nargs a with
  | N_one => (length (remove_first "--" args) <= 1)%nat
  | N_zero => args = []
  | N_parser => args <> []
  end.

(** The state of the parser before the argument strings [rest]: [Inv] of
    these, of the namespace and of the actions seen, and the positionals
    left are positionals of [P]. *)
Definition state_ok (P : Parser)
    (Inv : list (string * tokclass) -> Namespace -> list string -> Prop)
    (rest : list (string * tokclass)) (st : pstate) : Prop :=
  Inv rest (ns st) (seen_actions st)
  /\ Forall (fun a => In a P /\ is_optional a = false) (positionals st).

(** An optional action of [P] with argument strings it can be called
    with. *)
Definition call_ok (P : Parser) (c : Action * list string) : Prop :=
  In (fst c) P /\ is_optional (fst c) = true /\ args_ok (fst c) (snd c).

(** The namespace when the parser is done: the required actions have been
    seen. *)
Definition parsed_ok (P : Parser)
    (Inv : list (string * tokclass) -> Namespace -> list string -> Prop)
    (n : Namespace) : Prop :=
  exists rest seen,
    Inv rest n seen
    /\ forall a, In a P -> required a = true -> In (dest a) seen.

(** The value of an option or positional with one argument string: the
    converted string, or the empty list left when the only string was
    ['--']. *)
Definition value_of (t : pytype) (v : pyval) : bool :=
  match v, t with
  | VList [], _ => true
  | VStr _, T_none => true
  | VInt _, T_int => true
  | VFloat _, T_float => true
  | _, _ => false
  end.

Definition is_bool (v : pyval) : bool :=
  match v with VBool _ => true | _ => false end.

Definition or_none (f : pyval -> bool) (v : pyval) : bool :=
  match v with VNone => true | _ => f v end.

Definition is_onthefly (v : pyval) : bool :=
  match v with VStr s => String.eqb s "onthefly" | _ => false end.

(** The attributes of the namespace [parse_args] returns, with the values
    each can have. *)
Definition attributes : list (string * (pyval -> bool)) :=
  [ ("batch_size", value_of T_int);
    ("dataset_type", is_onthefly);
    ("annotations", value_of T_none);
    ("model", value_of T_none);
    ("convert_model", is_bool);
    ("backbone", value_of T_none);
    ("gpu", or_none (value_of T_none));
    ("score_threshold", value_of T_float);
    ("iou_threshold", value_of T_float);
    ("max_detections", value_of T_int);
    ("suppression_threshold", value_of T_float);
    ("save_path", or_none (value_of T_none));
    ("image_min_side", value_of T_int);
    ("image_max_side", value_of T_int) ].

(** While the sub-parser runs, its namespace holds [annotations] alone. *)
Definition otf_inv (n : Namespace) (seen : list string) : Prop :=
  exists v, n = {[ "annotations" := v ]}
            /\ or_none (value_of T_none) v = true
            /\ (In "annotations" seen -> v <> VNone).

(** While the parser runs: the positionals may still be [None], the
    attribute of the sub-parser may be missing, and the strings the
    sub-parser did not recognize are kept under a name of their own. *)
Definition running_attributes : list (string * (pyval -> bool)) :=
  [ ("batch_size", value_of T_int);
    ("dataset_type", or_none is_onthefly);
    ("annotations", value_of T_none);
    ("model", or_none (value_of T_none));
    ("convert_model", is_bool);
    ("backbone", value_of T_none);
    ("gpu", or_none (value_of T_none));
    ("score_threshold", value_of T_float);
    ("iou_threshold", value_of T_float);
    ("max_detections", value_of T_int);
    ("suppression_threshold", value_of T_float);
    ("save_path", or_none (value_of T_none));
    ("image_min_side", value_of T_int);
    ("image_max_side", value_of T_int);
    (UNRECOGNIZED_ARGS_ATTR, fun _ => true) ].

Definition shapes (table : list (string * (pyval -> bool))) (n : Namespace) : Prop :=
  forall k v, n !! k = Some v ->
    match assoc k table with
    | Some ok => ok v = true
    | None => False
    end.

Definition parser_inv (n : Namespace) (seen : list string) : Prop :=
  shapes running_attributes n
  /\ (forall a, In a parser -> dest a <> SUPPRESS -> n !! dest a <> None)
  /\ (In "model" seen -> n !! "model" <> Some VNone)
  /\ (In "dataset_type" seen ->
       n !! "dataset_type" <> Some VNone /\ n !! "annotations" <> None).

(** The action [a] changed nothing but its own attribute and those of the
    sub-parser. *)
Definition unchanged_but (a : Action) (n n' : Namespace) : Prop :=
  forall k, k <> dest a -> k <> "annotations" -> k <> UNRECOGNIZED_ARGS_ATTR ->
            n' !! k = n !! k.

(** The argument string [s] is taken for an option that sets [d]: the
    option string itself, an abbreviation of it, or one of them followed by
    ['='] and a value. *)
Definition mentions (P : Parser) (d s : string) : bool :=
  match parse_optional P s with
  | Ok (Some (OptTuple (Some a) _ _)) => String.eqb (dest a) d
  | _ => false
  end.

(** The actions of the parser that do not set [d]. *)
Definition others (d : string) : Parser :=
  List.filter (fun a => negb (String.eqb (dest a) d)) parser.




Definition frame_inv (d : string) (v : option pyval) (n : Namespace)
    (seen : list string) : Prop :=
  parser_inv n seen /\ n !! d = v.

(** The argument strings that the positionals seen have taken at least:
    the sub-command with the annotations, and the model. *)
Definition taken (seen : list string) : nat :=
  (if existsb (String.eqb "dataset_type") seen then 2 else 0)
  + (if existsb (String.eqb "model") seen then 1 else 0).

(** While the sub-parser runs on [args]: once [annotations] has been
    seen, an argument string has been taken. *)
Definition otf_count (args : list string) (rest : list (string * tokclass))
    (n : Namespace) (seen : list string) : Prop :=
  otf_inv n seen
  /\ (length rest <= length args)%nat
  /\ (In "annotations" seen -> (length rest < length args)%nat).

(** While the parser runs on [argv]: the strings ahead are strings of
    [argv], those behind are at least the ones the positionals seen have
    taken, and the sub-command seen is a string of [argv]. *)
Definition parser_count (argv : list string) (rest : list (string * tokclass))
    (n : Namespace) (seen : list string) : Prop :=
  parser_inv n seen
  /\ Forall (fun t => In (fst t) argv) rest
  /\ (taken seen + length rest <= length argv)%nat
  /\ (In "dataset_type" seen -> In "onthefly" argv).

(** [n] has exactly the attributes of [table], each with a value the table
    allows. *)
Definition has_attributes (table : list (string * (pyval -> bool)))
    (n : Namespace) : Prop :=
  forall k,
    match assoc k table with
    | Some ok => exists v, n !! k = Some v /\ ok v = true
    | None => n !! k = None
    end.

Definition complete (n : Namespace) : Prop := has_attributes attributes n.

End CommandLine.
(** ** The site of a run *)

Module Site.
Import Py Eval Posixpath.

(** [sep.join(comps)]. *)
Fixpoint join (comps : list string) : string :=
  match comps with
  | [] => ""
  | [c] => c
  | c :: comps' => c ++ "/" ++ join comps'
  end.

Definition startswith (prefix s : string) : bool := String.prefix prefix s.

(** ['/' * n]. *)
Fixpoint slashes (n : nat) : string :=
  match n with
  | O => ""
  | S n' => String "/" (slashes n')
  end.

(** The loop of [posixpath.normpath] over the components. *)
Definition normpath_step (initial_slashes : nat) (new_comps : list string)
    (comp : string) : list string :=
  if String.eqb comp "" || String.eqb comp "." then new_comps
  else if negb (String.eqb comp "..")
          || (Nat.eqb initial_slashes 0
              && match new_comps with [] => true | _ => false end)
          || match rev new_comps with
             | l :: _ => String.eqb l ".."
             | [] => false
             end
       then new_comps ++ [comp]
       else removelast new_comps.

(** [posixpath.normpath(path)]. *)
Definition normpath (path : string) : string :=
  if String.eqb path "" then "."
  else
    let initial_slashes :=
      if startswith "/" path then
        if startswith "//" path && negb (startswith "///" path) then 2%nat else 1%nat
      else 0%nat in
    let comps := Paths.split_path path in
    let new_comps := fold_left (normpath_step initial_slashes) comps [] in
    let path := join new_comps in
    let path := (slashes initial_slashes ++ path)%string in
    if String.eqb path "" then "." else path.

(** A directory name: not empty, without separator, neither ['.'] nor
    ['..']. *)
Definition is_name (s : string) : bool :=
  negb (String.eqb s "") && Paths.no_slash s
  && negb (String.eqb s ".") && negb (String.eqb s "..").

(** [os.path.split(os.path.normpath(evaluation_tile_dir))[1]], line 210. *)
Definition site_of (evaluation_tile_dir : string) : string :=
  snd (split (normpath evaluation_tile_dir)).

(** The module-level [site] of a run, from the loaded configuration. *)
Definition derive_site (config : Config) : result string :=
  rbind (getitem config "evaluation_tile_dir") (fun v =>
  match v with
  | VStr p => Ok (site_of p)
  | _ => Raise TypeError
  end).

(** The globals of a run on the tiles of the Florida site. *)
Definition florida : Globals :=
  {| DeepForest_config :=
       <[ "evaluation_tile_dir" := VStr "data/OSBS/" ]> Examples.the_config;
     site := "OSBS";
     preprocess := Examples.the_preprocess |}.

End Site.

(** ** Properties *)
(* ===================================================================== *)

Import Py Argparse Eval Spec.

(** A closed equation, checked by evaluating both sides. *)
Ltac by_vm :=
  match goal with
  | |- ?l = ?r => exact (@eq_refl _ r <: l = r)
  end.

(** A closed computation returns: what it returns and the state it leaves
    are named by the computation itself and checked by evaluation. *)
Ltac returned :=
  lazymatch goal with
  | |- ?m = (Ok tt, ?s) => unify s (snd m); by_vm
  | |- ?m = (Ok ?c, ?s) =>
      first [ is_evar c;
              unify c (match fst m with Ok x => x | Raise _ => Examples.the_context end)
            | is_evar c;
              unify c (match fst m with Ok x => x | Raise _ => [] end)
            | idtac ];
      unify s (snd m); by_vm
  | |- ?m = Ok ?n => unify n (match m with Ok x => x | Raise _ => ∅ end); by_vm
  end.

(** Replaces the trace of a closed run by its value. *)
Ltac trace_value :=
  match goal with
  | |- context [trace ?s] =>
      let v := eval vm_compute in (trace s) in
      let E := fresh "E" in
      assert (E : trace s = v) by by_vm; rewrite !E; clear E
  end.

(** *** How the effects compose *)

Lemma replay_env_app env l1 l2 :
  replay_env env (l1 ++ l2) = replay_env (replay_env env l1) l2.
Proof. apply fold_left_app. Qed.

Lemma replay_fs_app f l1 l2 :
  replay_fs f (l1 ++ l2) = replay_fs (replay_fs f l1) l2.
Proof. apply fold_left_app. Qed.

Lemma emits_ret {A} P (a : A) : emits P (ret a).
Proof. intros st. exists []. simpl. rewrite app_nil_r. auto. Qed.

Lemma emits_lift {A} P (r : result A) : emits P (lift r).
Proof. intros st. exists []. simpl. rewrite app_nil_r. auto. Qed.

Lemma emits_bind {A B} P (m : M A) (k : A -> M B) :
  emits P m -> (forall a, emits P (k a)) -> emits P (bind m k).
Proof.
  intros Hm Hk st. unfold bind.
  destruct (Hm st) as (l1 & Ht & HP & He & Hf).
  destruct (m st) as [[a|e] st1]; simpl in *.
  - destruct (Hk a st1) as (l2 & Ht2 & HP2 & He2 & Hf2).
    exists (l1 ++ l2). rewrite Ht2, Ht, He2, He, Hf2, Hf.
    rewrite <- app_assoc, replay_env_app, replay_fs_app.
    repeat split; auto. apply Forall_app; auto.
  - exists l1. auto.
Qed.

Lemma emits_bind_lift {A B} P (r : result A) (k : A -> M B) :
  (forall a, r = Ok a -> emits P (k a)) -> emits P (bind (lift r) k).
Proof.
  intros H st. unfold bind, lift. destruct r as [a|e].
  - now apply H.
  - exists []. simpl. rewrite app_nil_r. auto.
Qed.

Lemma emits_emit P e :
  P e -> (forall env, apply_env env e = env) -> (forall f, apply_fs f e = f) ->
  emits P (emit e).
Proof. intros H He Hf st. exists [e]. simpl. repeat split; auto. Qed.

Lemma emits_delegate {A} P c (r : result A) : P (E_call c) -> emits P (delegate c r).
Proof.
  intros H. unfold delegate. apply emits_bind.
  - now apply emits_emit.
  - intros _. apply emits_lift.
Qed.

Lemma emits_setenv P k v :
  (forall s, v = VStr s -> P (E_setenv k s)) -> emits P (setenv k v).
Proof.
  intros H. destruct v; try apply emits_lift. unfold setenv.
  destruct (has_char NUL k || has_char NUL s || has_char "=" k);
    [apply emits_lift|].
  destruct (String.eqb k ""); [apply emits_lift|].
  intros st. exists [E_setenv k s]. simpl. repeat split; auto.
Qed.

Lemma emits_path_exists P p : emits P (path_exists p).
Proof. intros st. exists []. simpl. rewrite app_nil_r. auto. Qed.

Lemma emits_mkdir P o p : P (E_makedirs p) -> emits P (mkdir o p).
Proof.
  intros H st. unfold mkdir. destruct (o (fs st) p).
  - exists [E_makedirs p]. simpl. repeat split; auto.
  - exists []. simpl. rewrite app_nil_r. auto.
Qed.

Lemma emits_pass_FileExistsError P m :
  emits P m -> emits P (pass_FileExistsError m).
Proof.
  intros H st. destruct (H st) as (l & Hl). exists l. unfold pass_FileExistsError.
  destruct (m st) as [[[]|e] st']; simpl in *; try exact Hl. destruct e; exact Hl.
Qed.

Lemma emits_makedirs P o d : forall p,
  (forall q, P (E_makedirs q)) -> emits P (makedirs o d p).
Proof.
  induction d as [|d IH]; intros p H; cbn [makedirs]; [apply emits_lift|].
  destruct (Posixpath.split p) as [head tail].
  destruct (if String.eqb tail "" then Posixpath.split head else (head, tail))
    as [head' tail'].
  apply emits_bind.
  - destruct (negb (String.eqb head' "") && negb (String.eqb tail' ""));
      [|apply emits_ret].
    apply emits_bind; [apply emits_path_exists|]. intros e.
    destruct (negb e); [|apply emits_ret].
    apply emits_bind;
      [apply emits_pass_FileExistsError; now apply IH | intros _; apply emits_ret].
  - intros done. destruct done; [apply emits_ret|apply emits_mkdir, H].
Qed.


(** Splits a computation along its binds and branches, leaving one goal per
    emitted event. *)
Ltac emits_steps :=
  repeat match goal with
    | |- emits _ (ret _) => apply emits_ret
    | |- emits _ (lift _) => apply emits_lift
    | |- emits _ (path_exists _) => apply emits_path_exists
    | |- emits _ (bind _ _) => apply emits_bind; [ | intros ? ]
    | |- emits _ (delegate _ _) => apply emits_delegate
    | |- emits _ (emit _) => apply emits_emit; [ | reflexivity | reflexivity ]
    | |- emits _ (print _) => unfold print
    | |- emits _ (log_parameter _ _) => unfold log_parameter
    | |- emits _ (log_metric _ _) => unfold log_metric
    | |- emits _ (makedirs _ _ _) => apply emits_makedirs; intros ?
    | |- emits _ (setenv _ _) => apply emits_setenv; intros ? ?
    | |- emits _ (create_generator _ _ _) => unfold create_generator
    | |- emits _ (if ?b then _ else _) => destruct b
    | |- emits _ (match ?x with _ => _ end) => destruct x
    end.

Lemma bind_Ok {A B} (m : M A) (k : A -> M B) st a st' :
  m st = (Ok a, st') -> bind m k st = k a st'.
Proof. intros H. unfold bind. now rewrite H. Qed.

Lemma bind_Raise {A B} (m : M A) (k : A -> M B) st e st' :
  m st = (Raise e, st') -> bind m k st = (Raise e, st').
Proof. intros H. unfold bind. now rewrite H. Qed.

(** The events each part of the script can emit: [P] has to hold of its
    delegated calls (the ground truth comparison only at its site), of what
    it prints and logs, of a non-empty GPU id put into the environment, and
    of the directories made. *)
Section Emitted.

Context {Model : Type} (G : Globals) (X : Externals Model).
Variable P : event -> Prop.
Variable cfg : Config.
Variable args : option (list string).

Let argv : list string :=
  match args with
  | None => tl (sys_argv Model X)
  | Some a => a
  end.

Hypothesis P_setup_call : forall c,
  match c with
  | C_check_keras_version | C_set_session _ | C_split_training _ _
  | C_load_model _ _ _ | C_summary => True
  | _ => False
  end -> P (E_call c).
Hypothesis P_evaluate : forall a b c d, P (E_call (C_evaluate a b c d)).
Hypothesis P_Jaccard : site G = "OSBS" -> forall a b, P (E_call (C_Jaccard a b)).
Hypothesis P_neonRecall : forall a b, P (E_call (C_neonRecall (site G) a b)).
Hypothesis P_print : forall l, P (E_print l).
Hypothesis P_parameter : forall n v,
  n = "Start Time" \/ n = "Number of Trees" -> P (E_log_parameter n v).
Hypothesis P_metric : forall n v,
  n = "mAP" \/ (n = "Mean IoU" /\ site G = "OSBS") \/ n = "Recall" ->
  P (E_log_metric n v).
Hypothesis P_setenv : forall n s,
  parse_args (py_int Model X) (py_float Model X) argv = Ok n ->
  getattr n "gpu" = VStr s -> s <> "" ->
  P (E_setenv "CUDA_VISIBLE_DEVICES" s).
Hypothesis P_makedirs : forall p, P (E_makedirs p).

Lemma emits_create_generator n config : emits P (create_generator G n config).
Proof. unfold create_generator. emits_steps; now apply P_setup_call. Qed.

Lemma emits_main_setup : emits P (main_setup Model G X cfg args).
Proof.
  unfold main_setup. fold argv. unfold print, log_parameter.
  apply emits_bind_lift. intros n Hn.
  apply emits_bind; [apply emits_delegate; now apply P_setup_call | intros _].
  apply emits_bind; [ | intros _ ].
  { destruct (truthy (getattr n "gpu")) eqn:Ht; [|apply emits_ret].
    apply emits_setenv. intros s Hs. apply (P_setenv n s Hn Hs).
    intros ->. rewrite Hs in Ht. discriminate. }
  emits_steps; auto; try (now apply P_setup_call); try (apply P_parameter; auto).
Qed.

Lemma emits_main_evaluate c : emits P (main_evaluate Model X c).
Proof. unfold main_evaluate. emits_steps; apply P_evaluate. Qed.

Lemma emits_average_loop g items pc p :
  emits P (average_loop Model X g items pc p).
Proof.
  revert pc p.
  induction items as [|[label [ap n]] items IH]; intros pc p; simpl.
  - apply emits_ret.
  - unfold print. emits_steps; auto.
Qed.

Lemma emits_main_mAP c aps : emits P (main_mAP Model X c aps).
Proof.
  unfold main_mAP, print, log_metric.
  apply emits_bind; [ apply emits_average_loop | intros [pc p] ].
  emits_steps; auto.
Qed.

Lemma emits_main_iou c : emits P (main_iou Model G X cfg c).
Proof.
  unfold main_iou, print, log_metric.
  destruct (String.eqb_spec (site G) "OSBS") as [E|E]; [|apply emits_ret].
  emits_steps; auto.
Qed.

Lemma emits_main_recall c : emits P (main_recall Model G X cfg c).
Proof.
  unfold main_recall, print, log_metric.
  emits_steps; auto.
Qed.

Lemma emits_main_ntrees c : emits P (main_ntrees Model X c).
Proof. unfold main_ntrees, log_parameter. emits_steps; auto. Qed.

Lemma emits_main : emits P (main Model G X cfg args).
Proof.
  unfold main.
  apply emits_bind; [apply emits_main_setup | intros c].
  apply emits_bind; [apply emits_main_evaluate | intros aps].
  apply emits_bind; [apply emits_main_mAP | intros _].
  apply emits_bind; [apply emits_main_iou | intros _].
  apply emits_bind; [apply emits_main_recall | intros _].
  apply emits_main_ntrees.
Qed.

End Emitted.

(** *** States and traces *)

Lemma logged_logged st l1 l2 : logged (logged st l1) l2 = logged st (l1 ++ l2).
Proof. unfold logged. simpl. now rewrite app_assoc. Qed.

Lemma logged_nil st : logged st [] = st.
Proof. destruct st. unfold logged. simpl. now rewrite app_nil_r. Qed.

Lemma emit_logged e st : emit e st = (Ok tt, logged st [e]).
Proof. reflexivity. Qed.

Lemma delegate_logged {A} c (r : result A) st :
  delegate c r st = (r, logged st [E_call c]).
Proof. unfold delegate, bind, lift. simpl. now destruct r. Qed.

(** The events of a whole run are those emitted from the empty trace. *)
Lemma emits_from_start {A} P (m : M A) env files :
  emits P m -> Forall P (trace (snd (m (initial_state env files)))).
Proof.
  intros H. destruct (H (initial_state env files)) as (l & Ht & HP & _).
  rewrite Ht. simpl. exact HP.
Qed.

Lemma emits_grows {A} P (m : M A) st :
  emits P m -> exists l, trace (snd (m st)) = trace st ++ l /\ Forall P l.
Proof. intros H. destruct (H st) as (l & Ht & HP & _). eauto. Qed.

(** *** Mean average precision (lines 141-150) *)

Section MeanAveragePrecision.

Context {Model : Type} (X : Externals Model).

Lemma average_loop_float g items : forall pc acc st,
  average_loop Model X g items pc (VFloat acc) st =
    (Ok (pc + Z.of_nat (length (present items)),
         VFloat (sum_from acc (present items))),
     logged st (map (fun x => E_print (class_line X g x)) items)).
Proof.
  induction items as [|[label [ap n]] items IH]; intros pc acc st; simpl.
  - rewrite logged_nil. unfold ret. do 3 f_equal. lia.
  - unfold print at 1. erewrite bind_Ok by apply emit_logged.
    destruct (0 <? n) eqn:Hn; simpl.
    + erewrite bind_Ok by reflexivity. rewrite IH, logged_logged.
      do 3 f_equal. lia.
    + rewrite IH, logged_logged. reflexivity.
Qed.

Lemma average_loop_start g items : forall st,
  average_loop Model X g items 0 (VInt 0) st =
    (Ok (Z.of_nat (length (present items)),
         match present items with
         | [] => VInt 0
         | _ => VFloat (sum_from (float_of_Z 0) (present items))
         end),
     logged st (map (fun x => E_print (class_line X g x)) items)).
Proof.
  induction items as [|[label [ap n]] items IH]; intros st; simpl.
  - now rewrite logged_nil.
  - unfold print at 1. erewrite bind_Ok by apply emit_logged.
    destruct (0 <? n) eqn:Hn; simpl.
    + erewrite bind_Ok by reflexivity.
      rewrite average_loop_float, logged_logged. do 3 f_equal. lia.
    + rewrite IH, logged_logged. reflexivity.
Qed.

Lemma present_all_zero items :
  Forall (fun x => snd (snd x) = 0) items -> present items = [].
Proof.
  induction 1 as [|x l Hx _ IH]; simpl; auto.
  rewrite Hx. simpl. exact IH.
Qed.

Lemma main_mAP_present (c : context Model) aps st :
  present aps <> [] ->
  main_mAP Model X c aps st =
    (Ok tt,
     logged st
       (map (fun x => E_print (class_line X (c_generator c) x)) aps
        ++ [ E_print ("mAP: " ++ format_f 4 (mean_average_precision aps));
             E_log_metric "mAP" (VFloat (mean_average_precision aps)) ])).
Proof.
  intros Hne. unfold main_mAP.
  erewrite bind_Ok by apply average_loop_start.
  assert (Hlen : (Z.of_nat (length (present aps)) =? 0) = false).
  { apply Z.eqb_neq. destruct (present aps); [congruence | simpl; lia]. }
  unfold mean_average_precision.
  destruct (present aps) as [|x l] eqn:E; [congruence|].
  unfold py_truediv. cbn [as_number to_float]. rewrite Hlen.
  erewrite bind_Ok by reflexivity. cbn [format_value as_number to_float].
  erewrite bind_Ok by reflexivity.
  unfold print, log_metric.
  erewrite bind_Ok by apply emit_logged.
  erewrite bind_Ok by reflexivity.
  rewrite emit_logged, !logged_logged. reflexivity.
Qed.

Lemma main_mAP_all_zero (c : context Model) aps st :
  Forall (fun x => snd (snd x) = 0) aps ->
  main_mAP Model X c aps st =
    (Raise ZeroDivisionError,
     logged st (map (fun x => E_print (class_line X (c_generator c) x)) aps)).
Proof.
  intros Hz. unfold main_mAP.
  erewrite bind_Ok by apply average_loop_start.
  rewrite (present_all_zero _ Hz). reflexivity.
Qed.

End MeanAveragePrecision.

(** *** The claims about the reported metrics *)

Lemma present_idempotent aps : present (present aps) = present aps.
Proof.
  induction aps as [|x l IH]; simpl; auto.
  destruct (0 <? snd (snd x)) eqn:E; simpl; rewrite ?E; congruence.
Qed.

(** C1 (as amended).  Mean average precision is the unweighted mean of the
    per-class average precision over exactly the classes whose instance count
    is positive: whenever some class has instances, [main] prints one line per
    class, then prints and logs as metric "mAP" the binary64 sum of the
    average precisions of the present classes divided by their number;
    classes without instances enter neither the sum nor the divisor.  For
    [{A: (0.8, 10), B: (0.0, 0), C: (0.4, 5)}] the value is the binary64
    result of [(0.8 + 0.4) / 2], which is the float next above 0.6
    (0.6000000000000001) and is printed as "mAP: 0.6000". *)
Theorem mean_average_precision_over_present_classes
    Model (X : Externals Model) (c : context Model) aps st :
  present aps <> [] ->
  main_mAP Model X c aps st =
    (Ok tt,
     logged st
       (map (fun x => E_print (class_line X (c_generator c) x)) aps
        ++ [ E_print ("mAP: " ++ format_f 4 (mean_average_precision aps));
             E_log_metric "mAP" (VFloat (mean_average_precision aps)) ]))
  /\ mean_average_precision aps = mean_average_precision (present aps)
  /\ Forall (fun x => 0 < snd (snd x)) (present aps)
  /\ present Examples.three_classes = [ (0, (0.8%float, 10)); (2, (0.4%float, 5)) ]
  /\ mean_average_precision Examples.three_classes = ((0.8 + 0.4) / 2)%float
  /\ mean_average_precision Examples.three_classes = PrimFloat.next_up 0.6%float
  /\ format_f 4 (mean_average_precision Examples.three_classes) = "0.6000".
Proof.
  intros Hne. split; [now apply main_mAP_present|].
  split.
  { unfold mean_average_precision. now rewrite present_idempotent. }
  split.
  { unfold present. apply List.Forall_forall. intros x Hx.
    apply List.filter_In in Hx. destruct Hx as [_ Hx]. lia. }
  repeat split; vm_compute; reflexivity.
Qed.

Lemma mean_average_precision_over_present_classes_witness :
  present Examples.three_classes <> []
  /\ fst (main_mAP unit (Examples.world Examples.argv_save Examples.three_classes)
            Examples.the_context Examples.three_classes Examples.start) = Ok tt.
Proof.
  split; [vm_compute; discriminate|].
  rewrite (proj1 (mean_average_precision_over_present_classes unit
                    (Examples.world Examples.argv_save Examples.three_classes)
                    Examples.the_context Examples.three_classes Examples.start
                    ltac:(vm_compute; discriminate))).
  reflexivity.
Defined.

(** C1, as stated, fails: for [{A: (0.8, 10), B: (0.0, 0), C: (0.4, 5)}] the
    value logged as "mAP" is not the float 0.6. *)
Lemma logged_mAP_is_not_exactly_0_6 :
  exists v,
    In (E_log_metric "mAP" (VFloat v))
       (trace (snd (Examples.run Examples.argv_save Examples.three_classes "OSBS")))
    /\ PrimFloat.eqb v 0.6%float = false
    /\ v <> 0.6%float.
Proof.
  exists ((0.8 + 0.4) / 2)%float. split; [|split].
  - trace_value. simpl. tauto.
  - by_vm.
  - intros H. apply (f_equal (fun x => PrimFloat.eqb x 0.6%float)) in H.
    vm_compute in H. discriminate.
Qed.

(** What the phases before the reporting have emitted when the evaluator has
    returned. *)
Lemma emits_until_evaluated {Model} G (X : Externals Model) cfg args env files
    (P : event -> Prop) c st1 aps st2 :
  emits P (main_setup Model G X cfg args) ->
  emits P (main_evaluate Model X c) ->
  main_setup Model G X cfg args (initial_state env files) = (Ok c, st1) ->
  main_evaluate Model X c st1 = (Ok aps, st2) ->
  Forall P (trace st2).
Proof.
  intros Hs He H1 H2.
  pose proof (emits_from_start P _ env files Hs) as F1.
  rewrite H1 in F1. simpl in F1.
  destruct (emits_grows P _ st1 He) as (l & Ht & F2).
  rewrite H2 in Ht. simpl in Ht. rewrite Ht. apply Forall_app; auto.
Qed.

(** C2.  When the evaluator returns a mapping in which every class has an
    instance count of zero, the run ends with [ZeroDivisionError] (exit
    status 1): no number is produced, and no metric named "mAP" is logged. *)
Theorem mAP_of_no_instances_is_a_division_error
    Model G (X : Externals Model) cfg args env files c st1 aps st2 :
  main_setup Model G X cfg args (initial_state env files) = (Ok c, st1) ->
  main_evaluate Model X c st1 = (Ok aps, st2) ->
  Forall (fun x => snd (snd x) = 0) aps ->
  let r := main Model G X cfg args (initial_state env files) in
  fst r = Raise ZeroDivisionError
  /\ exit_status (fst r) = 1
  /\ (forall e, In e (trace (snd r)) -> ~ is_metric "mAP" e).
Proof.
  intros H1 H2 Hz r. subst r. unfold main.
  erewrite bind_Ok by exact H1. erewrite bind_Ok by exact H2.
  erewrite bind_Raise by (now apply main_mAP_all_zero). simpl.
  repeat split. intros e Hin Hm.
  apply in_app_or in Hin. destruct Hin as [Hin|Hin].
  - assert (F : Forall (fun e => ~ is_metric "mAP" e) (trace st2)).
    { apply (emits_until_evaluated G X cfg args env files _ c st1 aps st2);
        auto.
      - apply emits_main_setup; intros; intros [? ?]; discriminate.
      - apply emits_main_evaluate. intros; intros [? ?]; discriminate. }
    rewrite List.Forall_forall in F. now apply (F e).
  - apply in_map_iff in Hin. destruct Hin as (x & <- & _).
    destruct Hm as [v Hv]. discriminate.
Qed.

Lemma mAP_of_no_instances_is_a_division_error_witness :
  Forall (fun x => snd (snd x) = 0) Examples.no_instances
  /\ fst (Examples.run Examples.argv_save Examples.no_instances "OSBS")
     = Raise ZeroDivisionError.
Proof.
  assert (Hz : Forall (fun x : Z * (float * Z) => snd (snd x) = 0) Examples.no_instances).
  { repeat constructor. }
  split; [exact Hz|].
  unfold Examples.run.
  eapply (mAP_of_no_instances_is_a_division_error unit
            (Examples.globals_at "OSBS")
            (Examples.world Examples.argv_save Examples.no_instances)
            Examples.other_config None ∅ ∅).
  - returned.
  - returned.
  - exact Hz.
Defined.

Lemma in_trace_bind {A B} (m : M A) (k : A -> M B) st e :
  (forall a, emits (fun _ => True) (k a)) ->
  In e (trace (snd (m st))) -> In e (trace (snd (bind m k st))).
Proof.
  intros Hk Hin. unfold bind. destruct (m st) as [[a|x] st1]; simpl in *; auto.
  destruct (emits_grows _ _ st1 (Hk a)) as (l & Ht & _).
  rewrite Ht. apply in_or_app. now left.
Qed.

Lemma in_logged st l e : In e l -> In e (trace (logged st l)).
Proof. intros H. simpl. apply in_or_app. now right. Qed.

(** The comparison at its site: the call, and when it returns the printed
    line and the metric. *)
Lemma main_iou_at_site {Model} G (X : Externals Model) cfg (c : context Model) st :
  site G = "OSBS" ->
  let score := getattr (c_args c) "score_threshold" in
  let sp := getattr (c_args c) "save_path" in
  main_iou Model G X cfg c st =
    match Jaccard Model X (c_generator c) (c_model c) score sp cfg with
    | Ok j =>
        (Ok tt, logged st [ E_call (C_Jaccard score sp);
                            E_print (" Mean IoU: " ++ format_f 2 j);
                            E_log_metric "Mean IoU" (VFloat j) ])
    | Raise e => (Raise e, logged st [ E_call (C_Jaccard score sp) ])
    end.
Proof.
  intros Hs score sp. unfold main_iou. rewrite Hs. simpl.
  fold score sp.
  destruct (Jaccard Model X (c_generator c) (c_model c) score sp cfg) as [j|e] eqn:E.
  - erewrite bind_Ok by apply delegate_logged.
    unfold print, log_metric. erewrite bind_Ok by apply emit_logged.
    rewrite emit_logged, !logged_logged. reflexivity.
  - erewrite bind_Raise by apply delegate_logged. reflexivity.
Qed.

Lemma main_iou_elsewhere {Model} G (X : Externals Model) cfg (c : context Model) st :
  site G <> "OSBS" -> main_iou Model G X cfg c st = (Ok tt, st).
Proof.
  intros Hs. unfold main_iou.
  destruct (String.eqb_spec (site G) "OSBS"); [contradiction|reflexivity].
Qed.

(** The reporting after the comparison emits freely. *)
Lemma emits_after_iou {Model} G (X : Externals Model) cfg (c : context Model) :
  emits (fun _ => True)
    (bind (main_recall Model G X cfg c) (fun _ => main_ntrees Model X c)).
Proof.
  apply emits_bind; [apply (emits_main_recall G X) | intros _; apply (emits_main_ntrees X)];
    auto.
Qed.

(** C3.  The ground truth comparison runs when and only when the site name is
    "OSBS".  In a run at any other site no call of the Jaccard routine and no
    metric named "Mean IoU" occurs, and the step leaves the state untouched;
    in a run at "OSBS" that reaches the step, the Jaccard routine is called
    and, when it returns, its value is printed and logged as "Mean IoU". *)
Theorem ground_truth_comparison_only_at_its_site
    Model G (X : Externals Model) cfg args env files :
  let r := main Model G X cfg args (initial_state env files) in
  (forall e, In e (trace (snd r)) ->
             is_Jaccard_call e \/ is_metric "Mean IoU" e -> site G = "OSBS")
  /\ (site G <> "OSBS" ->
      forall c st, main_iou Model G X cfg c st = (Ok tt, st))
  /\ (site G = "OSBS" ->
      forall c st1 aps st2 st3,
        main_setup Model G X cfg args (initial_state env files) = (Ok c, st1) ->
        main_evaluate Model X c st1 = (Ok aps, st2) ->
        main_mAP Model X c aps st2 = (Ok tt, st3) ->
        let score := getattr (c_args c) "score_threshold" in
        let sp := getattr (c_args c) "save_path" in
        In (E_call (C_Jaccard score sp)) (trace (snd r))
        /\ forall j,
             Jaccard Model X (c_generator c) (c_model c) score sp cfg = Ok j ->
             In (E_print (" Mean IoU: " ++ format_f 2 j)) (trace (snd r))
             /\ In (E_log_metric "Mean IoU" (VFloat j)) (trace (snd r))).
Proof.
  intros r. split; [|split].
  - assert (F : Forall (fun e => is_Jaccard_call e \/ is_metric "Mean IoU" e ->
                                 site G = "OSBS") (trace (snd r))).
    { apply emits_from_start. apply emits_main.
      - intros [] H [(a & b & E)|(v & E)]; try discriminate; contradiction.
      - intros a b c d [(a' & b' & E)|(v & E)]; discriminate.
      - auto.
      - intros a b [(a' & b' & E)|(v & E)]; discriminate.
      - intros l [(a & b & E)|(v & E)]; discriminate.
      - intros n v _ [(a & b & E)|(v' & E)]; discriminate.
      - intros n v H [(a & b & E)|(v' & E)]; try discriminate.
        injection E as -> _. destruct H as [H|[[_ H]|H]]; auto; discriminate.
      - intros n s _ _ _ [(a & b & E)|(v & E)]; discriminate.
      - intros p [(a & b & E)|(v & E)]; discriminate. }
    rewrite List.Forall_forall in F. exact F.
  - intros Hs c st. now apply main_iou_elsewhere.
  - intros Hs c st1 aps st2 st3 H1 H2 H3 score sp. subst r. unfold main.
    erewrite bind_Ok by exact H1. erewrite bind_Ok by exact H2.
    erewrite bind_Ok by exact H3.
    pose proof (main_iou_at_site G X cfg c st3 Hs) as Hi. simpl in Hi.
    fold score sp in Hi.
    split.
    + apply in_trace_bind.
      { intros _. apply emits_after_iou. }
      rewrite Hi. destruct (Jaccard _ _ _ _ _ _ _); apply in_logged; simpl; auto.
    + intros j Hj. rewrite Hj in Hi.
      split; (apply in_trace_bind; [intros _; apply emits_after_iou|]);
        rewrite Hi; apply in_logged; simpl; auto.
Qed.

Lemma ground_truth_comparison_only_at_its_site_witness :
  In (E_log_metric "Mean IoU" (VFloat 0.25%float))
     (trace (snd (Examples.run Examples.argv_save Examples.three_classes "OSBS")))
  /\ ~ In (E_log_metric "Mean IoU" (VFloat 0.25%float))
       (trace (snd (Examples.run Examples.argv_save Examples.three_classes "HARV"))).
Proof.
  split.
  - pose proof (ground_truth_comparison_only_at_its_site unit
                  (Examples.globals_at "OSBS")
                  (Examples.world Examples.argv_save Examples.three_classes)
                  Examples.other_config None ∅ ∅) as (_ & _ & H).
    edestruct H as (_ & Hj).
    + reflexivity.
    + returned.
    + returned.
    + returned.
    + apply (Hj 0.25%float). reflexivity.
  - intros Hin.
    pose proof (ground_truth_comparison_only_at_its_site unit
                  (Examples.globals_at "HARV")
                  (Examples.world Examples.argv_save Examples.three_classes)
                  Examples.other_config None ∅ ∅) as (H & _ & _).
    specialize (H _ Hin (or_intror (ex_intro _ _ eq_refl))).
    discriminate H.
Defined.

(** C4.  At every site, once the run reaches line 168 the recall routine is
    called with the site name; when it returns, its value is logged as the
    metric "Recall" and printed, and the list of the lengths of the annotation
    lists of [generator.annotation_dict] is logged under "Number of Trees" as
    a parameter; no metric of that name is ever logged. *)
Theorem recall_and_tree_counts_at_every_site
    Model G (X : Externals Model) cfg args env files c st1 aps st2 st3 st4 :
  main_setup Model G X cfg args (initial_state env files) = (Ok c, st1) ->
  main_evaluate Model X c st1 = (Ok aps, st2) ->
  main_mAP Model X c aps st2 = (Ok tt, st3) ->
  main_iou Model G X cfg c st3 = (Ok tt, st4) ->
  let r := main Model G X cfg args (initial_state env files) in
  let score := getattr (c_args c) "score_threshold" in
  let sp := getattr (c_args c) "save_path" in
  let call := E_call (C_neonRecall (site G) score sp) in
  let ntrees :=
    VList (map (fun x => VInt (Z.of_nat (length (snd x))))
             (annotation_dict Model X (c_generator c))) in
  (exists tail, trace (snd r) = trace st4 ++ call :: tail)
  /\ (forall recall,
        neonRecall Model X (site G) (c_generator c) (c_model c) score sp cfg
          = Ok recall ->
        r = (Ok tt,
             logged st4 [ call;
                          E_log_metric "Recall" (VFloat recall);
                          E_print (" Recall: " ++ format_f 2 recall);
                          E_log_parameter "Number of Trees" ntrees ]))
  /\ (forall e, In e (trace (snd r)) -> ~ is_metric "Number of Trees" e).
Proof.
  intros H1 H2 H3 H4 r score sp call ntrees.
  assert (Hr : r = bind (main_recall Model G X cfg c)
                     (fun _ => main_ntrees Model X c) st4).
  { subst r. unfold main.
    erewrite bind_Ok by exact H1. erewrite bind_Ok by exact H2.
    erewrite bind_Ok by exact H3. erewrite bind_Ok by exact H4. reflexivity. }
  split; [|split].
  - rewrite Hr. unfold main_recall. fold score sp.
    destruct (neonRecall Model X (site G) (c_generator c) (c_model c) score sp cfg)
      as [recall|e] eqn:E.
    + erewrite bind_Ok.
      2:{ erewrite bind_Ok by apply delegate_logged.
          unfold log_metric, print. erewrite bind_Ok by apply emit_logged.
          rewrite emit_logged, !logged_logged. reflexivity. }
      unfold main_ntrees, log_parameter. rewrite emit_logged, logged_logged.
      simpl. eexists. reflexivity.
    + erewrite bind_Raise.
      2:{ erewrite bind_Raise by apply delegate_logged. reflexivity. }
      simpl. eexists. reflexivity.
  - intros recall E. rewrite Hr. unfold main_recall. fold score sp. rewrite E.
    erewrite bind_Ok.
    2:{ erewrite bind_Ok by apply delegate_logged.
        unfold log_metric, print. erewrite bind_Ok by apply emit_logged.
        rewrite emit_logged, !logged_logged. reflexivity. }
    unfold main_ntrees, log_parameter. rewrite emit_logged, logged_logged.
    reflexivity.
  - assert (F : Forall (fun e => ~ is_metric "Number of Trees" e) (trace (snd r))).
    { apply emits_from_start. apply emits_main; intros; intros [? E]; try discriminate.
      injection E as -> _.
      repeat match goal with H : _ \/ _ |- _ => destruct H end;
        try discriminate.
      match goal with H : _ /\ _ |- _ => destruct H; discriminate end. }
    rewrite List.Forall_forall in F. exact F.
Qed.

Lemma recall_and_tree_counts_at_every_site_witness :
  In (E_log_metric "Recall" (VFloat 0.5%float))
     (trace (snd (Examples.run Examples.argv_save Examples.three_classes "HARV")))
  /\ In (E_log_parameter "Number of Trees" (VList [VInt 2; VInt 1]))
       (trace (snd (Examples.run Examples.argv_save Examples.three_classes "HARV"))).
Proof.
  pose proof (recall_and_tree_counts_at_every_site unit
                (Examples.globals_at "HARV")
                (Examples.world Examples.argv_save Examples.three_classes)
                Examples.other_config None ∅ ∅) as H.
  edestruct H as (_ & Hrun & _).
  - returned.
  - returned.
  - returned.
  - returned.
  - unfold Examples.run, Examples.start. rewrite (Hrun 0.5%float eq_refl).
    split; apply in_logged.
    + right. left. reflexivity.
    + do 3 right. left. by_vm.
Defined.

(** C4, as stated, fails: a run in which the evaluator finds no annotated
    instance is in its reporting phase when the mean average precision
    divides by zero; it ends there, before line 168: the recall routine is
    not called, and neither the metric "Recall" nor the parameter "Number of
    Trees" is logged. *)
Lemma reporting_can_end_before_the_recall :
  let r := Examples.run Examples.argv_save Examples.no_instances "HARV" in
  fst r = Raise ZeroDivisionError
  /\ In (E_call (C_evaluate (VFloat 0.5) (VFloat 0.05) (VInt 100)
                   (VStr "out/20190307_140509"))) (trace (snd r))
  /\ In (E_print "0 instances of class A with average precision: 0.0000")
       (trace (snd r))
  /\ (forall site score sp, ~ In (E_call (C_neonRecall site score sp)) (trace (snd r)))
  /\ (forall v, ~ In (E_log_metric "Recall" v) (trace (snd r)))
  /\ (forall v, ~ In (E_log_parameter "Number of Trees" v) (trace (snd r))).
Proof.
  intros r.
  split; [by_vm|].
  subst r. trace_value. simpl.
  split; [tauto|]. split; [tauto|].
  repeat split; intros; intuition discriminate.
Qed.

(** *** Device selection (lines 108-111) *)

Lemma bind_assoc {A B C} (m : M A) (k1 : A -> M B) (k2 : B -> M C) st :
  bind (bind m k1) k2 st = bind m (fun a => bind (k1 a) k2) st.
Proof. unfold bind. destruct (m st) as [[a|e] st1]; reflexivity. Qed.

Lemma lift_run {A} (r : result A) st : lift r st = (r, st).
Proof. reflexivity. Qed.

Lemma replay_env_without_setenv env l :
  Forall (fun e => ~ is_setenv e) l -> replay_env env l = env.
Proof.
  intros H. revert env. induction H as [|e l He _ IH]; intros env; simpl; auto.
  rewrite <- (IH env) at 2. f_equal.
  destruct e; simpl; auto. exfalso. apply He. do 2 eexists. reflexivity.
Qed.

Lemma Forall_prefix {A} (P : A -> Prop) (l1 l2 : list A) :
  Forall P (l1 ++ l2) -> Forall P l1.
Proof. intros H. apply Forall_app in H. tauto. Qed.

(** The assignment of line 110: refused for an id with a NUL character. *)
Lemma setenv_device id st :
  setenv "CUDA_VISIBLE_DEVICES" (VStr id) st
  = if has_char NUL id then (Raise ValueError, st)
    else (Ok tt, {| environ := <["CUDA_VISIBLE_DEVICES" := id]> (environ st);
                    fs := fs st;
                    trace := trace st ++ [E_setenv "CUDA_VISIBLE_DEVICES" id] |}).
Proof.
  unfold setenv.
  change (has_char NUL "CUDA_VISIBLE_DEVICES") with false.
  change (has_char "=" "CUDA_VISIBLE_DEVICES") with false.
  change (String.eqb "CUDA_VISIBLE_DEVICES" "") with false.
  cbn [orb]. rewrite orb_false_r. now destruct (has_char NUL id).
Qed.

(** After the version check, a run with a non-empty GPU id first puts the id
    into the environment; nothing later touches the environment. *)
Lemma main_trace_with_gpu {Model} G (X : Externals Model) cfg args env files n id :
  parse_args (py_int Model X) (py_float Model X)
    (match args with None => tl (sys_argv Model X) | Some a => a end) = Ok n ->
  getattr n "gpu" = VStr id -> id <> "" ->
  let r := main Model G X cfg args (initial_state env files) in
  trace (snd r) = [ E_call C_check_keras_version ]
  \/ exists l, trace (snd r)
               = E_call C_check_keras_version
                 :: E_setenv "CUDA_VISIBLE_DEVICES" id :: l
               /\ Forall (fun e => ~ is_setenv e) l.
Proof.
  intros Hn Hg Hid r. subst r. unfold main, main_setup.
  rewrite !bind_assoc. erewrite bind_Ok by (rewrite lift_run, Hn; reflexivity).
  rewrite !bind_assoc.
  destruct (check_keras_version Model X) as [[]|e] eqn:Hc.
  2:{ left. erewrite bind_Raise by apply delegate_logged. reflexivity. }
  erewrite bind_Ok by apply delegate_logged.
  rewrite !bind_assoc.
  assert (Ht : truthy (getattr n "gpu") = true).
  { rewrite Hg. simpl. destruct (String.eqb_spec id ""); [contradiction|reflexivity]. }
  rewrite Ht, Hg.
  destruct (has_char NUL id) eqn:Hnul.
  { left. erewrite bind_Raise by (rewrite setenv_device, Hnul; reflexivity).
    reflexivity. }
  right. erewrite bind_Ok by (rewrite setenv_device, Hnul; reflexivity).
  match goal with
  | |- context [ snd (?m ?s) ] =>
      assert (Hm : emits (fun e => ~ is_setenv e) m); [ | destruct (emits_grows _ _ s Hm) as (l & Hl & Fl) ]
  end.
  { unfold log_parameter, print.
    emits_steps; try (intros (? & ? & ?); discriminate).
    - apply emits_main_evaluate; intros; intros (? & ? & ?); discriminate.
    - apply (emits_main_mAP G); intros; intros (? & ? & ?); discriminate.
    - apply (emits_main_iou G); intros; intros (? & ? & ?); discriminate.
    - apply (emits_main_recall G); intros; intros (? & ? & ?); discriminate.
    - apply emits_main_ntrees; intros; intros (? & ? & ?); discriminate. }
  exists l. rewrite Hl. simpl. auto.
Qed.

(** C5 (as amended).  When [args.gpu] is absent or the empty string, the run
    never assigns to the environment, which stays as it was; when it is a
    non-empty id, every configuration of the backend session and every load
    of the model in the run comes after the assignment of the id to
    CUDA_VISIBLE_DEVICES, and sees that value. *)
Theorem gpu_id_restricts_devices_first
    Model G (X : Externals Model) cfg args env files n :
  parse_args (py_int Model X) (py_float Model X)
    (match args with None => tl (sys_argv Model X) | Some a => a end) = Ok n ->
  let r := main Model G X cfg args (initial_state env files) in
  (truthy (getattr n "gpu") = false ->
     environ (snd r) = env
     /\ forall e, In e (trace (snd r)) -> ~ is_setenv e)
  /\ (forall id, getattr n "gpu" = VStr id -> id <> "" ->
        forall pre e post,
          trace (snd r) = pre ++ e :: post -> uses_device e ->
          In (E_setenv "CUDA_VISIBLE_DEVICES" id) pre
          /\ replay_env env pre !! "CUDA_VISIBLE_DEVICES" = Some id).
Proof.
  intros Hn r. split.
  - intros Hf.
    assert (Hm : emits (fun e => ~ is_setenv e) (main Model G X cfg args)).
    { apply emits_main; intros; try (intros (? & ? & ?); discriminate).
      exfalso.
      match goal with
      | H1 : parse_args _ _ _ = Ok ?m, H2 : getattr ?m "gpu" = VStr ?s |- _ =>
          rewrite Hn in H1; injection H1 as <-; rewrite H2 in Hf; simpl in Hf;
          destruct (String.eqb_spec s ""); [contradiction|discriminate]
      end. }
    destruct (Hm (initial_state env files)) as (l & Ht & Fl & He & _).
    fold r in Ht, He. simpl in Ht, He. split.
    + rewrite He. now apply replay_env_without_setenv.
    + rewrite Ht. now apply List.Forall_forall.
  - intros id Hg Hid pre e post Ht Hu.
    destruct (main_trace_with_gpu G X cfg args env files n id Hn Hg Hid)
      as [Hs|(l & Hs & Fl)]; fold r in Hs; rewrite Hs in Ht.
    + exfalso. destruct pre as [|x [|y pre]]; try discriminate.
      injection Ht as <- _. destruct Hu as [(? & ?)|(? & ? & ? & ?)]; discriminate.
    + destruct pre as [|x [|y pre]].
      * exfalso. injection Ht as <- _.
        destruct Hu as [(? & ?)|(? & ? & ? & ?)]; discriminate.
      * exfalso. injection Ht as _ <- _.
        destruct Hu as [(? & ?)|(? & ? & ? & ?)]; discriminate.
      * injection Ht as <- <- Hl. split; [simpl; auto|].
        simpl. rewrite replay_env_without_setenv.
        -- apply lookup_insert_eq.
        -- rewrite Hl in Fl. now apply Forall_prefix in Fl.
Qed.

Lemma gpu_id_restricts_devices_first_witness :
  environ (snd (Examples.run Examples.argv_save Examples.three_classes "OSBS")) = ∅
  /\ environ (snd (Examples.run Examples.argv_gpu Examples.three_classes "OSBS"))
       !! "CUDA_VISIBLE_DEVICES" = Some "1".
Proof.
  split.
  - edestruct (gpu_id_restricts_devices_first unit (Examples.globals_at "OSBS")
                 (Examples.world Examples.argv_save Examples.three_classes)
                 Examples.other_config None ∅ ∅) as (H & _).
    + returned.
    + refine (proj1 (H _)). by_vm.
  - by_vm.
Defined.

(** C5, as stated, fails: with [--gpu ""] a value is supplied for the flag,
    the session is configured and the model is loaded, but nothing is
    assigned to CUDA_VISIBLE_DEVICES. *)
Lemma empty_gpu_id_is_not_put_into_the_environment :
  let r := Examples.run Examples.argv_gpu_empty Examples.three_classes "OSBS" in
  (exists n, parse_args Examples.int_of_string Examples.float_of_string
               Examples.argv_gpu_empty = Ok n
             /\ getattr n "gpu" = VStr "")
  /\ fst r = Ok tt
  /\ In (E_call (C_set_session get_session)) (trace (snd r))
  /\ In (E_call (C_load_model (VStr "model.h5") (VStr "resnet50") (VBool false)))
       (trace (snd r))
  /\ environ (snd r) !! "CUDA_VISIBLE_DEVICES" = None
  /\ ~ In (E_setenv "CUDA_VISIBLE_DEVICES" "") (trace (snd r)).
Proof.
  intros r.
  split; [exists (Run.parsed Examples.argv_gpu_empty); split; by_vm|].
  split; [by_vm|].
  split; [subst r; trace_value; simpl; tauto|].
  split; [subst r; trace_value; simpl; tauto|].
  split; [by_vm|].
  subst r. trace_value. simpl. intuition discriminate.
Qed.

(** *** The output directory (lines 113-120 and 131-138) *)

Lemma bind_inv {A B} (m : M A) (k : A -> M B) st b st2 :
  bind m k st = (Ok b, st2) ->
  exists a st1, m st = (Ok a, st1) /\ k a st1 = (Ok b, st2).
Proof.
  unfold bind. destruct (m st) as [[a|e] st1]; [eauto|discriminate].
Qed.

Lemma replay_fs_without_makedirs f l :
  Forall (fun e => ~ is_makedirs e) l -> replay_fs f l = f.
Proof.
  intros H. revert f. induction H as [|e l He _ IH]; intros f; simpl; auto.
  rewrite <- (IH f) at 2. f_equal.
  destruct e; simpl; auto. exfalso. apply He. eexists. reflexivity.
Qed.

(** A step that makes no directory keeps the file system and extends the
    trace. *)
Lemma step_keeps_fs {A} (m : M A) st r st' :
  emits (fun e => ~ is_makedirs e) m -> m st = (r, st') ->
  fs st' = fs st /\ exists l, trace st' = trace st ++ l.
Proof.
  intros Hm E. destruct (Hm st) as (l & Ht & Fl & _ & Hf).
  rewrite E in Ht, Hf. simpl in Ht, Hf. split; eauto.
  rewrite Hf. now apply replay_fs_without_makedirs.
Qed.

Ltac no_makedirs := intros [? ?]; discriminate.

Lemma split_path_nonempty p : Paths.split_path p <> [].
Proof.
  destruct p as [|c p]; simpl; [discriminate|].
  destruct (Ascii.eqb c "/"); [discriminate|].
  destruct (Paths.split_path p); discriminate.
Qed.

Lemma split_path_app_slash a b :
  Paths.split_path (a ++ String "/" b) = Paths.split_path a ++ Paths.split_path b.
Proof.
  induction a as [|c a IH]; simpl; [reflexivity|].
  destruct (Ascii.eqb c "/"); rewrite IH; [reflexivity|].
  pose proof (split_path_nonempty a) as Hne.
  destruct (Paths.split_path a); [contradiction|reflexivity].
Qed.

Lemma split_path_no_slash p : Paths.no_slash p = true -> Paths.split_path p = [p].
Proof.
  induction p as [|c p IH]; simpl; [reflexivity|].
  intros H. apply andb_prop in H as [Hc Hp].
  destruct (Ascii.eqb c "/"); [discriminate|]. now rewrite (IH Hp).
Qed.

Lemma no_slash_app a b :
  Paths.no_slash (a ++ b) = Paths.no_slash a && Paths.no_slash b.
Proof.
  induction a as [|c a IH]; simpl; [reflexivity|].
  rewrite IH. now rewrite andb_assoc.
Qed.

Lemma no_slash_digits u : Paths.no_slash (NilEmpty.string_of_uint u) = true.
Proof. induction u; simpl; auto. Qed.

Lemma no_slash_decimal z : Paths.no_slash (decimal z) = true.
Proof.
  unfold decimal, NilZero.string_of_uint.
  destruct (N.to_uint (Z.to_N z)); try reflexivity; apply no_slash_digits.
Qed.

Lemma no_slash_pad2 z : Paths.no_slash (pad2 z) = true.
Proof.
  unfold pad2. destruct (z <? 10); [|apply no_slash_decimal].
  simpl. apply no_slash_decimal.
Qed.

Lemma no_slash_strftime dt : Paths.no_slash (strftime_Ymd_HMS dt) = true.
Proof.
  unfold strftime_Ymd_HMS.
  rewrite !no_slash_app, no_slash_decimal, !no_slash_pad2. reflexivity.
Qed.

Lemma append_nonempty_r a b : b <> "" -> (a ++ b)%string <> "".
Proof. destruct a; cbn; [auto|discriminate]. Qed.

Lemma strftime_nonempty dt : strftime_Ymd_HMS dt <> "".
Proof.
  unfold strftime_Ymd_HMS. do 3 apply append_nonempty_r. discriminate.
Qed.

Lemma string_app_assoc (a b c : string) : ((a ++ b) ++ c = a ++ (b ++ c))%string.
Proof.
  induction a as [|x a IH]; [reflexivity|].
  change (String x ((a ++ b) ++ c) = String x (a ++ (b ++ c)))%string.
  now rewrite IH.
Qed.

(** A name without separator appended to a path that ends with one is an
    entry of that directory. *)
Lemma is_subdirectory_after_slash q d :
  Paths.no_slash d = true -> d <> "" ->
  Paths.is_subdirectory ((q ++ "/") ++ d) (q ++ "/") = true.
Proof.
  intros Hd Hne. unfold Paths.is_subdirectory, Paths.path_parts.
  rewrite string_app_assoc.
  change ("/" ++ d)%string with (String "/" d).
  change (q ++ "/")%string with (q ++ String "/" "")%string.
  rewrite !split_path_app_slash, (split_path_no_slash d Hd).
  rewrite !List.filter_app. simpl.
  destruct (String.eqb_spec d ""); [contradiction|]. simpl.
  rewrite rev_app_distr. simpl. rewrite app_nil_r, rev_involutive.
  now apply bool_decide_eq_true.
Qed.

(** The part of a path after its last separator takes what is appended
    without separator. *)
Lemma after_last_slash_none p :
  Paths.no_slash p = true -> Posixpath.after_last_slash p = 0%nat.
Proof.
  induction p as [|c p IH]; simpl; auto.
  intros H. apply andb_prop in H as [Hc Hp]. rewrite (IH Hp).
  now destruct (Ascii.eqb c "/").
Qed.

Lemma after_last_slash_append x t :
  Paths.no_slash t = true ->
  Posixpath.after_last_slash (x ++ t) = Posixpath.after_last_slash x.
Proof.
  intros H. induction x as [|c x IH].
  - now apply after_last_slash_none.
  - change (String c x ++ t)%string with (String c (x ++ t)).
    cbn [Posixpath.after_last_slash]. now rewrite IH.
Qed.

Lemma after_last_slash_le p : (Posixpath.after_last_slash p <= String.length p)%nat.
Proof.
  induction p as [|c p IH]; simpl; [lia|].
  destruct (Posixpath.after_last_slash p); [destruct (Ascii.eqb c "/")|]; lia.
Qed.

Lemma length_append x y :
  String.length (x ++ y) = (String.length x + String.length y)%nat.
Proof. induction x as [|c x IH]; simpl; auto. Qed.

Lemma length_substring s : forall n m,
  (n + m <= String.length s)%nat -> String.length (substring n m s) = m.
Proof.
  induction s as [|c s IH]; intros n m H; simpl in H.
  - destruct n, m; simpl; lia.
  - destruct n as [|n]; simpl.
    + destruct m as [|m]; simpl; [reflexivity|]. rewrite IH; lia.
    + apply IH. lia.
Qed.

Lemma length_decimal z : (1 <= String.length (decimal z))%nat.
Proof.
  unfold decimal, NilZero.string_of_uint.
  destruct (N.to_uint (Z.to_N z)); simpl; lia.
Qed.

Lemma length_strftime dt : (2 <= String.length (strftime_Ymd_HMS dt))%nat.
Proof.
  unfold strftime_Ymd_HMS. rewrite !length_append.
  pose proof (length_decimal (year dt)). simpl (String.length "_"). lia.
Qed.

(** The last component of the run directory is neither empty nor ['.']. *)
Lemma run_directory_tail sp dt :
  snd (Posixpath.split (sp ++ strftime_Ymd_HMS dt)) <> ""
  /\ snd (Posixpath.split (sp ++ strftime_Ymd_HMS dt)) <> ".".
Proof.
  assert (H : (2 <= String.length (snd (Posixpath.split (sp ++ strftime_Ymd_HMS dt))))%nat).
  { unfold Posixpath.split. cbn [snd].
    rewrite after_last_slash_append by apply no_slash_strftime.
    pose proof (after_last_slash_le sp) as Hle.
    pose proof (length_strftime dt) as Hts.
    rewrite length_substring; rewrite length_append; lia. }
  split; intros E; rewrite E in H; simpl in H; lia.
Qed.

(** When [os.makedirs] returns for a name whose last component is neither
    empty nor ['.'], its last act was to make the directory of that name. *)
Lemma makedirs_returns o d name st st' :
  makedirs o d name st = (Ok tt, st') ->
  snd (Posixpath.split name) <> "" -> snd (Posixpath.split name) <> "." ->
  name ∈ fs st' /\ exists l, trace st' = trace st ++ l ++ [E_makedirs name].
Proof.
  destruct d as [|d]; [discriminate|]. cbn [makedirs].
  destruct (Posixpath.split name) as [head tail]. cbn [snd]. intros H Ht Hd.
  apply String.eqb_neq in Ht, Hd. rewrite Ht in H.
  apply bind_inv in H as (done & s1 & H1 & H2).
  assert (Hs1 : done = false /\ exists l, trace s1 = trace st ++ l).
  { split.
    - destruct (negb (String.eqb head "") && negb (String.eqb tail ""));
        [|now injection H1].
      apply bind_inv in H1 as (e & s0 & _ & H1).
      destruct (negb e); [|now injection H1].
      apply bind_inv in H1 as (? & s0' & _ & H1). injection H1 as <- _.
      now rewrite Hd.
    - match type of H1 with ?m st = _ =>
        assert (Hm : emits (fun _ => True) m)
      end.
      { emits_steps; auto. apply emits_pass_FileExistsError.
        now apply emits_makedirs. }
      destruct (Hm st) as (l & Hl & _). rewrite H1 in Hl. eauto. }
  destruct Hs1 as [-> (l & Hl)].
  unfold mkdir in H2. destruct (o (fs s1) name); [|discriminate].
  injection H2 as <-. cbn [fs trace]. split.
  - apply elem_of_union. left. now apply elem_of_singleton.
  - exists l. now rewrite Hl, <- app_assoc.
Qed.

Lemma main_setup_directory {Model} G (X : Externals Model) cfg args st0 c st1 sp :
  main_setup Model G X cfg args st0 = (Ok c, st1) ->
  getattr (c_args c) "save_path" = VStr sp ->
  let dir := (sp ++ strftime_Ymd_HMS (datetime_now Model X))%string in
  c_dirname c = strftime_Ymd_HMS (datetime_now Model X)
  /\ dir ∈ fs st1
  /\ (dir ∉ fs st0 -> exists l1 l2, trace st1 = trace st0 ++ l1 ++ E_makedirs dir :: l2).
Proof.
  intros H Hsp dir. unfold main_setup in H.
  apply bind_inv in H as (n & s1 & H1 & H).
  apply bind_inv in H as (? & s2 & H2 & H).
  apply bind_inv in H as (? & s3 & H3 & H).
  apply bind_inv in H as (? & s4 & H4 & H).
  apply bind_inv in H as (? & s5 & H5 & H).
  apply bind_inv in H as (? & s6 & H6 & H).
  apply bind_inv in H as (g & s7 & H7 & H).
  apply bind_inv in H as (? & s8 & H8 & H).
  apply bind_inv in H as (mdl & s9 & H9 & H).
  apply bind_inv in H as (sm & s10 & H10 & H).
  apply bind_inv in H as (? & s11 & H11 & H).
  injection H as <- <-. simpl in Hsp. simpl.
  apply step_keeps_fs in H1 as (F1 & l1 & T1); [|emits_steps].
  apply step_keeps_fs in H2 as (F2 & l2 & T2); [|emits_steps; no_makedirs].
  apply step_keeps_fs in H3 as (F3 & l3 & T3); [|emits_steps; no_makedirs].
  apply step_keeps_fs in H4 as (F4 & l4 & T4); [|emits_steps; no_makedirs].
  apply step_keeps_fs in H5 as (F5 & l5 & T5); [|emits_steps; no_makedirs].
  apply step_keeps_fs in H7 as (F7 & l7 & T7); [|emits_steps; no_makedirs].
  apply step_keeps_fs in H8 as (F8 & l8 & T8); [|emits_steps; no_makedirs].
  apply step_keeps_fs in H9 as (F9 & l9 & T9); [|emits_steps; no_makedirs].
  apply step_keeps_fs in H10 as (F10 & l10 & T10); [|emits_steps; no_makedirs].
  apply step_keeps_fs in H11 as (F11 & l11 & T11); [|emits_steps; no_makedirs].
  rewrite Hsp in H6. simpl in H6.
  assert (F05 : fs s5 = fs st0) by congruence.
  assert (T05 : trace s5 = trace st0 ++ (l1 ++ l2 ++ l3 ++ l4 ++ l5)).
  { rewrite T5, T4, T3, T2, T1, <- !app_assoc. reflexivity. }
  assert (T611 : trace s11 = trace s6 ++ (l7 ++ l8 ++ l9 ++ l10 ++ l11)).
  { rewrite T11, T10, T9, T8, T7, <- !app_assoc. reflexivity. }
  assert (F611 : fs s11 = fs s6) by congruence.
  split; [reflexivity|].
  unfold bind at 1, lift at 1 in H6. unfold bind at 1, path_exists at 1 in H6.
  cbn [fst snd] in H6. fold dir in H6.
  destruct (bool_decide (dir ∈ fs s5)) eqn:Ex; cbn [negb] in H6.
  - injection H6 as Hs6. subst s6. apply bool_decide_eq_true in Ex.
    split; [congruence|]. intros Hn. rewrite F05 in Ex. contradiction.
  - destruct (run_directory_tail sp (datetime_now Model X)) as [Ht Hd].
    fold dir in Ht, Hd.
    match type of H6 with _ = (Ok ?u, _) => destruct u end.
    destruct (makedirs_returns _ _ _ _ _ H6 Ht Hd) as (Hin & l6 & T6). split.
    + now rewrite F611.
    + intros _. exists (l1 ++ l2 ++ l3 ++ l4 ++ l5 ++ l6),
        (l7 ++ l8 ++ l9 ++ l10 ++ l11).
      rewrite T611, T6, T05, <- !app_assoc. reflexivity.
Qed.

(** C8 (as amended).  When [--save-path] is given, the directory handed to
    the evaluator is named by the save path immediately followed by the
    timestamp; when the setup returns, that directory exists, having been made
    during the setup, before any call of the evaluator, if it did not exist
    at the start; and it is a subdirectory of the save path directory when
    the save path ends with a separator. *)
Theorem annotated_images_directory
    Model G (X : Externals Model) cfg args env files c st1 sp :
  main_setup Model G X cfg args (initial_state env files) = (Ok c, st1) ->
  getattr (c_args c) "save_path" = VStr sp ->
  let dir := (sp ++ strftime_Ymd_HMS (datetime_now Model X))%string in
  let a := c_args c in
  dir ∈ fs st1
  /\ (dir ∉ files -> In (E_makedirs dir) (trace st1))
  /\ (forall e, In e (trace st1) -> ~ is_evaluate_call e)
  /\ main_evaluate Model X c st1 =
       (evaluate Model X (c_generator c) (c_model c) (getattr a "iou_threshold")
          (getattr a "score_threshold") (getattr a "max_detections") (VStr dir),
        logged st1 [ E_call (C_evaluate (getattr a "iou_threshold")
                               (getattr a "score_threshold")
                               (getattr a "max_detections") (VStr dir)) ])
  /\ (ends_with_slash sp -> Paths.is_subdirectory dir sp = true).
Proof.
  intros H Hsp dir a.
  destruct (main_setup_directory G X cfg args _ c st1 sp H Hsp) as (Hd & Hin & Hmk).
  fold dir in Hin, Hmk. split; [exact Hin|]. split; [|split; [|split]].
  - intros Hn. destruct (Hmk Hn) as (l1 & l2 & Ht). rewrite Ht. simpl.
    apply in_or_app. right. simpl. auto.
  - pose proof (emits_from_start (fun e => ~ is_evaluate_call e)
                  (main_setup Model G X cfg args) env files) as F.
    rewrite H in F. simpl in F. apply List.Forall_forall. apply F.
    apply emits_main_setup; intros; intros (? & ? & ? & ? & ?); try discriminate.
    match goal with E : E_call _ = E_call _ |- _ => injection E as -> end.
    assumption.
  - subst a dir. unfold main_evaluate. rewrite Hsp, Hd. simpl.
    erewrite bind_Ok by reflexivity. apply delegate_logged.
  - intros [q ->]. apply is_subdirectory_after_slash.
    + apply no_slash_strftime.
    + apply strftime_nonempty.
Qed.

Lemma annotated_images_directory_witness :
  "out/20190307_140509" ∈
    fs (snd (main_setup unit (Examples.globals_at "OSBS")
               (Examples.world Examples.argv_save Examples.three_classes)
               Examples.other_config None Examples.start))
  /\ Paths.is_subdirectory "out/20190307_140509" "out/" = true.
Proof.
  edestruct (annotated_images_directory unit (Examples.globals_at "OSBS")
               (Examples.world Examples.argv_save Examples.three_classes)
               Examples.other_config None ∅ ∅) as (Hin & _ & _ & _ & Hsub).
  - returned.
  - instantiate (1 := "out/"). by_vm.
  - split.
    + exact Hin.
    + apply Hsub. exists "out". reflexivity.
Defined.

(** C8, as stated, fails: with [--save-path out] the images go to
    "out20190307_140509", which is made next to "out", not inside it. *)
Lemma save_path_without_separator_is_a_sibling :
  let r := Examples.run Examples.argv_save_noslash Examples.three_classes "OSBS" in
  fst r = Ok tt
  /\ In (E_makedirs "out20190307_140509") (trace (snd r))
  /\ In (E_call (C_evaluate (VFloat 0.5) (VFloat 0.05) (VInt 100)
                   (VStr "out20190307_140509"))) (trace (snd r))
  /\ Paths.is_subdirectory "out20190307_140509" "out" = false.
Proof.
  intros r.
  split; [by_vm|].
  split; [subst r; trace_value; simpl; tauto|].
  split; [subst r; trace_value; simpl; tauto|].
  by_vm.
Qed.

(** *** The optional save path (lines 119 and 137) *)

(** Without a save path the evaluator is never reached: the argument
    [args.save_path + dirname] of its call raises [TypeError]. *)
Lemma main_without_save_path {Model} G (X : Externals Model) cfg args env files c st1 :
  main_setup Model G X cfg args (initial_state env files) = (Ok c, st1) ->
  getattr (c_args c) "save_path" = VNone ->
  main Model G X cfg args (initial_state env files) = (Raise TypeError, st1)
  /\ forall e, In e (trace st1) -> ~ is_evaluate_call e.
Proof.
  intros H Hsp. split.
  - unfold main. erewrite bind_Ok by exact H.
    erewrite bind_Raise; [reflexivity|].
    unfold main_evaluate. rewrite Hsp. reflexivity.
  - pose proof (emits_from_start (fun e => ~ is_evaluate_call e)
                  (main_setup Model G X cfg args) env files) as F.
    rewrite H in F. simpl in F. apply List.Forall_forall. apply F.
    apply emits_main_setup; intros; intros (? & ? & ? & ? & ?); try discriminate.
    match goal with E : E_call _ = E_call _ |- _ => injection E as -> end.
    assumption.
Qed.

(** C7 (the code departs from it).  A run without [--save-path], in which
    every delegated call would return, parses its arguments with
    [save_path = None], guards the creation of the directory against [None]
    (line 119), and then stops with [TypeError] at [args.save_path + dirname]
    (line 137): the evaluator is not invoked, no metric is logged and the exit
    status is 1. *)
Theorem run_without_save_path_stops_before_the_evaluator :
  let r := Examples.run Examples.argv_plain Examples.three_classes "OSBS" in
  (exists n, parse_args Examples.int_of_string Examples.float_of_string
               Examples.argv_plain = Ok n
             /\ getattr n "save_path" = VNone)
  /\ fst r = Raise TypeError
  /\ exit_status (fst r) = 1
  /\ (forall e, In e (trace (snd r)) ->
        ~ is_evaluate_call e /\ forall name, ~ is_metric name e).
Proof.
  intros r.
  split; [exists (Run.parsed Examples.argv_plain); split; by_vm|].
  split; [by_vm|].
  split; [by_vm|].
  subst r. trace_value. intros e He. simpl in He.
  repeat (destruct He as [<-|He];
          [split; [intros (? & ? & ? & ? & ?)|intros ? (? & ?)]; discriminate|]).
  contradiction.
Qed.

(** *** The generator (lines 51-68) *)

(** What [create_generator] returns is made of its first argument and of the
    globals only. *)
Lemma create_generator_returns G n config st g st' :
  create_generator G n config st = (Ok g, st') ->
  exists single_tile rgb_tile_dir train test,
    getitem (DeepForest_config G) "single_tile" = Ok single_tile
    /\ getitem (DeepForest_config G) "rgb_tile_dir" = Ok rgb_tile_dir
    /\ split_training (preprocess G) (getattr n "annotations")
         (DeepForest_config G) single_tile = Ok (train, test)
    /\ g = {| csv_data_file := getattr n "annotations";
              data := test;
              batch_size := getattr n "batch_size";
              base_dir := rgb_tile_dir;
              gen_config := DeepForest_config G;
              group_method := "none";
              shuffle_groups := false |}.
Proof.
  unfold create_generator. intros H.
  apply bind_inv in H as (single_tile & s1 & H1 & H).
  apply bind_inv in H as ([train test] & s2 & H2 & H).
  apply bind_inv in H as (rgb & s3 & H3 & H).
  injection H as <- _.
  rewrite lift_run in H1, H3. rewrite delegate_logged in H2.
  injection H1 as H1 _. injection H2 as H2 _. injection H3 as H3 _.
  exists single_tile, rgb, train, test. auto.
Qed.

(** C9.  The generator is constructed with grouping disabled
    ([group_method="none"]) and shuffling disabled ([shuffle_groups=False]).
    Two runs over the same annotations, configuration and split construct
    the same generator, whatever the state of the process, and, in the batch
    order described by the specification, enumerate the same batches in the
    same order whatever the state of the random number generator. *)
Theorem evaluation_batches_are_deterministic
    G n config1 config2 st1 st2 g1 g2 st1' st2' :
  create_generator G n config1 st1 = (Ok g1, st1') ->
  create_generator G n config2 st2 = (Ok g2, st2') ->
  group_method g1 = "none"
  /\ shuffle_groups g1 = false
  /\ g1 = g2
  /\ forall shuffle1 shuffle2 random_state1 random_state2,
       OnTheFlyGeneratorModel.batches shuffle1 random_state1 g1
       = OnTheFlyGeneratorModel.batches shuffle2 random_state2 g2.
Proof.
  intros H1 H2.
  apply create_generator_returns in H1 as (t1 & r1 & tr1 & te1 & A1 & B1 & C1 & ->).
  apply create_generator_returns in H2 as (t2 & r2 & tr2 & te2 & A2 & B2 & C2 & ->).
  rewrite A1 in A2. injection A2 as <-.
  rewrite B1 in B2. injection B2 as <-.
  rewrite C1 in C2. injection C2 as <- <-.
  repeat split.
Qed.

Lemma evaluation_batches_are_deterministic_witness :
  OnTheFlyGeneratorModel.batches (fun A _ l => rev l) 7 Examples.the_generator
  = OnTheFlyGeneratorModel.batches (fun A _ l => l) 11 Examples.the_generator.
Proof.
  edestruct (evaluation_batches_are_deterministic (Examples.globals_at "OSBS")
               {[ "annotations" := VStr "ann.csv"; "batch_size" := VInt 1 ]}
               Examples.the_config Examples.other_config
               Examples.start (initial_state {[ "HOME" := "/root" ]} ∅))
    as (_ & _ & _ & H).
  - vm_compute. reflexivity.
  - vm_compute. reflexivity.
  - apply (H (fun A _ l => rev l) (fun A _ l => l) 7 11).
Defined.

(** C10.  [create_generator] ignores its [config] parameter: for every
    namespace and any two configurations passed as [config], it performs the
    same delegated call and returns the same generator; what it reads are the
    globals [DeepForest_config] and [preprocess], from which the generator's
    configuration, image directory and data come. *)
Theorem create_generator_ignores_config G n config1 config2 st :
  create_generator G n config1 st = create_generator G n config2 st
  /\ forall g st', create_generator G n config1 st = (Ok g, st') ->
       gen_config g = DeepForest_config G
       /\ getitem (DeepForest_config G) "rgb_tile_dir" = Ok (base_dir g)
       /\ exists single_tile train,
            split_training (preprocess G) (getattr n "annotations")
              (DeepForest_config G) single_tile = Ok (train, data g).
Proof.
  split; [reflexivity|].
  intros g st' H.
  apply create_generator_returns in H as (t & r & tr & te & A & B & C & ->).
  simpl. eauto.
Qed.

Import CommandLine Run.

(** ** The command line *)

(** *** Exits of the parser *)

Lemma exits_usage : exits (SystemExit 2).
Proof. left. reflexivity. Qed.

(** The engine raises what the actions raise, and usage errors of its
    own: [ex] is what a run may end with. *)
Section Exits.

Variable ex : exn -> Prop.
Hypothesis ex_usage : ex (SystemExit 2).

Lemma outcome_rbind {A B} (Q1 : A -> Prop) (Q2 : B -> Prop) (r : result A)
    (f : A -> result B) :
  outcome_in ex Q1 r -> (forall x, Q1 x -> outcome_in ex Q2 (f x)) -> outcome_in ex Q2 (rbind r f).
Proof. destruct r; simpl; auto. Qed.

Lemma outcome_weaken {A} (Q1 Q2 : A -> Prop) (r : result A) :
  outcome_in ex Q1 r -> (forall x, Q1 x -> Q2 x) -> outcome_in ex Q2 r.
Proof. destruct r; simpl; auto. Qed.

Lemma outcome_usage_error {A} (Q : A -> Prop) : outcome_in ex Q usage_error.
Proof. exact ex_usage. Qed.

(** *** What the patterns match *)

Lemma m_star_sound {R} cls (k : list pchar -> option R) s r :
  m_star cls k s = Some r ->
  exists s1 s2, s = s1 ++ s2 /\ Forall (fun c => in_class cls c = true) s1
                /\ k s2 = Some r.
Proof.
  revert r. induction s as [|c s IH]; intros r H; simpl in H.
  - exists [], []. repeat split; auto.
  - destruct (in_class cls c) eqn:Ec.
    + destruct (m_star cls k s) as [r'|] eqn:E.
      * injection H as <-. destruct (IH r' eq_refl) as (s1 & s2 & -> & F & Hk).
        exists (c :: s1), s2. repeat split; auto.
      * exists [], (c :: s). repeat split; auto.
    + exists [], (c :: s). repeat split; auto.
Qed.

Lemma m_items_sound {R} items : forall (k : list pchar -> option R) s r,
  m_items items k s = Some r ->
  exists s1 s2, s = s1 ++ s2 /\ denote items s1 /\ k s2 = Some r.
Proof.
  induction items as [|[c|cls] items IH]; intros k s r H; simpl in H.
  - exists [], s. repeat split; auto.
  - destruct s as [|x s]; [discriminate|].
    destruct (pchar_eqb x c) eqn:E; [|discriminate].
    assert (x = c) by (destruct x, c; simpl in E; congruence). subst x.
    destruct (IH k s r H) as (s1 & s2 & -> & D & Hk).
    exists (c :: s1), s2. repeat split; auto. simpl. eauto.
  - apply m_star_sound in H as (s0 & s' & -> & F & H).
    destruct (IH k s' r H) as (s1 & s2 & -> & D & Hk).
    exists (s0 ++ s1), s2. rewrite app_assoc. repeat split; auto.
    simpl. eauto.
Qed.

Lemma m_groups_sound groups : forall s counts,
  m_groups groups s = Some counts ->
  exists slices rest,
    Forall2 denote groups slices
    /\ counts = map (@length _) slices
    /\ s = concat slices ++ rest.
Proof.
  induction groups as [|g groups IH]; intros s counts H; simpl in H.
  - injection H as <-. exists [], s. split; [constructor|]. split; reflexivity.
  - apply m_items_sound in H as (s1 & s2 & -> & D & H).
    destruct (m_groups groups s2) as [ls|] eqn:E; [|discriminate].
    injection H as <-.
    destruct (IH s2 ls E) as (slices & rest & F2 & -> & ->).
    exists (s1 :: slices), rest. split; [constructor; auto|]. split.
    + simpl. f_equal. rewrite !length_app. lia.
    + simpl. now rewrite app_assoc.
Qed.

(** *** Classification *)

Lemma in_option_string_actions P s a :
  In (s, a) (option_string_actions P) -> In a P /\ is_optional a = true.
Proof.
  unfold option_string_actions. rewrite in_flat_map. intros (b & Hb & H).
  apply in_map_iff in H as (o & E & Ho). injection E as <- <-.
  split; auto. unfold is_optional. destruct (option_strings b); [destruct Ho|reflexivity].
Qed.

Lemma assoc_in {A} k (l : list (string * A)) v : assoc k l = Some v -> In (k, v) l.
Proof.
  induction l as [|[k' v'] l IH]; simpl; [discriminate|].
  destruct (String.eqb_spec k k') as [->|]; [intros [= ->]; auto|auto].
Qed.

Lemma get_option_tuples_ok P s :
  Forall (fun t => token_ok P (s, C_O t)) (get_option_tuples P s).
Proof.
  unfold get_option_tuples.
  destruct (is_dash (second_char s)).
  - destruct (match split_once "=" s with
              | Some (p, e) => (p, Some e) | None => (s, None) end) as [p e].
    apply List.Forall_forall. intros t Ht. apply in_flat_map in Ht as ([o a] & Hin & Ht).
    destruct (String.prefix p o); [|destruct Ht].
    destruct Ht as [<-|[]]. exact Hin.
  - apply List.Forall_forall. intros t Ht. apply in_flat_map in Ht as ([o a] & Hin & Ht).
    destruct (String.eqb o (substring 0 2 s)).
    + destruct Ht as [<-|[]]. exact Hin.
    + destruct (String.prefix s o); [|destruct Ht]. destruct Ht as [<-|[]]. exact Hin.
Qed.

Lemma parse_optional_ok P s :
  outcome_in ex (fun t => match t with
                    | Some t => token_ok P (s, C_O t)
                    | None => True
                    end) (parse_optional P s).
Proof.
  unfold parse_optional.
  destruct (String.eqb s ""); [exact I|].
  destruct (negb (is_dash (first_char s))); [exact I|].
  destruct (assoc s (option_string_actions P)) as [a|] eqn:Ea.
  { simpl. now apply assoc_in in Ea. }
  destruct (String.length s =? 1)%nat; [exact I|].
  destruct (split_once "=" s) as [[o e]|].
  - destruct (assoc o (option_string_actions P)) as [a|] eqn:Eo.
    { simpl. now apply assoc_in in Eo. }
    pose proof (get_option_tuples_ok P s) as F.
    destruct (get_option_tuples P s) as [|t [|t' l]].
    + destruct (_ && _); [exact I|]. destruct (contains_char _ _); exact I.
    + now inversion F.
    + apply outcome_usage_error.
  - pose proof (get_option_tuples_ok P s) as F.
    destruct (get_option_tuples P s) as [|t [|t' l]].
    + destruct (_ && _); [exact I|]. destruct (contains_char _ _); exact I.
    + now inversion F.
    + apply outcome_usage_error.
Qed.

Lemma filter_dash_arguments (rest : list string) :
  List.filter is_dash_token (combine rest (map (fun _ => C_A) rest)) = [].
Proof. induction rest; simpl; auto. Qed.

Lemma classify_ok P argv :
  outcome_in ex (fun cs => length cs = length argv /\ tokens_ok P (combine argv cs))
    (classify P argv).
Proof.
  induction argv as [|a rest IH]; simpl.
  - split; [reflexivity|]. split; [constructor|simpl; lia].
  - destruct (String.eqb_spec a "--") as [->|Hne]; simpl.
    + rewrite length_map. split; [reflexivity|]. split.
      * constructor; [reflexivity|].
        apply List.Forall_forall. intros [s c] Hin.
        apply in_combine_r in Hin. apply in_map_iff in Hin as (? & <- & _). exact I.
      * unfold is_dash_token at 1. simpl. rewrite filter_dash_arguments. simpl. lia.
    + eapply outcome_rbind; [apply parse_optional_ok|]. intros t Ht.
      eapply outcome_rbind; [exact IH|]. intros cs [Hl [F Hc]]. simpl.
      split; [now rewrite Hl|]. split.
      * constructor; auto. destruct t; [exact Ht|exact I].
      * destruct t; simpl; exact Hc.
Qed.

Lemma tokens_ok_tail P t toks : tokens_ok P (t :: toks) -> tokens_ok P toks.
Proof.
  intros [F Hc]. split; [now inversion F|].
  simpl in Hc. destruct (is_dash_token t); simpl in Hc; lia.
Qed.

Lemma tokens_ok_skipn P n toks : tokens_ok P toks -> tokens_ok P (skipn n toks).
Proof.
  revert toks. induction n as [|n IH]; intros toks H; [exact H|].
  destruct toks as [|t toks]; [exact H|]. simpl. apply IH. eapply tokens_ok_tail, H.
Qed.

Lemma tokens_ok_drop_while P f toks :
  tokens_ok P toks -> tokens_ok P (drop_while f toks).
Proof.
  induction toks as [|t toks IH]; intros H; simpl; [exact H|].
  destruct (f t); [apply IH; eapply tokens_ok_tail, H|exact H].
Qed.

Lemma tokens_ok_firstn P n toks : tokens_ok P toks -> tokens_ok P (firstn n toks).
Proof.
  intros [F Hc]. split.
  - rewrite <- (firstn_skipn n toks) in F. now apply Forall_app in F.
  - rewrite <- (firstn_skipn n toks), List.filter_app, length_app in Hc. lia.
Qed.

(** *** Argument counts *)

Lemma match_argument_exits a pat : outcome_in ex (fun _ => True) (match_argument a pat).
Proof.
  unfold match_argument.
  destruct (m_groups _ _) as [[|n l]|]; try exact I; apply outcome_usage_error.
Qed.

Lemma match_argument_optional a pat n :
  is_optional a = true -> match_argument a pat = Ok n ->
  match a_nargs a with
  | N_one => n = 1%nat /\ exists pat', pat = PA :: pat'
  | N_zero => n = 0%nat
  | N_parser => (1 <= n <= length pat)%nat
  end.
Proof.
  intros Ho. unfold match_argument, get_nargs_pattern. rewrite Ho.
  destruct (m_groups _ pat) as [[|n' l]|] eqn:E; try discriminate.
  intros [= ->]. apply m_groups_sound in E as (slices & rest & F & Hc & ->).
  inversion F as [|g sl gs sls D F']. subst. inversion F'. subst.
  injection Hc as -> _. simpl. rewrite app_nil_r.
  destruct (a_nargs a); simpl in D.
  - destruct D as (s' & -> & ->). split; eauto.
  - now subst sl.
  - destruct D as (s' & -> & _). simpl. rewrite length_app. simpl. lia.
Qed.

Lemma dash_tokens_pattern toks :
  length (List.filter is_dash_token toks)
  = length (List.filter (fun c => pchar_eqb c PD) (pattern_of toks)).
Proof.
  induction toks as [|[s c] toks IH]; simpl; auto.
  unfold is_dash_token at 1. simpl. destruct c; simpl; auto.
Qed.

Lemma all_dashes s :
  Forall (fun c => in_class [PD] c = true) s ->
  List.filter (fun c => pchar_eqb c PD) s = s.
Proof.
  induction 1 as [|c s Hc _ IH]; simpl; auto.
  unfold in_class in Hc. simpl in Hc. rewrite orb_false_r in Hc. now rewrite Hc, IH.
Qed.

Lemma remove_first_length x l : (length (remove_first x l) <= length l)%nat.
Proof.
  induction l as [|y l IH]; simpl; auto. destruct (String.eqb x y); simpl; lia.
Qed.

Lemma in_class_dash c : in_class [PD] c = true -> c = PD.
Proof. destruct c; simpl; congruence. Qed.

Lemma pchar_of_dash c : pchar_of c = PD -> c = C_dash.
Proof. destruct c; simpl; congruence. Qed.

(** A positional with one argument gets one string, and the ['--'] that
    came with it is dropped. *)
Lemma single_argument_strings P toks :
  tokens_ok P toks ->
  denote [RStar [PD]; RChar PA; RStar [PD]] (pattern_of toks) ->
  (length (remove_first "--" (map fst toks)) <= 1)%nat.
Proof.
  intros [F Hc] (s1 & s2 & E & F1 & s3 & -> & (s4 & s5 & -> & F4 & ->)).
  rewrite app_nil_r in E.
  rewrite dash_tokens_pattern, E, List.filter_app in Hc. cbn [List.filter pchar_eqb] in Hc.
  rewrite (all_dashes _ F1), (all_dashes _ F4), length_app in Hc.
  assert (Hl : (length toks = length s1 + S (length s4))%nat).
  { unfold pattern_of in E. apply (f_equal (@length _)) in E.
    rewrite length_map, length_app in E. exact E. }
  destruct s1 as [|d1 s1]; destruct s4 as [|d4 s4]; cbn [length] in Hc, Hl; try lia.
  - etransitivity; [apply remove_first_length|]. rewrite length_map. lia.
  - destruct s4; cbn [length] in Hc, Hl; try lia.
    destruct toks as [|[x1 c1] [|[x2 c2] [|? ?]]]; try discriminate Hl.
    cbn [pattern_of map snd app] in E. injection E as E1 E2.
    inversion F4 as [|? ? Hd _]. subst. apply in_class_dash, pchar_of_dash in Hd.
    subst c2.
    inversion F as [|? ? _ F']. inversion F' as [|? ? H2 _].
    unfold token_ok in H2. cbn [fst snd] in H2. subst x2.
    cbn [map fst remove_first]. rewrite String.eqb_refl.
    destruct (String.eqb "--" x1); cbn [length]; lia.
  - destruct s1; cbn [length] in Hc, Hl; try lia.
    destruct toks as [|[x1 c1] [|[x2 c2] [|? ?]]]; try discriminate Hl.
    cbn [pattern_of map snd app] in E. injection E as E1 E2.
    inversion F1 as [|? ? Hd _]. subst. apply in_class_dash, pchar_of_dash in Hd.
    subst c1.
    inversion F as [|? ? H1 _].
    unfold token_ok in H1. cbn [fst snd] in H1. subst x1.
    cbn [map fst remove_first]. rewrite String.eqb_refl. cbn [length]. lia.
Qed.

(** *** The loop of [parse_known_args] *)

Lemma drop_while_skipn {A} (f : A -> bool) l : exists k, drop_while f l = skipn k l.
Proof.
  induction l as [|x l [k IH]]; [now exists 0%nat|]. simpl.
  destruct (f x); [exists (S k); exact IH|now exists 0%nat].
Qed.

Lemma pattern_of_firstn n toks : pattern_of (firstn n toks) = firstn n (pattern_of toks).
Proof. unfold pattern_of. now rewrite firstn_map. Qed.

Lemma pattern_of_skipn n toks : pattern_of (skipn n toks) = skipn n (pattern_of toks).
Proof. unfold pattern_of. now rewrite skipn_map. Qed.

Lemma match_partial_from_sound i : forall acts pat counts,
  match_partial_from i acts pat = counts ->
  counts = []
  \/ exists j, m_groups (map get_nargs_pattern (firstn j acts)) pat = Some counts.
Proof.
  induction i as [|i IH]; intros acts pat counts H; simpl in H; [now left|].
  destruct (m_groups _ pat) as [c|] eqn:E.
  - right. exists (S i). now subst.
  - now apply IH.
Qed.

Lemma Forall_skipn {A} (Q : A -> Prop) n l : Forall Q l -> Forall Q (skipn n l).
Proof.
  intros F. rewrite <- (firstn_skipn n l) in F. now apply Forall_app in F.
Qed.

(** The pattern of a positional matches at least one argument string. *)
Lemma positional_slice a sl :
  is_optional a = false -> a_nargs a <> N_zero ->
  denote (get_nargs_pattern a) sl -> (1 <= length sl)%nat.
Proof.
  intros Ho Hn D. unfold get_nargs_pattern in D. rewrite Ho in D.
  destruct (a_nargs a); [|congruence|];
    destruct D as (s1 & s2 & -> & _ & s3 & -> & _);
    rewrite length_app; simpl; lia.
Qed.

(** The engine run on a parser [Eng], on a command line that only refers to
    the actions [P] of [Eng]: flags are optionals, sub-parsers are
    positional, and [Inv] is an invariant of the argument strings ahead,
    the namespace and the actions seen that every action of [P] keeps. *)
Section Loop.

Variable py_int : string -> option Z.
Variable py_float : string -> option float.
Variable sub : Action -> list string -> Namespace -> result Namespace.
Variables Eng P : Parser.
Variable Inv : list (string * tokclass) -> Namespace -> list string -> Prop.

Hypothesis P_kinds : forall a, In a P ->
  match a_nargs a with
  | N_one => True
  | N_zero => is_optional a = true
  | N_parser => is_optional a = false
  end.

Hypothesis Inv_skipn : forall k rest n seen,
  Inv rest n seen -> Inv (skipn k rest) n seen.

(** An optional leaves the argument strings ahead to the loop. *)
Hypothesis optional_ok : forall a args rest n seen,
  In a P -> is_optional a = true -> Inv rest n seen -> args_ok a args ->
  outcome_in ex (fun n' => Inv rest n' (dest a :: seen))
    (rbind (get_values py_int py_float a args) (fun v => call_action sub a v n)).

(** A positional takes the first [k] of them. *)
Hypothesis positional_ok : forall a k rest n seen,
  In a P -> is_optional a = false -> Inv rest n seen ->
  (1 <= k <= length rest)%nat -> args_ok a (map fst (firstn k rest)) ->
  outcome_in ex (fun n' => Inv (skipn k rest) n' (dest a :: seen))
    (rbind (get_values py_int py_float a (map fst (firstn k rest)))
       (fun v => call_action sub a v n)).

Lemma take_optional_ok a args rest st :
  In a P -> is_optional a = true -> state_ok P Inv rest st -> args_ok a args ->
  outcome_in ex (state_ok P Inv rest) (take_action py_int py_float sub a args st).
Proof.
  intros Ha Ho [Hi Hp] Hargs. unfold take_action.
  pose proof (optional_ok a args rest (ns st) (seen_actions st) Ha Ho Hi Hargs) as H.
  destruct (get_values py_int py_float a args) as [v|e]; [|exact H].
  simpl in H |- *. destruct (call_action sub a v (ns st)) as [n'|e]; [|exact H].
  simpl. split; assumption.
Qed.

Lemma take_positional_ok a k rest st :
  In a P -> is_optional a = false -> state_ok P Inv rest st ->
  (1 <= k <= length rest)%nat -> args_ok a (map fst (firstn k rest)) ->
  outcome_in ex (state_ok P Inv (skipn k rest))
    (take_action py_int py_float sub a (map fst (firstn k rest)) st).
Proof.
  intros Ha Ho [Hi Hp] Hk Hargs. unfold take_action.
  pose proof (positional_ok a k rest (ns st) (seen_actions st) Ha Ho Hi Hk Hargs) as H.
  destruct (get_values py_int py_float a _) as [v|e]; [|exact H].
  simpl in H |- *. destruct (call_action sub a v (ns st)) as [n'|e]; [|exact H].
  simpl. split; assumption.
Qed.

Lemma take_actions_ok l rest : forall st,
  Forall (call_ok P) l -> state_ok P Inv rest st ->
  outcome_in ex (state_ok P Inv rest) (take_actions py_int py_float sub l st).
Proof.
  induction l as [|[a args] l IH]; intros st F Hst; simpl; [exact Hst|].
  inversion F as [|? ? (Ha & Ho & Hargs) F']. subst.
  eapply outcome_rbind; [apply take_optional_ok; eauto|].
  intros st' Hst'. now apply IH.
Qed.

Lemma option_args_ok a after :
  In a P -> is_optional a = true ->
  outcome_in ex (fun r => Forall (call_ok P) (fst r)) (option_args a after).
Proof.
  intros Ha Ho. unfold option_args.
  destruct (match_argument a (pattern_of after)) as [n|e] eqn:E.
  - simpl. constructor; [|constructor]. split; [exact Ha|]. split; [exact Ho|]. simpl.
    apply match_argument_optional in E; [|exact Ho].
    pose proof (P_kinds a Ha) as Hk. unfold args_ok.
    destruct (a_nargs a).
    + destruct E as [-> (pat' & E)]. destruct after as [|t after]; [discriminate|].
      cbn [firstn map]. apply (remove_first_length "--" [fst t]).
    + now subst n.
    + congruence.
  - pose proof (match_argument_exits a (pattern_of after)) as H. now rewrite E in H.
Qed.

(** Flags glued to a single-dash option string of [P] are flags of [P]. *)
Hypothesis Eng_short : forall o a c a',
  In (o, a) (option_string_actions P) -> is_dash (second_char o) = false ->
  assoc (String "-" (String c "")) (option_string_actions Eng) = Some a' ->
  In (String "-" (String c ""), a') (option_string_actions P).

Lemma explicit_args_ok e : forall a o after,
  In (o, a) (option_string_actions P) ->
  outcome_in ex (fun r => Forall (call_ok P) (fst r)) (explicit_args Eng a o e after).
Proof.
  induction e as [|c e IH]; intros a o after Hoa;
    destruct (in_option_string_actions P o a Hoa) as [Ha Ho].
  - (* the empty explicit argument *)
    simpl. destruct (match_argument a [PA]) as [n|x] eqn:E;
      [|pose proof (match_argument_exits a [PA]) as H; now rewrite E in H].
    simpl. rewrite andb_false_r. simpl.
    apply match_argument_optional in E; [|exact Ho].
    destruct (n =? 1)%nat eqn:En; [|apply outcome_usage_error].
    simpl. constructor; [|constructor]. split; [exact Ha|]. split; [exact Ho|].
    unfold args_ok. simpl.
    pose proof (P_kinds a Ha) as Hk.
    destruct (a_nargs a).
    + apply (remove_first_length "--" [""]).
    + subst n. discriminate.
    + congruence.
  - simpl. destruct (match_argument a [PA]) as [n|x] eqn:E;
      [|pose proof (match_argument_exits a [PA]) as H; now rewrite E in H].
    simpl. apply match_argument_optional in E; [|exact Ho].
    pose proof (P_kinds a Ha) as Hk.
    destruct ((n =? 0)%nat && negb (is_dash (second_char o)) && true) eqn:Ec.
    + (* glued single-dash flags *)
      apply andb_prop in Ec as [Ec _]. apply andb_prop in Ec as [En Ed].
      apply Nat.eqb_eq in En. subst n. apply negb_true_iff in Ed.
      destruct (assoc (String "-" (String c "")) (option_string_actions Eng))
        as [a'|] eqn:Ea; [|apply outcome_usage_error].
      apply (Eng_short o a c a' Hoa Ed) in Ea.
      destruct (in_option_string_actions P _ a' Ea) as [Ha' Ho'].
      eapply outcome_rbind.
      * destruct e; [apply option_args_ok; assumption|apply IH; assumption].
      * intros [l k] Hl. simpl in Hl |- *. constructor; [|exact Hl].
        split; [exact Ha|]. split; [exact Ho|]. unfold args_ok. simpl.
        destruct (a_nargs a); try reflexivity.
        -- destruct E; discriminate.
        -- lia.
    + destruct (n =? 1)%nat eqn:En; [|apply outcome_usage_error].
      simpl. constructor; [|constructor]. split; [exact Ha|]. split; [exact Ho|].
      unfold args_ok. simpl.
      destruct (a_nargs a).
      * apply (remove_first_length "--" [String c e]).
      * subst n. discriminate.
      * congruence.
Qed.

Lemma state_ok_skipn k rest st :
  state_ok P Inv rest st -> state_ok P Inv (skipn k rest) st.
Proof. intros [Hi Hp]. split; [now apply Inv_skipn|exact Hp]. Qed.

Lemma consume_optional_ok rest st :
  tokens_ok P rest -> state_ok P Inv rest st ->
  outcome_in ex (fun r => tokens_ok P (fst r) /\ state_ok P Inv (fst r) (snd r))
    (consume_optional py_int py_float sub Eng rest st).
Proof.
  intros Hr Hst. unfold consume_optional.
  destruct rest as [|[s [|[[a|] o e]|]] after]; try (split; assumption).
  - (* an option of the parser *)
    assert (Hoa : In (o, a) (option_string_actions P)).
    { destruct Hr as [F _]. now inversion F. }
    destruct (in_option_string_actions P o a Hoa) as [Ha Ho].
    eapply outcome_rbind.
    + destruct e as [e|]; [apply explicit_args_ok|apply option_args_ok]; assumption.
    + intros [l n] Hl. simpl in Hl.
      eapply outcome_rbind; [apply take_actions_ok; eassumption|].
      intros st' Hst'. simpl. split.
      * apply tokens_ok_skipn. eapply tokens_ok_tail, Hr.
      * apply (state_ok_skipn (S n)) in Hst'. exact Hst'.
  - (* an unknown option *)
    simpl. split; [eapply tokens_ok_tail, Hr|].
    apply (state_ok_skipn 1) in Hst. exact Hst.
Qed.

Lemma take_positionals_ok slices : forall acts toks st pat,
  Forall2 (fun a sl => denote (get_nargs_pattern a) sl)
    (firstn (length slices) acts) slices ->
  pattern_of toks = concat slices ++ pat ->
  Forall (fun a => In a P /\ is_optional a = false) acts ->
  tokens_ok P toks -> state_ok P Inv toks st ->
  outcome_in ex (fun r => tokens_ok P (fst r) /\ state_ok P Inv (fst r) (snd r))
    (take_positionals py_int py_float sub acts (map (@length _) slices) toks st).
Proof.
  induction slices as [|sl slices IH]; intros acts toks st pat F2 Hpat Fa Ht Hst.
  - destruct acts; simpl; split; assumption.
  - destruct acts as [|a acts]; [simpl; split; assumption|].
    cbn [length firstn] in F2. inversion F2 as [|? ? ? ? D F2']. subst.
    inversion Fa as [|? ? [Ha Ho] Fa']. subst.
    cbn [map take_positionals]. cbn [concat] in Hpat. rewrite <- app_assoc in Hpat.
    assert (Hsl : pattern_of (firstn (length sl) toks) = sl).
    { rewrite pattern_of_firstn, Hpat, firstn_app, Nat.sub_diag, firstn_all.
      simpl. now rewrite app_nil_r. }
    pose proof (P_kinds a Ha) as Hk.
    assert (Hlen : (1 <= length sl <= length toks)%nat).
    { split.
      - apply (positional_slice a); auto. intros E. rewrite E in Hk. congruence.
      - apply (f_equal (@length _)) in Hpat. unfold pattern_of in Hpat.
        rewrite length_map, length_app in Hpat. lia. }
    eapply outcome_rbind.
    + apply take_positional_ok; [exact Ha|exact Ho|exact Hst|exact Hlen|].
      unfold args_ok. unfold get_nargs_pattern in D. rewrite Ho in D.
      destruct (a_nargs a) eqn:En.
      * eapply single_argument_strings; [apply tokens_ok_firstn, Ht|].
        now rewrite Hsl.
      * congruence.
      * intros E. apply (f_equal (@length _)) in E.
        rewrite length_map, length_firstn in E. simpl in E. lia.
    + intros st' Hst'.
      apply (IH acts (skipn (length sl) toks) st' pat); auto.
      * rewrite pattern_of_skipn, Hpat, skipn_app, Nat.sub_diag, skipn_all.
        reflexivity.
      * now apply tokens_ok_skipn.
Qed.

Lemma consume_positionals_ok rest st :
  tokens_ok P rest -> state_ok P Inv rest st ->
  outcome_in ex (fun r => tokens_ok P (fst r) /\ state_ok P Inv (fst r) (snd r))
    (consume_positionals py_int py_float sub rest st).
Proof.
  intros Hr Hst. unfold consume_positionals.
  set (counts := match_arguments_partial (positionals st) (pattern_of rest)).
  assert (H : outcome_in ex (fun r => tokens_ok P (fst r) /\ state_ok P Inv (fst r) (snd r))
                (take_positionals py_int py_float sub (positionals st) counts rest st)).
  { destruct (match_partial_from_sound _ _ _ _ (eq_refl counts)) as [->|(j & E)].
    - destruct (positionals st); simpl; split; assumption.
    - apply m_groups_sound in E as (slices & pat & F2 & -> & Hpat).
      apply (take_positionals_ok slices _ _ _ pat); auto; [|apply Hst].
      assert (Hl : length slices = length (firstn j (positionals st))).
      { apply Forall2_length in F2. now rewrite length_map in F2. }
      assert (Hj : firstn (length slices) (positionals st) = firstn j (positionals st)).
      { rewrite Hl, length_firstn.
        destruct (Nat.le_ge_cases j (length (positionals st))) as [Hle|Hge].
        - now rewrite Nat.min_l.
        - rewrite Nat.min_r by exact Hge. rewrite !firstn_all2; auto. }
      rewrite Hj. clear -F2. revert F2.
      generalize (firstn j (positionals st)). intros l. revert slices.
      induction l as [|a l IH]; intros slices F2; inversion F2; subst; constructor; auto. }
  eapply outcome_rbind; [exact H|].
  intros [rest' st'] [Hr' [Hi Hp]]. simpl in *. split; [exact Hr'|].
  split; [exact Hi|]. simpl. now apply Forall_skipn.
Qed.

Lemma consume_loop_ok fuel : forall rest st,
  tokens_ok P rest -> state_ok P Inv rest st ->
  outcome_in ex (fun r => tokens_ok P (fst r) /\ state_ok P Inv (fst r) (snd r))
    (consume_loop py_int py_float sub Eng fuel rest st).
Proof.
  induction fuel as [|fuel IH]; intros rest st Hr Hst; simpl; [split; assumption|].
  destruct (negb (has_option rest)); [split; assumption|].
  assert (Hopt : outcome_in ex
                   (fun r => tokens_ok P (fst r) /\ state_ok P Inv (fst r) (snd r))
                   (rbind (consume_optional py_int py_float sub Eng rest st)
                      (fun '(rest', st') =>
                         consume_loop py_int py_float sub Eng fuel rest' st'))).
  { eapply outcome_rbind; [now apply consume_optional_ok|].
    intros [rest' st'] [Hr' Hst']. now apply IH. }
  assert (Hpos : outcome_in ex
    (fun r => tokens_ok P (fst r) /\ state_ok P Inv (fst r) (snd r))
    (rbind (consume_positionals py_int py_float sub rest st)
       (fun '(rest1, st1) =>
          if (length rest1 <? length rest)%nat
          then consume_loop py_int py_float sub Eng fuel rest1 st1
          else
            let st2 := add_extras st1 (map fst (take_while not_option rest1)) in
            rbind (consume_optional py_int py_float sub Eng
                     (drop_while not_option rest1) st2)
              (fun '(rest3, st3) =>
                 consume_loop py_int py_float sub Eng fuel rest3 st3)))).
  { eapply outcome_rbind; [now apply consume_positionals_ok|].
    intros [rest1 st1] [Hr1 Hst1]. simpl in Hr1, Hst1.
    destruct (length rest1 <? length rest)%nat; [now apply IH|].
    cbv zeta. eapply outcome_rbind.
    - apply consume_optional_ok; [now apply tokens_ok_drop_while|].
      destruct (drop_while_skipn not_option rest1) as [k ->].
      apply (state_ok_skipn k) in Hst1. exact Hst1.
    - intros [rest3 st3] [Hr3 Hst3]. now apply IH. }
  destruct rest as [|[s [|t|]] rest']; try exact Hpos. exact Hopt.
Qed.

Hypothesis Eng_defaults : forall a d,
  In a Eng -> default a = Some (VStr d) -> a_type a = T_none.

Hypothesis Eng_positionals : forall a,
  In a Eng -> is_optional a = false -> In a P.

Lemma finish_actions_spec seen acts : forall n missing,
  (forall a, In a acts -> In a Eng) ->
  finish_actions py_int py_float acts seen n missing
  = Ok (n, missing
           ++ map dest
                (List.filter
                   (fun a => negb (existsb (String.eqb (dest a)) seen) && required a)
                   acts)).
Proof.
  induction acts as [|a acts IH]; intros n missing Hin; simpl.
  - now rewrite app_nil_r.
  - assert (Hacts : forall b, In b acts -> In b Eng) by (intros b Hb; apply Hin; now right).
    destruct (existsb (String.eqb (dest a)) seen); simpl; [now apply IH|].
    destruct (required a); simpl.
    + rewrite IH by exact Hacts. now rewrite <- app_assoc.
    + destruct (default a) as [[| | | |d|]|] eqn:Ed; try now apply IH.
      destruct (n !! dest a) as [[| | | |cur|]|] eqn:En; try now apply IH.
      destruct (String.eqb_spec d cur) as [->|]; [|now apply IH].
      unfold get_value. rewrite (Eng_defaults a cur (Hin a (or_introl eq_refl)) Ed).
      simpl. rewrite insert_id by exact En. now apply IH.
Qed.

(** The command line [args] only refers to actions of [P]. *)
Lemma parse_known_args_inner_ok args n0 :
  (forall cs, classify Eng args = Ok cs ->
              tokens_ok P (combine args cs) /\ Inv (combine args cs) n0 []) ->
  outcome_in ex (fun r => parsed_ok Eng Inv (fst r))
    (parse_known_args_inner py_int py_float sub Eng args n0).
Proof.
  intros Hcs. unfold parse_known_args_inner.
  destruct (classify Eng args) as [cs|e] eqn:Ec;
    [|pose proof (classify_ok Eng args) as H; now rewrite Ec in H].
  destruct (Hcs cs eq_refl) as [Ht H0]. cbn [rbind]. cbv zeta.
  eapply outcome_rbind.
  { apply consume_loop_ok; [exact Ht|]. split; [exact H0|]. simpl.
    apply List.Forall_forall. intros a Ha. apply filter_In in Ha as [Ha Ho].
    assert (Ho' : is_optional a = false) by now destruct (is_optional a).
    split; [now apply Eng_positionals|exact Ho']. }
  intros [rest st] [Hr Hst]. simpl in Hr, Hst.
  eapply outcome_rbind; [now apply consume_positionals_ok|].
  intros [rest' st'] [Hr' [Hi Hp]]. simpl in Hr', Hi, Hp.
  rewrite finish_actions_spec by auto. simpl.
  destruct (List.filter _ Eng) as [|b l] eqn:Ef; simpl; [|exact ex_usage].
  exists rest', (seen_actions st'). split; [exact Hi|].
  intros a Ha Hreq.
  destruct (existsb (String.eqb (dest a)) (seen_actions st')) eqn:Ex.
  - apply existsb_exists in Ex as (x & Hx & E0). apply String.eqb_eq in E0. now subst.
  - assert (Hin : In a (List.filter
                          (fun a => negb (existsb (String.eqb (dest a)) (seen_actions st'))
                                    && required a) Eng)).
    { apply filter_In. split; [exact Ha|]. now rewrite Ex, Hreq. }
    rewrite Ef in Hin. destruct Hin.
Qed.

End Loop.

(** *** Single actions *)

Section Actions.

Variable py_int : string -> option Z.
Variable py_float : string -> option float.
Variable sub : Action -> list string -> Namespace -> result Namespace.

Lemma get_value_ok a s :
  outcome_in ex (fun v => value_of (a_type a) v = true) (get_value py_int py_float a s).
Proof.
  unfold get_value. destruct (a_type a); simpl; auto.
  - destruct (py_int s); simpl; auto.
  - destruct (py_float s); simpl; auto.
Qed.

(** [store] of one argument string. *)
Lemma store_action_ok a args n :
  kind a = K_store -> a_nargs a = N_one -> choices a = None -> args_ok a args ->
  outcome_in ex (fun n' => exists v, n' = <[dest a := v]> n /\ value_of (a_type a) v = true
                               /\ v <> VNone)
    (rbind (get_values py_int py_float a args) (fun v => call_action sub a v n)).
Proof.
  intros Hk Hn Hc Hargs. unfold args_ok in Hargs. rewrite Hn in Hargs.
  unfold get_values. rewrite Hn.
  destruct (remove_first "--" args) as [|s [|s' l]]; simpl in Hargs; try lia.
  - simpl. unfold call_action. rewrite Hk. simpl.
    exists (VList []). repeat split; auto; discriminate.
  - pose proof (get_value_ok a s) as Hv.
    destruct (get_value py_int py_float a s) as [v|e]; [|exact Hv].
    simpl in Hv |- *. unfold check_value. rewrite Hc. simpl.
    unfold call_action. rewrite Hk. simpl.
    exists v. repeat split; auto. intros ->. destruct (a_type a); discriminate.
Qed.

(** [store_true]. *)
Lemma store_true_action_ok a args n :
  kind a = K_store_true -> a_nargs a = N_zero -> args_ok a args ->
  rbind (get_values py_int py_float a args) (fun v => call_action sub a v n)
  = Ok (<[dest a := VBool true]> n).
Proof.
  intros Hk Hn Hargs. unfold args_ok in Hargs. rewrite Hn in Hargs. subst args.
  unfold get_values. rewrite Hn. simpl. unfold call_action. now rewrite Hk.
Qed.

(** [help]. *)
Lemma help_action_ok a args n :
  kind a = K_help -> a_nargs a = N_zero -> args_ok a args ->
  rbind (get_values py_int py_float a args) (fun v => call_action sub a v n)
  = Raise (SystemExit 0).
Proof.
  intros Hk Hn Hargs. unfold args_ok in Hargs. rewrite Hn in Hargs. subst args.
  unfold get_values. rewrite Hn. simpl. unfold call_action. now rewrite Hk.
Qed.

End Actions.

End Exits.

(** *** The sub-parser of [onthefly] *)

Lemma otf_parser_ok py_int py_float args :
  outcome (fun r => exists v, fst r = {[ "annotations" := v ]}
                              /\ value_of T_none v = true /\ args <> [])
    (parse_known_args py_int py_float (fun _ _ _ => usage_error) otf_parser args).
Proof.
  unfold parse_known_args.
  eapply outcome_rbind.
  { apply (parse_known_args_inner_ok exits exits_usage py_int py_float _ otf_parser otf_parser
             (otf_count args)).
    - intros a [<-|[<-|[]]]; reflexivity.
    - intros k rest n seen (Hi & Hl & Hs). pose proof (List.length_skipn k rest) as Hk.
      split; [exact Hi|]. split; [lia|]. intros H. specialize (Hs H). lia.
    - intros a args' rest n seen [<-|[<-|[]]] Ho; [|discriminate Ho].
      intros _ Hargs. rewrite help_action_ok by auto. now right.
    - intros a k rest n seen [<-|[<-|[]]] Ho; [discriminate Ho|].
      intros ((v & -> & Hv & Hs) & Hl & Hc) Hk Hargs.
      eapply outcome_weaken; [now apply (store_action_ok exits exits_usage)|].
      intros n' (v' & -> & Hv' & Hne). unfold otf_count.
      rewrite List.length_skipn. split.
      + exists v'. split.
        * cbn [dest positional]. apply insert_singleton_eq.
        * split; [now destruct v'|auto].
      + split; [lia|intros _; lia].
    - intros o a c a' _ _ Ha. now apply assoc_in in Ha.
    - intros a d [<-|[<-|[]]]; discriminate.
    - auto.
    - intros cs Hcs. split.
      + pose proof (classify_ok exits exits_usage otf_parser args) as H. rewrite Hcs in H. apply H.
      + split; [exists VNone; repeat split; auto; intros []|].
        rewrite List.length_combine. split; [lia|intros []]. }
  intros [n extras] (rest & seen & ((v & E & Hv & Hs) & Hl & Hc) & Hreq).
  simpl in E. subst n. simpl.
  assert (Hin : In "annotations" seen).
  { apply (Hreq (positional "annotations")); [right; now left|reflexivity]. }
  assert (Hne : v <> VNone) by now apply Hs.
  rewrite lookup_singleton_ne by discriminate. simpl.
  exists v. split; [reflexivity|]. split; [now destruct v|].
  intros ->. specialize (Hc Hin). simpl in Hc. lia.
Qed.

(** *** The parser of eval.py *)

Lemma shapes_insert table n k v ok :
  shapes table n -> assoc k table = Some ok -> ok v = true ->
  shapes table (<[k := v]> n).
Proof.
  intros Hn Hk Hv k' v' H. destruct (decide (k' = k)) as [->|Hne].
  - rewrite lookup_insert_eq in H. injection H as <-. now rewrite Hk.
  - rewrite lookup_insert_ne in H by congruence. now apply Hn.
Qed.

Lemma insert_keeps_present (n : Namespace) k v k' :
  n !! k' <> None -> <[k := v]> n !! k' <> None.
Proof.
  intros H. destruct (decide (k' = k)) as [->|Hne].
  - now rewrite lookup_insert_eq.
  - now rewrite lookup_insert_ne by congruence.
Qed.

Lemma parser_inv_insert n seen d v ok :
  parser_inv n seen ->
  assoc d running_attributes = Some ok -> ok v = true ->
  (d = "model" \/ d = "dataset_type" -> v <> VNone) ->
  parser_inv (<[d := v]> n) seen.
Proof.
  intros (Hs & Hp & Hm & Hd) Hok Hv Hne. repeat split.
  - eapply shapes_insert; eauto.
  - intros a Ha Hsup. apply insert_keeps_present. now apply Hp.
  - intros Hin. specialize (Hm Hin).
    destruct (decide ("model" = d)) as [<-|Hn].
    + rewrite lookup_insert_eq. intros E. injection E as E. apply Hne; auto.
    + now rewrite lookup_insert_ne by congruence.
  - destruct (Hd H) as [Hd1 _].
    destruct (decide ("dataset_type" = d)) as [<-|Hn].
    + rewrite lookup_insert_eq. intros E. injection E as E. apply Hne; auto.
    + now rewrite lookup_insert_ne by congruence.
  - apply insert_keeps_present. now destruct (Hd H).
Qed.

Lemma parser_inv_seen n seen k :
  parser_inv n seen ->
  (k = "model" -> n !! "model" <> Some VNone) ->
  (k = "dataset_type" ->
   n !! "dataset_type" <> Some VNone /\ n !! "annotations" <> None) ->
  parser_inv n (k :: seen).
Proof.
  intros (Hs & Hp & Hm & Hd) Hk1 Hk2. repeat split; auto.
  - intros [E|Hin]; auto.
  - destruct H as [E|Hin]; [now apply Hk2|now apply Hd].
  - destruct H as [E|Hin]; [now apply Hk2|now apply Hd].
Qed.

(** An action that stores a value under its own name. *)
Lemma parser_inv_store n seen d v ok :
  parser_inv n seen ->
  assoc d running_attributes = Some ok -> ok v = true -> v <> VNone ->
  d <> "dataset_type" ->
  parser_inv (<[d := v]> n) (d :: seen).
Proof.
  intros Hi Hok Hv Hne Hd. apply parser_inv_seen.
  - eapply parser_inv_insert; eauto.
  - intros ->. rewrite lookup_insert_eq. congruence.
  - intros ->. congruence.
Qed.

Lemma rmap_get_value py_int py_float a l :
  a_type a = T_none -> rmap (get_value py_int py_float a) l = Ok (map VStr l).
Proof.
  intros Ht. induction l as [|s l IH]; simpl; auto.
  unfold get_value at 1. rewrite Ht. simpl. now rewrite IH.
Qed.

Lemma pystrings_strings l : pystrings (map VStr l) = l.
Proof. induction l; simpl; congruence. Qed.

Lemma value_or_none t v : value_of t v = true -> or_none (value_of t) v = true.
Proof. now destruct v. Qed.

Lemma subparsers_action_ok py_int py_float args n seen :
  parser_inv n seen -> args <> [] ->
  outcome (fun n' => parser_inv n' ("dataset_type" :: seen))
    (rbind (get_values py_int py_float subparsers args)
       (fun v => call_action (subparsers_call py_int py_float name_parser_map)
                   subparsers v n)).
Proof.
  intros Hi Hargs. unfold get_values. cbn [a_nargs subparsers].
  rewrite rmap_get_value by reflexivity.
  destruct args as [|s0 rest]; [contradiction|].
  cbn [map rbind]. unfold check_value. cbn [choices subparsers existsb].
  destruct (String.eqb_spec s0 "onthefly") as [->|Hne]; [|apply (outcome_usage_error exits exits_usage)].
  cbn [orb rbind call_action kind subparsers pystrings flat_map app].
  fold (pystrings (map VStr rest)). rewrite pystrings_strings.
  unfold subparsers_call.
  change (String.eqb (dest subparsers) SUPPRESS) with false.
  change (assoc "onthefly" name_parser_map) with (Some otf_parser).
  cbv iota beta.
  eapply outcome_rbind; [apply otf_parser_ok|].
  intros [subns extras] (v & E & Hv & _). simpl in E. subst subns.
  cbn [dest subparsers].
  rewrite <- insert_union_singleton_l.
  assert (H2 : parser_inv
                 (<["annotations" := v]> (<["dataset_type" := VStr "onthefly"]> n))
                 ("dataset_type" :: seen)).
  { apply parser_inv_seen.
    - eapply parser_inv_insert; [eapply parser_inv_insert; [exact Hi|reflexivity|..]
                                |reflexivity|exact Hv|]; try reflexivity.
      + intros _. discriminate.
      + intros [|]; discriminate.
    - discriminate.
    - intros _. split.
      + rewrite lookup_insert_ne by discriminate. rewrite lookup_insert_eq. discriminate.
      + now rewrite lookup_insert_eq. }
  destruct extras as [|x extras]; [exact H2|].
  eapply parser_inv_insert; [exact H2|reflexivity|reflexivity|].
  intros [|]; discriminate.
Qed.

Lemma parser_defaults_inv : parser_inv (add_defaults parser ∅) [].
Proof.
  assert (E : add_defaults parser ∅
              = <["image_max_side" := VInt 1333]>
               (<["image_min_side" := VInt 800]>
               (<["save_path" := VNone]>
               (<["suppression_threshold" := VFloat 0.2]>
               (<["max_detections" := VInt 100]>
               (<["iou_threshold" := VFloat 0.5]>
               (<["score_threshold" := VFloat 0.05]>
               (<["gpu" := VNone]>
               (<["backbone" := VStr "resnet50"]>
               (<["convert_model" := VBool false]>
               (<["model" := VNone]>
               (<["dataset_type" := VNone]>
               (<["batch_size" := VInt 1]> ∅))))))))))))) by by_vm.
  repeat split.
  - rewrite E.
    repeat (eapply shapes_insert; [|reflexivity|reflexivity]).
    intros k v H. now rewrite lookup_empty in H.
  - intros a Ha Hsup.
    destruct Ha as [<-|Ha]; [exfalso; apply Hsup; reflexivity|].
    repeat (destruct Ha as [<-|Ha]; [vm_compute; discriminate|]). destruct Ha.
  - intros [].
  - destruct H.
  - destruct H.
Qed.

Lemma parser_action_ok py_int py_float a args n seen :
  In a parser -> parser_inv n seen -> args_ok a args ->
  outcome (fun n' => parser_inv n' (dest a :: seen))
    (rbind (get_values py_int py_float a args)
       (fun v => call_action (subparsers_call py_int py_float name_parser_map) a v n)).
Proof.
  intros Ha Hi Hargs.
  assert (Hstore : forall flag d t dflt ok,
            a = store_option flag d dflt t ->
            assoc d running_attributes = Some ok ->
            (forall v, value_of t v = true -> ok v = true) ->
            d <> "dataset_type" ->
            outcome (fun n' => parser_inv n' (dest a :: seen))
              (rbind (get_values py_int py_float a args)
                 (fun v => call_action
                             (subparsers_call py_int py_float name_parser_map) a v n))).
  { intros flag d t dflt ok -> Hok Hv Hd.
    eapply outcome_weaken; [now apply (store_action_ok exits exits_usage)|].
    intros n' (v & -> & Hvt & Hne). eapply parser_inv_store; eauto. }
  destruct Ha as [<-|Ha].
  { rewrite help_action_ok by auto. now right. }
  destruct Ha as [<-|Ha].
  { eapply Hstore; [reflexivity|reflexivity|auto|discriminate]. }
  destruct Ha as [<-|Ha].
  { apply subparsers_action_ok; auto. }
  destruct Ha as [<-|Ha].
  { eapply outcome_weaken; [now apply (store_action_ok exits exits_usage)|].
    intros n' (v & -> & Hvt & Hne).
    apply (parser_inv_store n seen "model" v (or_none (value_of T_none)));
      [exact Hi|reflexivity|now apply value_or_none|exact Hne|discriminate]. }
  destruct Ha as [<-|Ha].
  { rewrite store_true_action_ok by auto.
    apply (parser_inv_store n seen "convert_model" (VBool true) is_bool);
      [exact Hi|reflexivity|reflexivity|discriminate|discriminate]. }
  repeat (destruct Ha as [<-|Ha];
          [ eapply Hstore;
            [reflexivity|reflexivity|auto using value_or_none|discriminate] |]).
  destruct Ha.
Qed.

Lemma complete_of_inv n seen :
  parser_inv n seen -> In "model" seen -> In "dataset_type" seen ->
  complete (delete UNRECOGNIZED_ARGS_ATTR n).
Proof.
  intros (Hs & Hp & Hm & Hd) Hmodel Hdt. specialize (Hm Hmodel).
  destruct (Hd Hdt) as [Hd1 Hd2]. clear Hd.
  assert (Hget : forall k ok,
            assoc k running_attributes = Some ok ->
            k <> UNRECOGNIZED_ARGS_ATTR ->
            n !! k <> None ->
            exists v, delete UNRECOGNIZED_ARGS_ATTR n !! k = Some v /\ ok v = true).
  { intros k ok Hok Hk Hn. destruct (n !! k) as [v|] eqn:E; [|contradiction].
    exists v. split; [rewrite lookup_delete_ne by congruence; exact E|].
    specialize (Hs k v E). now rewrite Hok in Hs. }
  assert (Hstrict : forall k ok,
            assoc k running_attributes = Some (or_none ok) ->
            k <> UNRECOGNIZED_ARGS_ATTR ->
            n !! k <> None -> n !! k <> Some VNone ->
            exists v, delete UNRECOGNIZED_ARGS_ATTR n !! k = Some v /\ ok v = true).
  { intros k ok Hok Hk Hn Hnn. destruct (Hget k _ Hok Hk Hn) as (v & Hv & Hokv).
    exists v. split; [exact Hv|].
    rewrite lookup_delete_ne in Hv by congruence.
    destruct v; try exact Hokv. contradiction. }
  assert (Hpres : forall k, In k (map dest (tl parser)) -> n !! k <> None).
  { intros k Hk. apply in_map_iff in Hk as (a & <- & Ha).
    apply Hp; [right; exact Ha|].
    cbn [tl parser] in Ha.
    repeat (destruct Ha as [<-|Ha]; [discriminate|]). destruct Ha. }
  intros k. destruct (assoc k attributes) as [ok|] eqn:E.
  - apply assoc_in in E. unfold attributes in E.
    repeat (destruct E as [E|E];
            [ injection E as <- <-;
              first [ apply Hget; [reflexivity|discriminate|]
                    | apply Hstrict; [reflexivity|discriminate| |assumption] ];
              first [ exact Hd2
                    | apply Hpres; cbn [tl parser map dest store_option
                                          store_true_option positional subparsers];
                      repeat (first [left; reflexivity | right]) ]
            | ]).
    destruct E.
  - destruct (delete UNRECOGNIZED_ARGS_ATTR n !! k) as [v|] eqn:El; [|reflexivity].
    exfalso. apply lookup_delete_Some in El as [Hk El].
    specialize (Hs k v El).
    destruct (assoc k running_attributes) as [ok|] eqn:Er; [|exact Hs].
    apply assoc_in in Er. unfold running_attributes in Er.
    repeat (destruct Er as [Er|Er];
            [ injection Er as <- <-; first [discriminate E | now apply Hk] | ]).
    destruct Er.
Qed.

Lemma parser_kinds a :
  In a parser ->
  match a_nargs a with
  | N_one => True
  | N_zero => is_optional a = true
  | N_parser => is_optional a = false
  end.
Proof. intros Ha. repeat (destruct Ha as [<-|Ha]; [reflexivity|]). destruct Ha. Qed.

Lemma parser_string_defaults a d :
  In a parser -> default a = Some (VStr d) -> a_type a = T_none.
Proof.
  intros Ha. repeat (destruct Ha as [<-|Ha]; [try discriminate; reflexivity|]).
  destruct Ha.
Qed.

(** Every command line is either parsed into a complete namespace, or ends
    the program with status 2 or 0. *)
Lemma parse_args_outcome py_int py_float argv :
  outcome complete (parse_args py_int py_float argv).
Proof.
  unfold parse_args, Argparse.parse_args, parse_known_args.
  eapply outcome_rbind; [|intros x Hx; exact Hx].
  eapply outcome_rbind.
  { apply (parse_known_args_inner_ok exits exits_usage py_int py_float _ parser parser
             (fun _ => parser_inv)).
    - apply parser_kinds.
    - auto.
    - intros a args rest n seen Ha _. now apply parser_action_ok.
    - intros a k rest n seen Ha _ Hi _. now apply parser_action_ok.
    - intros o a c a' _ _ Ha. now apply assoc_in in Ha.
    - apply parser_string_defaults.
    - auto.
    - intros cs Hcs. split; [|apply parser_defaults_inv].
      pose proof (classify_ok exits exits_usage parser argv) as H. rewrite Hcs in H. apply H. }
  intros [n extras] (rest & seen & Hi & Hreq). cbn [fst] in Hi.
  assert (Hc : complete (delete UNRECOGNIZED_ARGS_ATTR n)).
  { apply (complete_of_inv n seen Hi).
    - apply (Hreq (positional "model")); [simpl; tauto|reflexivity].
    - apply (Hreq subparsers); [simpl; tauto|reflexivity]. }
  destruct (n !! UNRECOGNIZED_ARGS_ATTR) as [[]|] eqn:E; simpl;
    try (destruct extras; [exact Hc|left; reflexivity]).
  - destruct (extras ++ pystrings l); [exact Hc|left; reflexivity].
  - rewrite delete_id in Hc by exact E. destruct extras; [exact Hc|left; reflexivity].
Qed.

(** *** Options the command line does not mention *)

Lemma outcome_and {A} (Q1 Q2 : A -> Prop) (r : result A) :
  outcome Q1 r -> outcome Q2 r -> outcome (fun x => Q1 x /\ Q2 x) r.
Proof. destruct r; simpl; auto. Qed.

Lemma parser_action_frame py_int py_float a args n :
  In a parser -> args_ok a args ->
  outcome (unchanged_but a n)
    (rbind (get_values py_int py_float a args)
       (fun v => call_action (subparsers_call py_int py_float name_parser_map) a v n)).
Proof.
  intros Ha Hargs.
  assert (Hstore : forall flag d t dflt,
            a = store_option flag d dflt t ->
            outcome (unchanged_but a n)
              (rbind (get_values py_int py_float a args)
                 (fun v => call_action
                             (subparsers_call py_int py_float name_parser_map) a v n))).
  { intros flag d t dflt ->.
    eapply outcome_weaken; [now apply (store_action_ok exits exits_usage)|].
    intros n' (v & -> & _) k Hk _ _. now rewrite lookup_insert_ne by congruence. }
  destruct Ha as [<-|Ha].
  { rewrite help_action_ok by auto. now right. }
  destruct Ha as [<-|Ha]; [eapply Hstore; reflexivity|].
  destruct Ha as [<-|Ha].
  { (* the sub-parsers *)
    unfold args_ok in Hargs. cbn [a_nargs subparsers] in Hargs.
    unfold get_values. cbn [a_nargs subparsers].
    rewrite rmap_get_value by reflexivity.
    destruct args as [|s0 rest]; [contradiction|].
    cbn [map rbind]. unfold check_value. cbn [choices subparsers existsb].
    destruct (String.eqb_spec s0 "onthefly") as [->|Hne]; [|apply (outcome_usage_error exits exits_usage)].
    cbn [orb rbind call_action kind subparsers pystrings flat_map app].
    fold (pystrings (map VStr rest)). rewrite pystrings_strings.
    unfold subparsers_call.
    change (String.eqb (dest subparsers) SUPPRESS) with false.
    change (assoc "onthefly" name_parser_map) with (Some otf_parser).
    cbv iota beta.
    eapply outcome_rbind; [apply otf_parser_ok|].
    intros [subns extras] (v & E & Hv & _). simpl in E. subst subns.
    rewrite <- insert_union_singleton_l.
    destruct extras as [|x extras]; simpl; intros k Hk Ha Hu;
      cbn [dest subparsers] in Hk;
      repeat rewrite lookup_insert_ne by congruence; reflexivity. }
  destruct Ha as [<-|Ha].
  { eapply outcome_weaken; [now apply (store_action_ok exits exits_usage)|].
    intros n' (v & -> & _) k Hk _ _. now rewrite lookup_insert_ne by congruence. }
  destruct Ha as [<-|Ha].
  { rewrite store_true_action_ok by auto.
    intros k Hk _ _. now rewrite lookup_insert_ne by congruence. }
  repeat (destruct Ha as [<-|Ha]; [eapply Hstore; reflexivity|]).
  destruct Ha.
Qed.

Lemma classify_tokens P argv : forall cs,
  classify P argv = Ok cs ->
  Forall (fun t => In (fst t) argv
                   /\ match snd t with
                      | C_O o => parse_optional P (fst t) = Ok (Some o)
                      | _ => True
                      end) (combine argv cs).
Proof.
  induction argv as [|a rest IH]; intros cs H; simpl in H.
  - injection H as <-. constructor.
  - destruct (String.eqb a "--").
    + injection H as <-. simpl. constructor; [simpl; auto|].
      apply List.Forall_forall. intros [s c] Hin. split.
      * right. now apply in_combine_l in Hin.
      * apply in_combine_r in Hin. apply in_map_iff in Hin as (? & <- & _). exact I.
    + destruct (parse_optional P a) as [t|] eqn:Et; [|discriminate].
      destruct (classify P rest) as [cs'|] eqn:Ec; [|discriminate].
      injection H as <-. simpl. constructor.
      * simpl. split; [auto|]. now destruct t.
      * eapply List.Forall_impl; [|apply IH; reflexivity].
        intros t' [Hin Ht]. split; [now right|exact Ht].
Qed.

Lemma in_others d a : In a (others d) <-> In a parser /\ dest a <> d.
Proof.
  unfold others. rewrite filter_In. split; intros [Ha Hd]; split; auto.
  - intros E. apply String.eqb_eq in E. now rewrite E in Hd.
  - apply negb_true_iff. now apply String.eqb_neq.
Qed.

Lemma in_filter_option_string_actions (f : Action -> bool) P o a :
  In (o, a) (option_string_actions P) -> f a = true ->
  In (o, a) (option_string_actions (List.filter f P)).
Proof.
  unfold option_string_actions. rewrite !in_flat_map. intros (b & Hb & H) Hf.
  assert (b = a) as ->.
  { apply in_map_iff in H as (s & E & _). now injection E. }
  exists a. split; [|exact H]. apply filter_In. now split.
Qed.

(** A command line with no argument string taken for an option that sets
    [d] only refers to the other actions. *)
Lemma unmentioned_tokens_of Eng d argv cs :
  Forall (fun s => mentions Eng d s = false) argv ->
  classify Eng argv = Ok cs ->
  tokens_ok (List.filter (fun a => negb (String.eqb (dest a) d)) Eng) (combine argv cs).
Proof.
  intros Hm Hc.
  pose proof (classify_ok exits exits_usage Eng argv) as H. rewrite Hc in H.
  destruct H as [_ [F Hd]]. split; [|exact Hd].
  pose proof (classify_tokens Eng argv cs Hc) as Ft.
  rewrite List.Forall_forall in F, Ft, Hm. apply List.Forall_forall.
  intros [s c] Hin. specialize (F _ Hin). destruct (Ft _ Hin) as [Hs Ht].
  unfold token_ok in *. simpl in *.
  destruct c as [|[[a|] o e]|]; auto.
  apply in_filter_option_string_actions; [exact F|].
  specialize (Hm s Hs). unfold mentions in Hm. rewrite Ht in Hm.
  now rewrite Hm.
Qed.

Lemma unmentioned_tokens d argv cs :
  Forall (fun s => mentions parser d s = false) argv ->
  classify parser argv = Ok cs ->
  tokens_ok (others d) (combine argv cs).
Proof. apply unmentioned_tokens_of. Qed.

Lemma parse_args_frame py_int py_float a argv :
  In a parser -> is_optional a = true -> kind a <> K_help ->
  Forall (fun s => mentions parser (dest a) s = false) argv ->
  outcome (fun n => n !! dest a = default a) (parse_args py_int py_float argv).
Proof.
  intros Ha Ho Hk Hm.
  assert (Hd : dest a <> SUPPRESS /\ dest a <> "dataset_type" /\ dest a <> "model"
               /\ dest a <> "annotations" /\ dest a <> UNRECOGNIZED_ARGS_ATTR
               /\ add_defaults parser ∅ !! dest a = default a).
  { destruct Ha as [<-|Ha]; [now destruct Hk|].
    destruct Ha as [<-|Ha]; [repeat (split; [discriminate|]); by_vm|].
    destruct Ha as [<-|Ha]; [discriminate Ho|].
    destruct Ha as [<-|Ha]; [discriminate Ho|].
    repeat (destruct Ha as [<-|Ha]; [repeat (split; [discriminate|]); by_vm|]).
    destruct Ha. }
  destruct Hd as (Hd0 & Hd1 & Hd2 & Hd3 & Hd4 & Hd5).
  assert (Hstep : forall b args n seen,
            In b (others (dest a)) -> frame_inv (dest a) (default a) n seen ->
            args_ok b args ->
            outcome (fun n' => frame_inv (dest a) (default a) n' (dest b :: seen))
              (rbind (get_values py_int py_float b args)
                 (fun v => call_action
                             (subparsers_call py_int py_float name_parser_map) b v n))).
  { intros b args n seen Hb [Hi Hf] Hargs. apply in_others in Hb as [Hb Hne].
    apply (outcome_weaken exits
             (fun n' => parser_inv n' (dest b :: seen) /\ unchanged_but b n n')).
    + apply outcome_and;
        [apply parser_action_ok; assumption|apply parser_action_frame; assumption].
    + intros n' [Hi' Hu]. split; [exact Hi'|]. rewrite <- Hf. apply Hu; congruence. }
  unfold parse_args, Argparse.parse_args, parse_known_args.
  eapply outcome_rbind; [|intros x Hx; exact Hx].
  eapply outcome_rbind.
  { apply (parse_known_args_inner_ok exits exits_usage py_int py_float _ parser (others (dest a))
             (fun _ => frame_inv (dest a) (default a))).
    - intros b Hb. apply in_others in Hb as [Hb _]. now apply parser_kinds.
    - auto.
    - intros b args rest n seen Hb _. now apply Hstep.
    - intros b k rest n seen Hb _ Hi _. now apply Hstep.
    - intros o b0 c b _ _ Hb. apply assoc_in in Hb.
      apply in_filter_option_string_actions; [exact Hb|].
      assert (b = help_action) as ->.
      { unfold option_string_actions in Hb. cbn in Hb.
        destruct Hb as [Hb|Hb]; [now injection Hb|].
        repeat (destruct Hb as [Hb|Hb]; [discriminate Hb|]). destruct Hb. }
      apply negb_true_iff, String.eqb_neq. intros E0. apply Hd0. now rewrite <- E0.
    - apply parser_string_defaults.
    - intros b Hb Hbo. apply in_others. split; [exact Hb|].
      repeat (destruct Hb as [<-|Hb]; [try discriminate Hbo; cbn; congruence|]).
      destruct Hb.
    - intros cs Hcs. split; [now apply unmentioned_tokens|].
      split; [apply parser_defaults_inv|exact Hd5]. }
  intros [n extras] (rest & seen & [Hi Hf] & Hreq). cbn [fst] in Hi, Hf.
  assert (Hc : delete UNRECOGNIZED_ARGS_ATTR n !! dest a = default a).
  { now rewrite lookup_delete_ne by congruence. }
  destruct (n !! UNRECOGNIZED_ARGS_ATTR) as [[]|] eqn:E; simpl;
    try (destruct extras; [exact Hc|left; reflexivity]).
  - destruct (extras ++ pystrings l); [exact Hc|left; reflexivity].
  - destruct extras; [exact Hf|left; reflexivity].
Qed.
(** *** The argument strings the positionals take *)

Lemma Forall_firstn {A} (Q : A -> Prop) n l : Forall Q l -> Forall Q (firstn n l).
Proof.
  intros F. rewrite <- (firstn_skipn n l) in F. now apply Forall_app in F.
Qed.

(** The sub-parsers take the sub-command [onthefly] and at least one more
    argument string. *)
Lemma subparsers_action_args py_int py_float args n :
  args <> [] ->
  outcome (fun _ => exists rest, args = "onthefly" :: rest /\ rest <> [])
    (rbind (get_values py_int py_float subparsers args)
       (fun v => call_action (subparsers_call py_int py_float name_parser_map)
                   subparsers v n)).
Proof.
  intros Hargs. unfold get_values. cbn [a_nargs subparsers].
  rewrite rmap_get_value by reflexivity.
  destruct args as [|s0 rest]; [contradiction|].
  cbn [map rbind]. unfold check_value. cbn [choices subparsers existsb].
  destruct (String.eqb_spec s0 "onthefly") as [->|Hne]; [|apply (outcome_usage_error exits exits_usage)].
  cbn [orb rbind call_action kind subparsers pystrings flat_map app].
  fold (pystrings (map VStr rest)). rewrite pystrings_strings.
  unfold subparsers_call.
  change (String.eqb (dest subparsers) SUPPRESS) with false.
  change (assoc "onthefly" name_parser_map) with (Some otf_parser).
  cbv iota beta.
  eapply outcome_rbind; [apply otf_parser_ok|].
  intros [subns extras] (v & E & Hv & Hne).
  destruct extras; simpl; exists rest; auto.
Qed.

Lemma taken_optional a seen :
  In a parser -> is_optional a = true ->
  taken (dest a :: seen) = taken seen /\ dest a <> "dataset_type".
Proof.
  intros Ha Ho.
  repeat (destruct Ha as [<-|Ha];
          [first [discriminate Ho | split; [reflexivity|discriminate]]|]).
  destruct Ha.
Qed.

Lemma parser_positionals a :
  In a parser -> is_optional a = false -> a = subparsers \/ a = positional "model".
Proof.
  intros Ha Ho.
  repeat (destruct Ha as [<-|Ha]; [first [discriminate Ho | now left | now right]|]).
  destruct Ha.
Qed.

Lemma taken_all seen :
  In "dataset_type" seen -> In "model" seen -> taken seen = 3%nat.
Proof.
  intros Hd Hm. unfold taken.
  assert (E1 : existsb (String.eqb "dataset_type") seen = true).
  { apply existsb_exists. exists "dataset_type". split; [exact Hd|apply String.eqb_refl]. }
  assert (E2 : existsb (String.eqb "model") seen = true).
  { apply existsb_exists. exists "model". split; [exact Hm|apply String.eqb_refl]. }
  now rewrite E1, E2.
Qed.

(** A command line that is parsed has the sub-command and two more
    argument strings. *)
Lemma parse_args_count py_int py_float argv :
  outcome (fun _ => In "onthefly" argv /\ (3 <= length argv)%nat)
    (parse_args py_int py_float argv).
Proof.
  unfold parse_args, Argparse.parse_args, parse_known_args.
  eapply outcome_rbind; [|intros x Hx; exact Hx].
  eapply outcome_rbind.
  { apply (parse_known_args_inner_ok exits exits_usage py_int py_float _ parser parser
             (parser_count argv)).
    - apply parser_kinds.
    - intros k rest n seen (Hi & Hf & Hl & Hs).
      pose proof (List.length_skipn k rest) as Hk.
      split; [exact Hi|]. split; [now apply Forall_skipn|]. split; [lia|exact Hs].
    - intros a args rest n seen Ha Ho (Hi & Hf & Hl & Hs) Hargs.
      destruct (taken_optional a seen Ha Ho) as [Et Hd].
      apply (outcome_weaken exits (fun n' => parser_inv n' (dest a :: seen)));
        [now apply parser_action_ok|].
      intros n' Hi'. unfold parser_count. rewrite Et.
      split; [exact Hi'|]. split; [exact Hf|]. split; [exact Hl|].
      intros [E|H]; [congruence|auto].
    - intros a k rest n seen Ha Ho (Hi & Hf & Hl & Hs) Hk Hargs.
      pose proof (List.length_skipn k rest) as Hsk.
      destruct (parser_positionals a Ha Ho) as [->| ->].
      + (* the sub-parsers *)
        apply (outcome_weaken exits
                 (fun n' => parser_inv n' ("dataset_type" :: seen)
                            /\ exists r, map fst (firstn k rest) = "onthefly" :: r
                                         /\ r <> [])).
        * apply outcome_and;
            [apply subparsers_action_ok; auto|apply subparsers_action_args; auto].
        * intros n' (Hi' & r & E & Hr).
          assert (Hk2 : (2 <= k)%nat).
          { apply (f_equal (@length _)) in E.
            rewrite length_map, List.length_firstn in E.
            destruct r; [contradiction|]. simpl in E. lia. }
          assert (Hin : In "onthefly" argv).
          { assert (H : In "onthefly" (map fst (firstn k rest))) by (rewrite E; now left).
            apply in_map_iff in H as ([s c] & Hs' & Hin'). simpl in Hs'. subst s.
            apply (Forall_firstn _ k) in Hf. rewrite List.Forall_forall in Hf.
            apply (Hf _ Hin'). }
          split; [exact Hi'|]. split; [now apply Forall_skipn|].
          split; [|intros _; exact Hin].
          change (taken (dest subparsers :: seen))
            with (2 + (if existsb (String.eqb "model") seen then 1 else 0))%nat.
          unfold taken in Hl.
          destruct (existsb (String.eqb "dataset_type") seen),
                   (existsb (String.eqb "model") seen); simpl in *; lia.
      + (* the model *)
        apply (outcome_weaken exits
                 (fun n' => parser_inv n' (dest (positional "model") :: seen)));
          [now apply parser_action_ok|].
        intros n' Hi'. split; [exact Hi'|]. split; [now apply Forall_skipn|].
        split; [|intros [E|H]; [discriminate E|auto]].
        change (taken (dest (positional "model") :: seen))
          with ((if existsb (String.eqb "dataset_type") seen then 2 else 0) + 1)%nat.
        unfold taken in Hl.
        destruct (existsb (String.eqb "dataset_type") seen),
                 (existsb (String.eqb "model") seen); simpl in *; lia.
    - intros o a c a' _ _ Ha. now apply assoc_in in Ha.
    - apply parser_string_defaults.
    - auto.
    - intros cs Hcs. split.
      + pose proof (classify_ok exits exits_usage parser argv) as H. rewrite Hcs in H. apply H.
      + split; [apply parser_defaults_inv|]. split.
        * eapply List.Forall_impl; [|apply (classify_tokens parser argv cs Hcs)].
          now intros t [Ht _].
        * rewrite List.length_combine. split; [simpl; lia|intros []]. }
  intros [n extras] (rest & seen & (Hi & Hf & Hl & Hs) & Hreq).
  assert (Hm : In "model" seen).
  { apply (Hreq (positional "model")); [simpl; tauto|reflexivity]. }
  assert (Hd : In "dataset_type" seen).
  { apply (Hreq subparsers); [simpl; tauto|reflexivity]. }
  rewrite (taken_all seen Hd Hm) in Hl.
  assert (Q : In "onthefly" argv /\ (3 <= length argv)%nat) by (split; [auto|lia]).
  cbn [fst].
  destruct (n !! UNRECOGNIZED_ARGS_ATTR) as [[]|] eqn:E; simpl;
    try (destruct extras; [exact Q|left; reflexivity]).
  destruct (extras ++ pystrings l); [exact Q|left; reflexivity].
Qed.

(** *** Command lines that do not ask for help *)











(** X9 (eval.py, parse_args, lines 71-96).  Whatever the command line, a
    namespace that [parse_args] returns has exactly the fourteen
    attributes of the script, each with a value of its kind (a converted
    string, or the empty list that argparse leaves for a lone ['--']); the
    dataset type is [onthefly].  So no attribute that [main] reads is
    missing. *)
Theorem parsed_namespace_is_complete py_int py_float argv n :
  parse_args py_int py_float argv = Ok n ->
  complete n /\ getattr n "dataset_type" = VStr "onthefly".
Proof.
  intros H. pose proof (parse_args_outcome py_int py_float argv) as Ho.
  rewrite H in Ho. split; [exact Ho|].
  destruct (Ho "dataset_type") as (v & Hv & Hok). unfold getattr. rewrite Hv.
  destruct v; try discriminate. simpl in Hok. apply String.eqb_eq in Hok. now subst.
Qed.

Lemma parsed_namespace_is_complete_witness :
  complete (parsed Examples.argv_save)
  /\ getattr (parsed Examples.argv_save) "dataset_type" = VStr "onthefly".
Proof.
  apply (parsed_namespace_is_complete Examples.int_of_string Examples.float_of_string
           Examples.argv_save (parsed Examples.argv_save)).
  by_vm.
Defined.

(** X10 (eval.py, parse_args, lines 71-96).  A command line that
    [parse_args] rejects ends the program with exit status 2 (usage error)
    or 0 (help): the parser never fails with another exception. *)
Theorem parser_exits_with_status_2_or_0 py_int py_float argv e :
  parse_args py_int py_float argv = Raise e ->
  e = SystemExit 2 \/ e = SystemExit 0.
Proof.
  intros H. pose proof (parse_args_outcome py_int py_float argv) as Ho.
  rewrite H in Ho. exact Ho.
Qed.

Lemma parser_exits_with_status_2_or_0_witness :
  SystemExit 2 = SystemExit 2 \/ SystemExit 2 = SystemExit 0.
Proof.
  apply (parser_exits_with_status_2_or_0 Examples.int_of_string
           Examples.float_of_string ["onthefly"; "ann.csv"] (SystemExit 2)).
  vm_compute. reflexivity.
Defined.

(** X11 (eval.py, parse_args, lines 75-94).  An option that no argument
    string of the command line is taken for keeps the default of its
    [add_argument] call in the namespace returned. *)
Theorem unmentioned_option_keeps_its_default py_int py_float a argv n :
  In a parser -> is_optional a = true -> kind a <> K_help ->
  Forall (fun s => mentions parser (dest a) s = false) argv ->
  parse_args py_int py_float argv = Ok n ->
  n !! dest a = default a.
Proof.
  intros Ha Ho Hk Hm H.
  pose proof (parse_args_frame py_int py_float a argv Ha Ho Hk Hm) as Hf.
  now rewrite H in Hf.
Qed.

Lemma unmentioned_option_keeps_its_default_witness :
  parsed Examples.argv_save !! "score_threshold" = Some (VFloat 0.05).
Proof.
  apply (unmentioned_option_keeps_its_default
           Examples.int_of_string Examples.float_of_string
           (store_option "--score-threshold" "score_threshold" (VFloat 0.05) T_float)
           Examples.argv_save (parsed Examples.argv_save)).
  - repeat (first [left; reflexivity | right]).
  - reflexivity.
  - discriminate.
  - repeat constructor.
  - by_vm.
Defined.

(** The GPU id of a parsed command line is [None], a string, or the empty
    list. *)
Lemma parsed_gpu py_int py_float argv n :
  parse_args py_int py_float argv = Ok n ->
  or_none (value_of T_none) (getattr n "gpu") = true.
Proof.
  intros H. pose proof (parse_args_outcome py_int py_float argv) as Ho.
  rewrite H in Ho. destruct (Ho "gpu") as (v & Hv & Hok).
  unfold getattr. now rewrite Hv.
Qed.

(** X14 (eval.py, parse_args, lines 77-84).  The sub-command and the two
    positionals are required: a command line in which the string
    [onthefly] does not occur, or of fewer than three argument strings
    (the sub-command, the annotations and the model), is never parsed; the
    program ends with exit status 2, or 0 where help was asked for first. *)
Theorem command_line_needs_sub_command_and_positionals py_int py_float argv :
  ~ In "onthefly" argv \/ (length argv < 3)%nat ->
  exists e, parse_args py_int py_float argv = Raise e
            /\ (e = SystemExit 2 \/ e = SystemExit 0).
Proof.
  intros H. pose proof (parse_args_count py_int py_float argv) as Ho.
  destruct (parse_args py_int py_float argv) as [n|e].
  - simpl in Ho. destruct Ho as [Hin Hlen]. destruct H as [H|H]; [now destruct H|lia].
  - exists e. split; [reflexivity|exact Ho].
Qed.

Lemma command_line_needs_sub_command_and_positionals_witness :
  exists e, parse_args Examples.int_of_string Examples.float_of_string
              ["annotations.csv"; "model.h5"] = Raise e
            /\ (e = SystemExit 2 \/ e = SystemExit 0).
Proof.
  apply (command_line_needs_sub_command_and_positionals
           Examples.int_of_string Examples.float_of_string
           ["annotations.csv"; "model.h5"]).
  right. simpl. lia.
Defined.

(** ** Whole runs of [main] *)

Lemma applied_applied st l1 l2 : applied (applied st l1) l2 = applied st (l1 ++ l2).
Proof.
  unfold applied. simpl. now rewrite replay_env_app, replay_fs_app, app_assoc.
Qed.

Lemma applied_nil st : applied st [] = st.
Proof. destruct st. unfold applied. simpl. now rewrite app_nil_r. Qed.

Lemma logged_applied st l :
  Forall (fun e => ~ is_setenv e /\ ~ is_makedirs e) l -> logged st l = applied st l.
Proof.
  intros H. unfold logged, applied.
  rewrite replay_env_without_setenv, replay_fs_without_makedirs; auto;
    eapply List.Forall_impl; try exact H; simpl; tauto.
Qed.

Lemma delegate_applied {A} c (r : result A) st :
  delegate c r st = (r, applied st [E_call c]).
Proof. rewrite delegate_logged. reflexivity. Qed.

Lemma emit_applied e st :
  (forall env, apply_env env e = env) -> (forall f, apply_fs f e = f) ->
  emit e st = (Ok tt, applied st [e]).
Proof. intros He Hf. unfold emit, applied. simpl. now rewrite He, Hf. Qed.

Lemma gpu_step_applied n st :
  or_none (value_of T_none) (getattr n "gpu") = true -> gpu_ok n = true ->
  (if truthy (getattr n "gpu")
   then setenv "CUDA_VISIBLE_DEVICES" (getattr n "gpu") else ret tt) st
  = (Ok tt, applied st (gpu_events n)).
Proof.
  unfold gpu_events, gpu_ok.
  destruct (getattr n "gpu") as [| | | |id|l]; cbn [truthy or_none value_of];
    try discriminate; intros H Hg.
  - now rewrite applied_nil.
  - destruct (String.eqb id ""); cbn [negb]; [now rewrite applied_nil|].
    apply negb_true_iff in Hg. now rewrite setenv_device, Hg.
  - destruct l; [|discriminate]. now rewrite applied_nil.
Qed.

Lemma replay_fs_gpu_events f n : replay_fs f (gpu_events n) = f.
Proof.
  unfold gpu_events. destruct (getattr n "gpu"); try reflexivity.
  destruct (String.eqb s ""); reflexivity.
Qed.

Lemma replay_fs_grows l : forall f p, p ∈ f -> p ∈ replay_fs f l.
Proof.
  induction l as [|e l IH]; intros f p H; simpl; auto.
  apply IH. destruct e; simpl; auto. apply elem_of_union. now right.
Qed.

(** *** [os.makedirs] *)

Lemma fs_only_ret {A} (a : A) : fs_only (ret a).
Proof. intros st. unfold ret. cbn [fst snd trace initial_state]. now rewrite applied_nil. Qed.

Lemma fs_only_path_exists p : fs_only (path_exists p).
Proof.
  intros st. unfold path_exists. cbn [fst snd trace fs initial_state].
  now rewrite applied_nil.
Qed.

Lemma fs_only_mkdir o p : fs_only (mkdir o p).
Proof.
  intros st. unfold mkdir. cbn [fs initial_state].
  destruct (o (fs st) p); cbn [fst snd trace]; [reflexivity|now rewrite applied_nil].
Qed.

(** From the files alone, the state reached is the one its trace gives. *)
Lemma fs_only_start {A} (m : M A) files :
  fs_only m ->
  snd (m (initial_state ∅ files))
  = applied (initial_state ∅ files) (trace (snd (m (initial_state ∅ files)))).
Proof. intros H. now rewrite (H (initial_state ∅ files)) at 1. Qed.

Lemma fs_only_bind {A B} (m : M A) (k : A -> M B) :
  fs_only m -> (forall a, fs_only (k a)) -> fs_only (bind m k).
Proof.
  intros Hm Hk st. unfold bind. rewrite (Hm st).
  pose proof (fs_only_start m (fs st) Hm) as Hs.
  destruct (m (initial_state ∅ (fs st))) as [[a|e] s1]; cbn [fst snd] in *;
    [|reflexivity].
  pose proof (f_equal fs Hs) as Hf. cbn [fs applied initial_state] in Hf.
  rewrite (Hk a (applied st (trace s1))), (Hk a s1).
  cbn [fst snd]. rewrite applied_applied. cbn [applied fs trace].
  now rewrite Hf.
Qed.

Lemma fs_only_pass_FileExistsError m :
  fs_only m -> fs_only (pass_FileExistsError m).
Proof.
  intros Hm st. unfold pass_FileExistsError. rewrite (Hm st).
  destruct (m (initial_state ∅ (fs st))) as [[[]|e] s1]; cbn [fst snd];
    [reflexivity|]. now destruct e.
Qed.

Lemma fs_only_makedirs o d : forall name, fs_only (makedirs o d name).
Proof.
  induction d as [|d IH]; intros name; cbn [makedirs].
  - intros st. unfold lift. cbn [fst snd trace initial_state].
    now rewrite applied_nil.
  - destruct (Posixpath.split name) as [head tail].
    destruct (if String.eqb tail "" then Posixpath.split head else (head, tail))
      as [head' tail'].
    apply fs_only_bind.
    + destruct (negb (String.eqb head' "") && negb (String.eqb tail' ""));
        [|apply fs_only_ret].
      apply fs_only_bind; [apply fs_only_path_exists|]. intros e.
      destruct (negb e); [|apply fs_only_ret].
      apply fs_only_bind; [apply fs_only_pass_FileExistsError, IH|].
      intros _. apply fs_only_ret.
    + intros done. destruct done; [apply fs_only_ret|apply fs_only_mkdir].
Qed.

(** Lines 119-120 on a save path: the run directory is made unless it
    exists. *)
Lemma directory_step_applied {Model} (X : Externals Model) n sp dirname st :
  getattr n "save_path" = VStr sp ->
  (if negb (is_none (getattr n "save_path")) then
     path <- lift (py_add (getattr n "save_path") (VStr dirname)) ;;
     match path with
     | VStr p =>
         e <- path_exists p ;;
         if negb e then makedirs (os_mkdir Model X) (recursion_limit Model X) p
         else ret tt
     | _ => lift (Raise TypeError)
     end
   else ret tt) st
  = (directory_made X (fs st) (sp ++ dirname),
     applied st (directory_events X (fs st) (sp ++ dirname))).
Proof.
  intros H. rewrite H. cbn [is_none negb py_add].
  unfold bind at 1, lift at 1. unfold bind at 1, path_exists at 1. cbn [fst snd].
  unfold directory_made, directory_events, makedirs_on.
  destruct (bool_decide (sp +:+ dirname ∈ fs st)); cbn [negb].
  - unfold ret. now rewrite applied_nil.
  - apply fs_only_makedirs.
Qed.

Lemma directory_events_made {Model} (X : Externals Model) f dir :
  Forall is_makedirs (directory_events X f dir).
Proof.
  unfold directory_events, makedirs_on.
  destruct (bool_decide (dir ∈ f)); [constructor|].
  apply emits_from_start. apply emits_makedirs. intros q. now exists q.
Qed.

Lemma metric_names_directory_events {Model} (X : Externals Model) f dir :
  metric_names (directory_events X f dir) = [].
Proof.
  pose proof (directory_events_made X f dir) as H.
  induction H as [|e l [q ->] _ IH]; [reflexivity|exact IH].
Qed.

Lemma replay_env_directory_events {Model} (X : Externals Model) env f dir :
  replay_env env (directory_events X f dir) = env.
Proof.
  apply replay_env_without_setenv.
  eapply List.Forall_impl; [|apply directory_events_made].
  intros e [q ->] (? & ? & ?). discriminate.
Qed.

(** When the run directory could be made, it exists afterwards. *)
Lemma replay_fs_directory_events {Model} (X : Externals Model) f sp :
  directory_made X f (run_directory X sp) = Ok tt ->
  run_directory X sp ∈ replay_fs f (directory_events X f (run_directory X sp)).
Proof.
  unfold directory_made, directory_events, makedirs_on.
  destruct (bool_decide (run_directory X sp ∈ f)) eqn:E; intros H.
  - now apply bool_decide_eq_true in E.
  - destruct (makedirs _ _ _ (initial_state ∅ f)) as [r s1] eqn:Em.
    cbn [fst snd] in *. subst r.
    destruct (run_directory_tail sp (datetime_now Model X)) as [Ht Hd].
    destruct (makedirs_returns _ _ _ _ _ Em Ht Hd) as [Hin _].
    pose proof (fs_only_start _ f (fs_only_makedirs (os_mkdir Model X)
                  (recursion_limit Model X) (run_directory X sp))) as Hs.
    rewrite Em in Hs. cbn [snd] in Hs. rewrite Hs in Hin. exact Hin.
Qed.












Lemma mAP_events_quiet {Model} (X : Externals Model) g aps :
  Forall (fun e => ~ is_setenv e /\ ~ is_makedirs e) (mAP_events X g aps).
Proof.
  unfold mAP_events. apply Forall_app. split.
  - apply List.Forall_forall. intros e He. apply in_map_iff in He.
    destruct He as (x & <- & _). split; [intros (? & ? & ?)|intros (? & ?)]; discriminate.
  - repeat constructor; try (intros (? & ? & ?); discriminate);
      intros (? & ?); discriminate.
Qed.

Lemma main_mAP_outcome {Model} (X : Externals Model) (c : context Model) aps st :
  main_mAP Model X c aps st =
    (match present aps with
     | [] => Raise ZeroDivisionError
     | _ => Ok tt
     end,
     logged st
       (map (fun x => E_print (class_line X (c_generator c) x)) aps
        ++ match present aps with
           | [] => []
           | _ => [ E_print ("mAP: " ++ format_f 4 (mean_average_precision aps));
                    E_log_metric "mAP" (VFloat (mean_average_precision aps)) ]
           end)).
Proof.
  destruct (present aps) as [|x l] eqn:E.
  - unfold main_mAP. erewrite bind_Ok by apply average_loop_start.
    rewrite E, app_nil_r. reflexivity.
  - rewrite main_mAP_present; [reflexivity|]. rewrite E. discriminate.
Qed.

Lemma main_recall_outcome {Model} G (X : Externals Model) cfg (c : context Model) st :
  let score := getattr (c_args c) "score_threshold" in
  let sp := getattr (c_args c) "save_path" in
  main_recall Model G X cfg c st =
    match neonRecall Model X (site G) (c_generator c) (c_model c) score sp cfg with
    | Ok recall =>
        (Ok tt, logged st [ E_call (C_neonRecall (site G) score sp);
                            E_log_metric "Recall" (VFloat recall);
                            E_print (" Recall: " ++ format_f 2 recall) ])
    | Raise e => (Raise e, logged st [ E_call (C_neonRecall (site G) score sp) ])
    end.
Proof.
  intros score sp. unfold main_recall. fold score sp.
  destruct (neonRecall Model X (site G) (c_generator c) (c_model c) score sp cfg)
    as [recall|e].
  - erewrite bind_Ok by apply delegate_logged.
    unfold log_metric, print. erewrite bind_Ok by apply emit_logged.
    rewrite emit_logged, !logged_logged. reflexivity.
  - erewrite bind_Raise by apply delegate_logged. reflexivity.
Qed.

(** The setup of a run whose command line parses with a save path and a
    GPU id that can be assigned, whose version check passes and whose
    configuration has the keys read. *)
Section Setup.

Context {Model : Type} (G : Globals) (X : Externals Model) (cfg : Config).
Variables (args : option (list string)) (n : Namespace) (sp : string)
          (single_tile rgb_tile_dir : pyval) (train test : DataFrame).

Let g : OnTheFlyGenerator :=
  {| csv_data_file := getattr n "annotations";
     data := test;
     batch_size := getattr n "batch_size";
     base_dir := rgb_tile_dir;
     gen_config := DeepForest_config G;
     group_method := "none";
     shuffle_groups := false |}.

Hypothesis H_parse :
  parse_args (py_int Model X) (py_float Model X) (argv_of X args) = Ok n.
Hypothesis H_version : check_keras_version Model X = Ok tt.
Hypothesis H_gpu : gpu_ok n = true.
Hypothesis H_save_path : getattr n "save_path" = VStr sp.

Lemma fs_start_events st : fs (applied st (start_events X n)) = fs st.
Proof.
  unfold start_events. cbn [applied fs].
  rewrite !replay_fs_app, replay_fs_gpu_events. reflexivity.
Qed.

(** Up to the output directory. *)
Lemma main_setup_until_directory st :
  main_setup Model G X cfg args st
  = bind (lift (directory_made X (fs st) (run_directory X sp)))
      (fun _ =>
         generator <- create_generator G n cfg ;;
         print "Loading model, this may take a second..." ;;
         model <- delegate (C_load_model (getattr n "model") (getattr n "backbone")
                              (getattr n "convert_model"))
                    (load_model Model X (getattr n "model") (getattr n "backbone")
                       (getattr n "convert_model")) ;;
         s <- delegate C_summary (summary Model X model) ;;
         print (str Model X s) ;;
         ret {| c_args := n;
                c_dirname := strftime_Ymd_HMS (datetime_now Model X);
                c_generator := generator; c_model := model |})
      (applied st (start_events X n
                   ++ directory_events X (fs st) (run_directory X sp))).
Proof.
  unfold main_setup.
  erewrite bind_Ok
    by (rewrite lift_run; unfold argv_of in H_parse; rewrite H_parse; reflexivity).
  erewrite bind_Ok by (rewrite delegate_applied, H_version; reflexivity).
  erewrite bind_Ok
    by (apply gpu_step_applied; [eapply parsed_gpu; exact H_parse|exact H_gpu]).
  erewrite bind_Ok by apply delegate_applied.
  unfold log_parameter.
  erewrite bind_Ok by (apply emit_applied; reflexivity).
  rewrite !applied_applied.
  change ([E_call C_check_keras_version] ++ gpu_events n
          ++ [E_call (C_set_session get_session)]
          ++ [E_log_parameter "Start Time"
                (VStr (strftime_Ymd_HMS (datetime_now Model X)))])
    with (start_events X n).
  unfold bind at 1. rewrite (directory_step_applied X n sp _ _ H_save_path).
  rewrite fs_start_events, applied_applied. fold (run_directory X sp).
  unfold bind at 2, lift.
  destruct (directory_made X (fs st) (run_directory X sp)) as [[]|e]; reflexivity.
Qed.

(** The run directory cannot be made. *)
Lemma main_setup_directory_fails st e :
  directory_made X (fs st) (run_directory X sp) = Raise e ->
  main_setup Model G X cfg args st
  = (Raise e,
     applied st (start_events X n
                 ++ directory_events X (fs st) (run_directory X sp))).
Proof.
  intros Hd. rewrite main_setup_until_directory, Hd. reflexivity.
Qed.

Hypothesis H_single_tile : DeepForest_config G !! "single_tile" = Some single_tile.
Hypothesis H_split :
  split_training (preprocess G) (getattr n "annotations") (DeepForest_config G)
    single_tile = Ok (train, test).
Hypothesis H_rgb : DeepForest_config G !! "rgb_tile_dir" = Some rgb_tile_dir.

Lemma create_generator_applied st :
  create_generator G n cfg st
  = (Ok g, applied st [E_call (C_split_training (getattr n "annotations") single_tile)]).
Proof.
  unfold create_generator, getitem. rewrite H_single_tile, H_rgb.
  erewrite bind_Ok by reflexivity.
  erewrite bind_Ok by (rewrite delegate_applied, H_split; reflexivity).
  reflexivity.
Qed.

Lemma main_setup_until_load st :
  directory_made X (fs st) (run_directory X sp) = Ok tt ->
  main_setup Model G X cfg args st
  = bind (lift (load_model Model X (getattr n "model") (getattr n "backbone")
                  (getattr n "convert_model")))
      (fun model =>
         s <- delegate C_summary (summary Model X model) ;;
         print (str Model X s) ;;
         ret {| c_args := n;
                c_dirname := strftime_Ymd_HMS (datetime_now Model X);
                c_generator := g; c_model := model |})
      (applied st (load_events X n sp single_tile (fs st))).
Proof.
  intros Hd. rewrite main_setup_until_directory, Hd.
  erewrite bind_Ok by reflexivity.
  erewrite bind_Ok by apply create_generator_applied.
  unfold print.
  erewrite bind_Ok by (apply emit_applied; reflexivity).
  unfold delegate at 1. rewrite bind_assoc.
  erewrite bind_Ok by (apply emit_applied; reflexivity).
  rewrite !applied_applied.
  unfold load_events. rewrite <- !app_assoc. reflexivity.
Qed.

Lemma main_setup_returns st mdl s :
  directory_made X (fs st) (run_directory X sp) = Ok tt ->
  load_model Model X (getattr n "model") (getattr n "backbone")
    (getattr n "convert_model") = Ok mdl ->
  summary Model X mdl = Ok s ->
  main_setup Model G X cfg args st
  = (Ok {| c_args := n; c_dirname := strftime_Ymd_HMS (datetime_now Model X);
           c_generator := g; c_model := mdl |},
     applied st (load_events X n sp single_tile (fs st) ++ summary_events X s)).
Proof.
  intros Hd Hl Hs. rewrite main_setup_until_load by exact Hd.
  erewrite bind_Ok by (rewrite lift_run, Hl; reflexivity).
  erewrite bind_Ok by (rewrite delegate_applied, Hs; reflexivity).
  unfold print. erewrite bind_Ok by (apply emit_applied; reflexivity).
  unfold ret. rewrite !applied_applied. unfold summary_events.
  rewrite <- ?app_assoc. reflexivity.
Qed.

Lemma main_setup_load_fails st e :
  directory_made X (fs st) (run_directory X sp) = Ok tt ->
  load_model Model X (getattr n "model") (getattr n "backbone")
    (getattr n "convert_model") = Raise e ->
  main_setup Model G X cfg args st
  = (Raise e, applied st (load_events X n sp single_tile (fs st))).
Proof.
  intros Hd Hl. rewrite main_setup_until_load by exact Hd.
  erewrite bind_Raise by (rewrite lift_run, Hl; reflexivity). reflexivity.
Qed.

End Setup.

(** What a step leaves of a projection of the trace when none of its events
    is projected. *)
Lemma quiet_step {A B} (f : event -> list B) (m : M A) st :
  emits (fun e => f e = []) m ->
  flat_map f (trace (snd (m st))) = flat_map f (trace st).
Proof.
  intros H. destruct (H st) as (l & -> & Fl & _).
  rewrite flat_map_app. rewrite <- app_nil_r. f_equal.
  induction Fl as [|e l He _ IH]; simpl; auto. now rewrite He, IH.
Qed.




Lemma metric_names_class_lines {Model} (X : Externals Model) g aps :
  metric_names (map (fun x => E_print (class_line X g x)) aps) = [].
Proof. induction aps; simpl; auto. Qed.

Lemma metric_names_logged st l :
  metric_names (trace (logged st l)) = metric_names (trace st) ++ metric_names l.
Proof. simpl. apply flat_map_app. Qed.

Lemma replay_env_only_key k env l :
  Forall (fun e => forall k' v, e = E_setenv k' v -> k' = k) l ->
  delete k (replay_env env l) = delete k env.
Proof.
  intros H. revert env. induction H as [|e l He _ IH]; intros env; simpl; auto.
  rewrite IH. destruct e; simpl; auto.
  rewrite (He name value eq_refl). apply delete_insert_eq.
Qed.

Lemma present_insert_absent l1 l2 x :
  snd (snd x) <= 0 -> present (l1 ++ x :: l2) = present (l1 ++ l2).
Proof.
  intros H. unfold present. rewrite !List.filter_app. simpl.
  destruct (0 <? snd (snd x)) eqn:E; [apply Z.ltb_lt in E; lia|reflexivity].
Qed.

(** X1 (eval.py, main, lines 99-106).  A command line that [parse_args]
    rejects ends the run before anything else happens: the exception of the
    parser leaves [main] with the environment, the file system and the
    trace untouched, and the exit status is the one of the parser. *)
Theorem usage_error_before_anything_else
    Model G (X : Externals Model) cfg args st e :
  parse_args (py_int Model X) (py_float Model X) (argv_of X args) = Raise e ->
  main Model G X cfg args st = (Raise e, st)
  /\ exit_status (fst (main Model G X cfg args st))
     = match e with SystemExit code => code | _ => 1 end.
Proof.
  intros H.
  assert (E : main Model G X cfg args st = (Raise e, st)).
  { unfold main, main_setup. rewrite !bind_assoc.
    erewrite bind_Raise; [reflexivity|].
    rewrite lift_run. unfold argv_of in H. now rewrite H. }
  split; [exact E|]. rewrite E. reflexivity.
Qed.

Lemma usage_error_before_anything_else_witness :
  main unit (Examples.globals_at "OSBS")
    (Examples.world ["onthefly"; "ann.csv"] Examples.three_classes)
    Examples.other_config None Examples.start
  = (Raise (SystemExit 2), Examples.start)
  /\ exit_status
       (fst (main unit (Examples.globals_at "OSBS")
               (Examples.world ["onthefly"; "ann.csv"] Examples.three_classes)
               Examples.other_config None Examples.start))
     = 2.
Proof.
  apply (usage_error_before_anything_else unit (Examples.globals_at "OSBS")
           (Examples.world ["onthefly"; "ann.csv"] Examples.three_classes)
           Examples.other_config None Examples.start (SystemExit 2)).
  vm_compute. reflexivity.
Defined.

(** X2 (eval.py, main, lines 108-110).  Whatever the run does, the only
    environment variable it assigns is [CUDA_VISIBLE_DEVICES]: every other
    variable keeps its value, and an assignment that is made gives the
    variable the non-empty [--gpu] string of the parsed command line. *)
Theorem only_the_device_variable_is_assigned
    Model G (X : Externals Model) cfg args env files :
  let r := main Model G X cfg args (initial_state env files) in
  delete "CUDA_VISIBLE_DEVICES" (environ (snd r)) = delete "CUDA_VISIBLE_DEVICES" env
  /\ forall k v, In (E_setenv k v) (trace (snd r)) ->
       k = "CUDA_VISIBLE_DEVICES" /\ v <> ""
       /\ exists n,
            parse_args (py_int Model X) (py_float Model X) (argv_of X args) = Ok n
            /\ getattr n "gpu" = VStr v.
Proof.
  intros r.
  set (P := fun e => forall k v, e = E_setenv k v ->
              k = "CUDA_VISIBLE_DEVICES" /\ v <> ""
              /\ exists n,
                   parse_args (py_int Model X) (py_float Model X) (argv_of X args) = Ok n
                   /\ getattr n "gpu" = VStr v).
  assert (Hm : emits P (main Model G X cfg args)).
  { apply emits_main; unfold P; intros; try discriminate.
    match goal with E : E_setenv _ _ = E_setenv _ _ |- _ => injection E as <- <- end.
    repeat split; auto. eexists; split; eauto. }
  destruct (Hm (initial_state env files)) as (l & Ht & Fl & He & _).
  fold r in Ht, He. simpl in Ht, He. split.
  - rewrite He. apply replay_env_only_key.
    eapply List.Forall_impl; [|exact Fl]. intros e HP k0 v E. now destruct (HP k0 v E).
  - intros k v Hin. rewrite Ht in Hin.
    rewrite List.Forall_forall in Fl. exact (Fl _ Hin k v eq_refl).
Qed.

(** X3 (eval.py, main, lines 99-185, with create_generator, lines 51-68).
    When the command line parses with a save path and a GPU id that can be
    assigned, the run directory exists or can be made, the configuration
    has the keys read, some class has instances and every delegated call
    returns, the run ends normally with exit status 0 and its events are,
    in this order: version check, device assignment, session, start time,
    the directories made for the output, data split, model load and
    summary, evaluation, one line per class and the mAP, the ground truth
    comparison at the site OSBS, the recall and the tree counts. *)
Theorem successful_run Model G (X : Externals Model) cfg args st
    n sp single_tile rgb_tile_dir train test mdl s aps j recall :
  let g := {| csv_data_file := getattr n "annotations";
              data := test;
              batch_size := getattr n "batch_size";
              base_dir := rgb_tile_dir;
              gen_config := DeepForest_config G;
              group_method := "none";
              shuffle_groups := false |} in
  parse_args (py_int Model X) (py_float Model X) (argv_of X args) = Ok n ->
  check_keras_version Model X = Ok tt ->
  gpu_ok n = true ->
  getattr n "save_path" = VStr sp ->
  directory_made X (fs st) (run_directory X sp) = Ok tt ->
  DeepForest_config G !! "single_tile" = Some single_tile ->
  split_training (preprocess G) (getattr n "annotations") (DeepForest_config G)
    single_tile = Ok (train, test) ->
  DeepForest_config G !! "rgb_tile_dir" = Some rgb_tile_dir ->
  load_model Model X (getattr n "model") (getattr n "backbone")
    (getattr n "convert_model") = Ok mdl ->
  summary Model X mdl = Ok s ->
  evaluate Model X g mdl (getattr n "iou_threshold") (getattr n "score_threshold")
    (getattr n "max_detections") (VStr (run_directory X sp)) = Ok aps ->
  present aps <> [] ->
  (site G = "OSBS" ->
   Jaccard Model X g mdl (getattr n "score_threshold") (getattr n "save_path") cfg
   = Ok j) ->
  neonRecall Model X (site G) g mdl (getattr n "score_threshold")
    (getattr n "save_path") cfg = Ok recall ->
  main Model G X cfg args st
  = (Ok tt,
     applied st
       (load_events X n sp single_tile (fs st)
        ++ summary_events X s
        ++ evaluate_events X n sp
        ++ mAP_events X g aps
        ++ iou_events G n j
        ++ recall_events G X n g recall))
  /\ exit_status (fst (main Model G X cfg args st)) = 0.
Proof.
  intros g Hp Hv Hg Hsp Hd Hst Hsplit Hrgb Hl Hs He Hne Hj Hr.
  match goal with |- ?a = ?b /\ _ => assert (E : a = b) end;
    [|split; [exact E|rewrite E; reflexivity]].
  unfold main.
  erewrite bind_Ok by (eapply main_setup_returns; eauto).
  fold g.
  erewrite bind_Ok.
  2:{ unfold main_evaluate. cbn [c_args c_dirname c_generator c_model].
      rewrite Hsp. cbn [py_add]. erewrite bind_Ok by reflexivity.
      rewrite delegate_applied. unfold run_directory in He. rewrite He. reflexivity. }
  erewrite bind_Ok.
  2:{ rewrite main_mAP_present by exact Hne.
      rewrite logged_applied by apply mAP_events_quiet. reflexivity. }
  erewrite bind_Ok.
  2:{ instantiate (2 := tt). instantiate (1 := applied _ (iou_events G n j)).
      unfold iou_events. destruct (String.eqb (site G) "OSBS") eqn:E.
      - apply String.eqb_eq in E. rewrite main_iou_at_site by exact E.
        cbn [c_args c_dirname c_generator c_model]. rewrite (Hj E).
        rewrite logged_applied; [reflexivity|].
        repeat constructor; try (intros (? & ? & ?); discriminate);
          intros (? & ?); discriminate.
      - apply String.eqb_neq in E. rewrite main_iou_elsewhere by exact E.
        now rewrite applied_nil. }
  erewrite bind_Ok.
  2:{ unfold main_recall. cbn [c_args c_dirname c_generator c_model].
      erewrite bind_Ok by (rewrite delegate_applied, Hr; reflexivity).
      unfold log_metric, print.
      erewrite bind_Ok by (apply emit_applied; reflexivity).
      apply emit_applied; reflexivity. }
  unfold main_ntrees, log_parameter. cbn [c_args c_dirname c_generator c_model].
  rewrite emit_applied by reflexivity.
  rewrite !applied_applied.
  unfold evaluate_events, recall_events, run_directory, mAP_events.
  rewrite <- !app_assoc. reflexivity.
Qed.

Lemma successful_run_witness :
  exit_status
    (fst (main unit (Examples.globals_at "OSBS")
            (Examples.world Examples.argv_save Examples.three_classes)
            Examples.other_config None Examples.start))
  = 0
  /\ made (trace (snd (main unit (Examples.globals_at "OSBS")
                         (Examples.world Examples.argv_save Examples.three_classes)
                         Examples.other_config None Examples.start)))
     = ["out"; "out/20190307_140509"].
Proof.
  split.
  - refine (proj2 (successful_run unit (Examples.globals_at "OSBS")
                     (Examples.world Examples.argv_save Examples.three_classes)
                     Examples.other_config None Examples.start
                     (parsed Examples.argv_save) "out/" (VBool false)
                     (VStr "data/OSBS/") [] Examples.rows tt VNone
                     Examples.three_classes 0.25%float 0.5%float
                     _ _ _ _ _ _ _ _ _ _ _ _ _ _)).
    + by_vm.
    + reflexivity.
    + vm_compute. reflexivity.
    + vm_compute. reflexivity.
    + vm_compute. reflexivity.
    + vm_compute. reflexivity.
    + reflexivity.
    + vm_compute. reflexivity.
    + reflexivity.
    + reflexivity.
    + reflexivity.
    + vm_compute. discriminate.
    + intros _. reflexivity.
    + reflexivity.
  - vm_compute. reflexivity.
Defined.

(** X4 (eval.py, main, lines 141-185).  The metrics a run has logged are
    always an initial part of mAP, Mean IoU (at the site OSBS only),
    Recall, in this order; all of them have been logged exactly when the
    run ends normally. *)
Theorem metrics_are_logged_in_order Model G (X : Externals Model) cfg args env files :
  let r := main Model G X cfg args (initial_state env files) in
  (exists k, metric_names (trace (snd r)) = firstn k (expected_metrics (site G)))
  /\ (metric_names (trace (snd r)) = expected_metrics (site G) <-> fst r = Ok tt).
Proof.
  intros r. subst r. unfold main.
  set (names := fun st : state => metric_names (trace st)).
  assert (Hq : forall {A} (m : M A) st,
             emits (fun e => match e with E_log_metric name _ => [name] | _ => [] end = [])
               m -> names (snd (m st)) = names st).
  { intros A m st. apply quiet_step. }
  assert (Hexp : expected_metrics (site G) <> []) by discriminate.
  assert (Hexp1 : expected_metrics (site G) <> ["mAP"]).
  { unfold expected_metrics. destruct (String.eqb (site G) "OSBS"); discriminate. }
  (* setup *)
  destruct (main_setup Model G X cfg args (initial_state env files))
    as [[c|e] st1] eqn:E1.
  2:{ erewrite bind_Raise by exact E1. simpl.
      assert (H1 : names st1 = []).
      { change st1 with (snd (Raise (A:=context Model) e, st1)). rewrite <- E1.
        rewrite Hq; [reflexivity|].
        apply emits_main_setup; intros; try reflexivity. }
      fold (names st1). rewrite H1. split; [exists 0%nat; reflexivity|].
      split; [intros H; symmetry in H; contradiction|discriminate]. }
  assert (H1 : names st1 = []).
  { change st1 with (snd (Ok c, st1)). rewrite <- E1.
    rewrite Hq; [reflexivity|]. apply emits_main_setup; intros; try reflexivity. }
  erewrite bind_Ok by exact E1.
  (* evaluation *)
  destruct (main_evaluate Model X c st1) as [[aps|e] st2] eqn:E2.
  2:{ erewrite bind_Raise by exact E2. simpl.
      assert (H2 : names st2 = []).
      { change st2 with (snd (Raise (A:=list (Z * (float * Z))) e, st2)). rewrite <- E2.
        rewrite Hq; [exact H1|]. apply emits_main_evaluate; intros; reflexivity. }
      fold (names st2). rewrite H2. split; [exists 0%nat; reflexivity|].
      split; [intros H; symmetry in H; contradiction|discriminate]. }
  assert (H2 : names st2 = []).
  { change st2 with (snd (Ok aps, st2)). rewrite <- E2.
    rewrite Hq; [exact H1|]. apply emits_main_evaluate; intros; reflexivity. }
  erewrite bind_Ok by exact E2.
  (* mean average precision *)
  pose proof (main_mAP_outcome X c aps st2) as E3.
  destruct (present aps) as [|x0 l0].
  { erewrite bind_Raise by exact E3. cbn [fst snd].
    rewrite metric_names_logged, app_nil_r. fold (names st2). rewrite H2.
    rewrite metric_names_class_lines.
    split; [exists 0%nat; reflexivity|].
    split; [intros H; symmetry in H; contradiction|discriminate]. }
  erewrite bind_Ok by exact E3. clear E3.
  match goal with |- context [logged st2 ?l] => set (st3 := logged st2 l) end.
  assert (H3 : names st3 = ["mAP"]).
  { unfold names, st3. rewrite metric_names_logged. fold (names st2). rewrite H2.
    unfold metric_names at 1. rewrite flat_map_app.
    fold (metric_names (map (fun x => E_print (class_line X (c_generator c) x)) aps)).
    rewrite metric_names_class_lines. reflexivity. }
  clearbody st3.
  (* ground truth comparison *)
  set (mid := if String.eqb (site G) "OSBS" then ["Mean IoU"] else []).
  assert (Hiou :
    (exists e st4, main_iou Model G X cfg c st3 = (Raise e, st4) /\ names st4 = ["mAP"])
    \/ (exists st4, main_iou Model G X cfg c st3 = (Ok tt, st4)
                    /\ names st4 = "mAP" :: mid)).
  { unfold mid. destruct (String.eqb (site G) "OSBS") eqn:Es.
    - apply String.eqb_eq in Es. rewrite main_iou_at_site by exact Es. cbv zeta.
      destruct (Jaccard Model X (c_generator c) (c_model c)
                  (getattr (c_args c) "score_threshold")
                  (getattr (c_args c) "save_path") cfg) as [j|e].
      + right. eexists. split; [reflexivity|].
        unfold names. rewrite metric_names_logged. fold (names st3).
        rewrite H3. reflexivity.
      + left. do 2 eexists. split; [reflexivity|].
        unfold names. rewrite metric_names_logged. fold (names st3).
        rewrite H3. reflexivity.
    - apply String.eqb_neq in Es. rewrite main_iou_elsewhere by exact Es.
      right. eexists. split; [reflexivity|]. exact H3. }
  destruct Hiou as [(e & st4 & E4 & H4)|(st4 & E4 & H4)].
  { erewrite bind_Raise by exact E4. simpl. fold (names st4). rewrite H4.
    split; [exists 1%nat; reflexivity|].
    split; [intros H; symmetry in H; contradiction|discriminate]. }
  erewrite bind_Ok by exact E4.
  (* recall and tree counts *)
  pose proof (main_recall_outcome G X cfg c st4) as E5. cbv zeta in E5.
  unfold expected_metrics. fold mid.
  destruct (neonRecall Model X (site G) (c_generator c) (c_model c)
              (getattr (c_args c) "score_threshold")
              (getattr (c_args c) "save_path") cfg) as [recall|e].
  - erewrite bind_Ok by exact E5.
    unfold main_ntrees, log_parameter. rewrite emit_logged, logged_logged.
    cbn [fst snd]. rewrite metric_names_logged. fold (names st4). rewrite H4.
    cbn [metric_names flat_map app].
    split.
    + exists (length ("mAP" :: mid ++ ["Recall"])). now rewrite firstn_all.
    + split; auto.
  - erewrite bind_Raise by exact E5.
    cbn [fst snd]. rewrite metric_names_logged. fold (names st4). rewrite H4.
    cbn [metric_names flat_map app]. rewrite app_nil_r. split.
    + exists (length ("mAP" :: mid)). cbn [length firstn]. f_equal.
      rewrite firstn_app, firstn_all, Nat.sub_diag. cbn [firstn]. now rewrite app_nil_r.
    + split; [|discriminate]. intros H. exfalso.
      injection H as H. apply (f_equal (@length _)) in H.
      rewrite length_app in H. simpl in H. lia.
Qed.


(** X6 (eval.py, main, lines 113-129).  With a save path whose run
    directory exists or can be made, when the model loader raises, the run
    ends with that exception right after the call: the run directory
    exists by then, and neither the evaluator has run nor a metric been
    logged. *)
Theorem failed_model_load_leaves_the_directory
    Model G (X : Externals Model) cfg args st
    n sp single_tile rgb_tile_dir train test e :
  parse_args (py_int Model X) (py_float Model X) (argv_of X args) = Ok n ->
  check_keras_version Model X = Ok tt ->
  gpu_ok n = true ->
  getattr n "save_path" = VStr sp ->
  directory_made X (fs st) (run_directory X sp) = Ok tt ->
  DeepForest_config G !! "single_tile" = Some single_tile ->
  split_training (preprocess G) (getattr n "annotations") (DeepForest_config G)
    single_tile = Ok (train, test) ->
  DeepForest_config G !! "rgb_tile_dir" = Some rgb_tile_dir ->
  load_model Model X (getattr n "model") (getattr n "backbone")
    (getattr n "convert_model") = Raise e ->
  let r := main Model G X cfg args st in
  r = (Raise e, applied st (load_events X n sp single_tile (fs st)))
  /\ run_directory X sp ∈ fs (snd r)
  /\ metric_names (trace (snd r)) = metric_names (trace st)
  /\ (forall ev, In ev (load_events X n sp single_tile (fs st)) ->
        ~ is_evaluate_call ev).
Proof.
  intros Hp Hv Hg Hsp Hd Hst Hsplit Hrgb Hl r.
  assert (E : r = (Raise e, applied st (load_events X n sp single_tile (fs st)))).
  { unfold r, main. erewrite bind_Raise; [reflexivity|].
    eapply main_setup_load_fails; eauto. }
  split; [exact E|]. rewrite E. cbn [snd applied fs trace]. split; [|split].
  - unfold load_events. rewrite !replay_fs_app. apply replay_fs_grows.
    unfold start_events. rewrite !replay_fs_app, replay_fs_gpu_events.
    cbn [replay_fs fold_left apply_fs].
    now apply replay_fs_directory_events.
  - unfold metric_names. rewrite flat_map_app. rewrite <- app_nil_r. f_equal.
    unfold load_events, start_events. rewrite !flat_map_app.
    fold (metric_names (directory_events X (fs st) (run_directory X sp))).
    rewrite metric_names_directory_events.
    unfold gpu_events.
    destruct (getattr n "gpu") as [| | | |id|]; try reflexivity.
    destruct (String.eqb id ""); reflexivity.
  - intros ev Hin (a & b & c & d & ->).
    unfold load_events, start_events in Hin.
    repeat (apply in_app_or in Hin as [Hin|Hin]).
    + destruct Hin as [Hin|[]]. discriminate.
    + unfold gpu_events in Hin. destruct (getattr n "gpu"); try destruct Hin.
      destruct (String.eqb s ""); [destruct Hin|].
      destruct Hin as [Hin|[]]. discriminate.
    + destruct Hin as [Hin|[Hin|[]]]; discriminate.
    + pose proof (directory_events_made X (fs st) (run_directory X sp)) as F.
      rewrite List.Forall_forall in F. destruct (F _ Hin) as [q Hq]. discriminate.
    + destruct Hin as [Hin|[Hin|[Hin|[]]]]; discriminate.
Qed.

Lemma failed_model_load_leaves_the_directory_witness :
  main unit (Examples.globals_at "OSBS") (no_model Examples.argv_save)
    Examples.other_config None Examples.start
  = (Raise (External "OSError"),
     applied Examples.start
       (load_events (no_model Examples.argv_save) (parsed Examples.argv_save)
          "out/" (VBool false) (fs Examples.start)))
  /\ run_directory (no_model Examples.argv_save) "out/"
       ∈ fs (snd (main unit (Examples.globals_at "OSBS") (no_model Examples.argv_save)
                    Examples.other_config None Examples.start))
  /\ metric_names
       (trace (snd (main unit (Examples.globals_at "OSBS")
                      (no_model Examples.argv_save)
                      Examples.other_config None Examples.start)))
     = metric_names (trace Examples.start)
  /\ (forall ev,
        In ev (load_events (no_model Examples.argv_save) (parsed Examples.argv_save)
                 "out/" (VBool false) (fs Examples.start)) ->
        ~ is_evaluate_call ev).
Proof.
  refine (failed_model_load_leaves_the_directory unit (Examples.globals_at "OSBS")
            (no_model Examples.argv_save) Examples.other_config None Examples.start
            (parsed Examples.argv_save) "out/" (VBool false) (VStr "data/OSBS/")
            [] Examples.rows (External "OSError") _ _ _ _ _ _ _ _ _).
  - by_vm.
  - reflexivity.
  - vm_compute. reflexivity.
  - vm_compute. reflexivity.
  - vm_compute. reflexivity.
  - vm_compute. reflexivity.
  - reflexivity.
  - vm_compute. reflexivity.
  - reflexivity.
Defined.

(** X15 (eval.py, main, lines 118-123).  With a save path whose run
    directory is missing and cannot be made, the run ends with the
    exception of [os.makedirs], before the data is split or the model
    loaded; the directories made above the run directory until then
    stay. *)
Theorem run_stops_when_the_directory_cannot_be_made
    Model G (X : Externals Model) cfg args st n sp e :
  parse_args (py_int Model X) (py_float Model X) (argv_of X args) = Ok n ->
  check_keras_version Model X = Ok tt ->
  gpu_ok n = true ->
  getattr n "save_path" = VStr sp ->
  directory_made X (fs st) (run_directory X sp) = Raise e ->
  let events := start_events X n ++ directory_events X (fs st) (run_directory X sp) in
  main Model G X cfg args st = (Raise e, applied st events)
  /\ (run_directory X sp ∉ fs st)
  /\ Forall (fun ev => forall c, ev = E_call c ->
                       c = C_check_keras_version \/ c = C_set_session get_session)
       events.
Proof.
  intros Hp Hv Hg Hsp Hd events. split; [|split].
  - unfold main. erewrite bind_Raise; [reflexivity|].
    eapply main_setup_directory_fails; eauto.
  - unfold directory_made in Hd.
    destruct (bool_decide (run_directory X sp ∈ fs st)) eqn:Ex; [discriminate|].
    now apply bool_decide_eq_false in Ex.
  - unfold events, start_events.
    apply Forall_app. split.
    2:{ eapply List.Forall_impl; [|apply directory_events_made].
        intros ev [q ->]. discriminate. }
    apply Forall_app. split.
    { constructor; [|constructor]. intros c E. injection E as <-. now left. }
    apply Forall_app. split.
    + unfold gpu_events. destruct (getattr n "gpu"); try constructor.
      destruct (String.eqb s ""); constructor; [discriminate|constructor].
    + constructor; [intros c E; injection E as <-; now right|].
      constructor; [discriminate|constructor].
Qed.

Lemma run_stops_when_the_directory_cannot_be_made_witness :
  main unit (Examples.globals_at "OSBS") (read_only Examples.argv_save)
    Examples.other_config None Examples.start
  = (Raise (External "PermissionError"),
     applied Examples.start
       (start_events (read_only Examples.argv_save) (parsed Examples.argv_save)
        ++ directory_events (read_only Examples.argv_save) (fs Examples.start)
             (run_directory (read_only Examples.argv_save) "out/")))
  /\ (run_directory (read_only Examples.argv_save) "out/" ∉ fs Examples.start)
  /\ Forall (fun ev => forall c, ev = E_call c ->
                       c = C_check_keras_version \/ c = C_set_session get_session)
       (start_events (read_only Examples.argv_save) (parsed Examples.argv_save)
        ++ directory_events (read_only Examples.argv_save) (fs Examples.start)
             (run_directory (read_only Examples.argv_save) "out/")).
Proof.
  refine (run_stops_when_the_directory_cannot_be_made unit
            (Examples.globals_at "OSBS") (read_only Examples.argv_save)
            Examples.other_config None Examples.start
            (parsed Examples.argv_save) "out/" (External "PermissionError")
            _ _ _ _ _).
  - by_vm.
  - reflexivity.
  - vm_compute. reflexivity.
  - vm_compute. reflexivity.
  - vm_compute. reflexivity.
Defined.

(** X7 (eval.py, create_generator, lines 51-68).  The keys of the global
    configuration are read in the order of the source: without
    [single_tile] the [KeyError] comes before the data is split, without
    [rgb_tile_dir] only after [split_training] has been called. *)
Theorem create_generator_missing_keys G n config st :
  (DeepForest_config G !! "single_tile" = None ->
     create_generator G n config st = (Raise (KeyError "single_tile"), st))
  /\ (forall single_tile split,
        DeepForest_config G !! "single_tile" = Some single_tile ->
        split_training (preprocess G) (getattr n "annotations")
          (DeepForest_config G) single_tile = Ok split ->
        DeepForest_config G !! "rgb_tile_dir" = None ->
        create_generator G n config st
        = (Raise (KeyError "rgb_tile_dir"),
           logged st [E_call (C_split_training (getattr n "annotations") single_tile)])).
Proof.
  unfold create_generator, getitem. split.
  - intros H. rewrite H. reflexivity.
  - intros single_tile split H1 H2 H3. rewrite H1, H3.
    erewrite bind_Ok by reflexivity.
    erewrite bind_Ok by (rewrite delegate_logged, H2; reflexivity).
    reflexivity.
Qed.

(** X8 (eval.py, main, lines 141-150).  A class without annotated
    instances has no part in the mean average precision: with or without
    its entry in the result of the evaluator, whatever its average
    precision, the outcome is the same and so is the mAP logged. *)
Theorem classes_without_instances_do_not_count
    Model (X : Externals Model) (c : context Model) l1 l2 label ap n st :
  n <= 0 ->
  let with_class := main_mAP Model X c (l1 ++ (label, (ap, n)) :: l2) st in
  let without := main_mAP Model X c (l1 ++ l2) st in
  fst with_class = fst without
  /\ forall v, In (E_log_metric "mAP" v) (trace (snd with_class))
               <-> In (E_log_metric "mAP" v) (trace (snd without)).
Proof.
  intros Hn w wo. subst w wo. rewrite !main_mAP_outcome.
  unfold mean_average_precision.
  rewrite (present_insert_absent l1 l2 (label, (ap, n)) Hn). simpl.
  split; [reflexivity|]. intros v.
  assert (Hp : forall l : list (Z * (float * Z)),
            ~ In (E_log_metric "mAP" v)
                (map (fun x => E_print (class_line X (c_generator c) x)) l)).
  { intros l Hin. apply in_map_iff in Hin. destruct Hin as (? & ? & _). discriminate. }
  rewrite !in_app_iff. split; intros [H|[H|H]]; auto;
    solve [ exfalso; eapply Hp; eauto
          | right; right; exact H
          | exfalso; revert H; apply Hp ].
Qed.

Lemma classes_without_instances_do_not_count_witness :
  fst (main_mAP unit (Examples.world Examples.argv_save Examples.three_classes)
         Examples.the_context
         ([(0, (0.8%float, 10))] ++ (1, (PrimFloat.nan, 0)) :: [(2, (0.4%float, 5))])
         Examples.start)
  = fst (main_mAP unit (Examples.world Examples.argv_save Examples.three_classes)
           Examples.the_context ([(0, (0.8%float, 10))] ++ [(2, (0.4%float, 5))])
           Examples.start).
Proof.
  refine (proj1 (classes_without_instances_do_not_count unit
                   (Examples.world Examples.argv_save Examples.three_classes)
                   Examples.the_context [(0, (0.8%float, 10))] [(2, (0.4%float, 5))]
                   1 PrimFloat.nan 0 Examples.start _)).
  lia.
Defined.
Import Posixpath Site.

(** ** The site of a run *)

Lemma substring_all s : substring 0 (String.length s) s = s.
Proof. induction s as [|c s IH]; simpl; auto. now rewrite IH. Qed.

Lemma tail_of_name name : Paths.no_slash name = true -> snd (split name) = name.
Proof.
  intros H. unfold split. cbn [snd]. rewrite (after_last_slash_none name H).
  rewrite Nat.sub_0_r. apply substring_all.
Qed.

Lemma after_last_slash_app x name :
  Paths.no_slash name = true ->
  after_last_slash (x ++ String "/" name) = S (String.length x).
Proof.
  intros H. induction x as [|c x IH]; simpl.
  - now rewrite (after_last_slash_none name H).
  - now rewrite IH.
Qed.

Lemma substring_skip x s n :
  substring (String.length x) n (x ++ s) = substring 0 n s.
Proof. induction x as [|c x IH]; simpl; auto. Qed.

Lemma tail_after_slash x name :
  Paths.no_slash name = true -> snd (split (x ++ String "/" name)) = name.
Proof.
  intros H. unfold split. cbn [snd]. rewrite (after_last_slash_app x name H).
  rewrite length_append. cbn [String.length].
  replace (String.length x + S (String.length name) - S (String.length x))%nat
    with (String.length name) by lia.
  assert (E : forall y, substring (S (String.length x)) (String.length name)
                          (x ++ String "/" y) = substring 0 (String.length name) y).
  { intros y. induction x as [|c x IH]; simpl; auto. }
  rewrite E. apply substring_all.
Qed.

Lemma append_empty_r (s : string) : (s ++ "")%string = s.
Proof.
  induction s as [|c s IH]; [reflexivity|].
  change (String c s ++ "")%string with (String c (s ++ "")). now rewrite IH.
Qed.

Lemma slashes_snoc k : slashes (S k) = (slashes k ++ "/")%string.
Proof.
  induction k as [|k IH]; [reflexivity|].
  change (slashes (S (S k))) with (String "/" (slashes (S k))).
  change (slashes (S k) ++ "/")%string with (String "/" (slashes k ++ "/")).
  now rewrite IH.
Qed.

Lemma split_path_slashes name k :
  Paths.no_slash name = true ->
  Paths.split_path (name ++ slashes k) = name :: repeat "" k.
Proof.
  intros H. induction k as [|k IH].
  - cbn [slashes repeat]. rewrite append_empty_r. now apply split_path_no_slash.
  - rewrite slashes_snoc, <- string_app_assoc, split_path_app_slash, IH.
    cbn [Paths.split_path]. rewrite <- app_comm_cons. f_equal.
    symmetry. apply (repeat_cons k "").
Qed.

Lemma is_name_spec name :
  is_name name = true ->
  String.eqb name "" = false /\ Paths.no_slash name = true
  /\ String.eqb name "." = false /\ String.eqb name ".." = false.
Proof.
  unfold is_name. intros H.
  apply andb_prop in H as [H H4]. apply andb_prop in H as [H H3].
  apply andb_prop in H as [H1 H2].
  apply negb_true_iff in H1, H3, H4. auto.
Qed.

Lemma normpath_steps_name i new_comps name k :
  is_name name = true ->
  fold_left (normpath_step i) (name :: repeat "" k) new_comps = new_comps ++ [name].
Proof.
  intros H. apply is_name_spec in H as (H1 & _ & H3 & H4).
  cbn [fold_left]. unfold normpath_step at 2. rewrite H1, H3, H4. cbn [orb negb].
  induction k as [|k IH]; [reflexivity|]. cbn [repeat fold_left]. exact IH.
Qed.

Lemma join_snoc comps name :
  join (comps ++ [name])
  = match comps with
    | [] => name
    | _ => (join comps ++ String "/" name)%string
    end.
Proof.
  induction comps as [|c comps IH]; [reflexivity|].
  cbn [app join]. destruct comps as [|c' comps]; [reflexivity|].
  cbn [app] in IH |- *. rewrite IH. now rewrite string_app_assoc.
Qed.

Lemma eqb_append_slash x name : String.eqb (x ++ String "/" name) "" = false.
Proof. destruct x; reflexivity. Qed.

(** The normal form of a path that ends with a directory name, possibly
    followed by separators: the name alone, or something, a separator and
    the name. *)
Lemma normpath_ends_with_name name k pre :
  is_name name = true ->
  pre = "" \/ (exists dir, pre = (dir ++ "/")%string) ->
  normpath (pre ++ name ++ slashes k) = name
  \/ exists x, normpath (pre ++ name ++ slashes k) = (x ++ String "/" name)%string.
Proof.
  intros Hname Hpre.
  pose proof (is_name_spec name Hname) as (H1 & H2 & _).
  unfold normpath.
  assert (Hne : String.eqb (pre ++ name ++ slashes k) "" = false).
  { destruct pre; [|reflexivity]. destruct name; [discriminate|reflexivity]. }
  rewrite Hne.
  match goal with
  | |- context [fold_left (normpath_step ?i)] => generalize i
  end.
  intros i.
  assert (Hc : exists cs, Paths.split_path (pre ++ name ++ slashes k)
                          = cs ++ name :: repeat "" k).
  { destruct Hpre as [->|(dir & ->)].
    - exists []. now apply split_path_slashes.
    - exists (Paths.split_path dir).
      rewrite string_app_assoc.
      change ("/" ++ name ++ slashes k)%string with (String "/" (name ++ slashes k)).
      now rewrite split_path_app_slash, split_path_slashes. }
  destruct Hc as (cs & ->).
  rewrite fold_left_app, normpath_steps_name by exact Hname.
  rewrite join_snoc.
  destruct (fold_left (normpath_step i) cs []) as [|c0 comps].
  - destruct i as [|j].
    + left. cbn [slashes]. change ("" ++ name)%string with name. now rewrite H1.
    + right. exists (slashes j).
      rewrite slashes_snoc, string_app_assoc.
      change ("/" ++ name)%string with (String "/" name).
      now rewrite eqb_append_slash.
  - right. exists (slashes i ++ join (c0 :: comps))%string.
    rewrite <- string_app_assoc. now rewrite eqb_append_slash.
Qed.

Lemma site_of_name name k pre :
  is_name name = true ->
  pre = "" \/ (exists dir, pre = (dir ++ "/")%string) ->
  site_of (pre ++ name ++ slashes k) = name.
Proof.
  intros Hname Hpre. pose proof (is_name_spec name Hname) as (_ & H2 & _).
  unfold site_of.
  destruct (normpath_ends_with_name name k pre Hname Hpre) as [->|(x & ->)].
  - now apply tail_of_name.
  - now apply tail_after_slash.
Qed.

(** X12 (eval.py, lines 209-210).  The site of a run is the last directory
    name of the evaluation tile directory: whatever directory the name is
    in, and however many separators follow it. *)
Theorem site_is_the_last_directory_name name k :
  is_name name = true ->
  site_of (name ++ slashes k) = name
  /\ forall dir, site_of (dir ++ "/" ++ name ++ slashes k) = name.
Proof.
  intros Hname. split.
  - apply (site_of_name name k ""); auto.
  - intros dir. rewrite <- string_app_assoc. apply site_of_name; eauto.
Qed.

Lemma site_is_the_last_directory_name_witness :
  site_of ("OSBS" ++ slashes 1) = "OSBS"
  /\ forall dir, site_of (dir ++ "/" ++ "OSBS" ++ slashes 1) = "OSBS".
Proof. apply (site_is_the_last_directory_name "OSBS" 1). reflexivity. Defined.

(** X13 (eval.py, lines 152-166 and 209-210).  When the evaluation tile
    directory of the configuration is a directory named OSBS and the
    global [site] was derived from it, the run calls the ground truth
    comparison with the score threshold and the save path of the command
    line. *)
Theorem tiles_of_OSBS_are_compared_with_ground_truth
    Model G (X : Externals Model) cfg (c : context Model) st dir k :
  DeepForest_config G !! "evaluation_tile_dir"
    = Some (VStr (dir ++ "/" ++ "OSBS" ++ slashes k)) ->
  derive_site (DeepForest_config G) = Ok (site G) ->
  In (E_call (C_Jaccard (getattr (c_args c) "score_threshold")
                (getattr (c_args c) "save_path")))
     (trace (snd (main_iou Model G X cfg c st))).
Proof.
  intros Hdir Hsite. unfold derive_site, getitem in Hsite. rewrite Hdir in Hsite.
  cbn [rbind] in Hsite. injection Hsite as Hsite.
  rewrite <- string_app_assoc in Hsite.
  rewrite (site_of_name "OSBS" k (dir ++ "/")) in Hsite by eauto.
  rewrite main_iou_at_site by (symmetry; exact Hsite). cbv zeta.
  destruct (Jaccard Model X (c_generator c) (c_model c) _ _ cfg);
    cbn [snd]; apply in_logged; now left.
Qed.

Lemma tiles_of_OSBS_are_compared_with_ground_truth_witness :
  In (E_call (C_Jaccard (getattr (c_args Examples.the_context) "score_threshold")
                (getattr (c_args Examples.the_context) "save_path")))
     (trace (snd (main_iou unit florida
                    (Examples.world Examples.argv_save Examples.three_classes)
                    Examples.other_config Examples.the_context Examples.start))).
Proof.
  apply (tiles_of_OSBS_are_compared_with_ground_truth unit florida
           (Examples.world Examples.argv_save Examples.three_classes)
           Examples.other_config Examples.the_context Examples.start "data" 1).
  - vm_compute. reflexivity.
  - vm_compute. reflexivity.
Defined.
